(** * Socratic-Learn: the turn store, the context window, the API-key
      rotation, the streaming assembler and the agent turn

    A shallow embedding of the control-flow core of the application:

    - [withApiKeyRotation] of the Gemini service module
      (src/unnamed/part_000, lines 24-80);
    - [addTurn], [updateTurn], [removeTurn], [createTurnFromStream],
      [getContextString], [runAgentTurn], the agent-loop effect,
      [handleSend] and [handleResend] of src/App.tsx;
    - [handleAutoContinueToggle], [handleRegenerate], [handleRephrase],
      [createNewSession], [loadSession], [handleStartSession] and
      [handleSendDiscussionMessage] of src/App.tsx;
    - [isGemmaModel], [buildMultimodalContent], the requests of
      [generateStream], [getDirectChatResponseStream] and
      [getTeacherResponse], and [getDynamicTopics] of the service module.

    Conventions.  A JavaScript string is a Rocq [string] read as a sequence
    of code units below 256, so that [String.length] is the [.length] of
    the source.  React state is passed explicitly: a callback reads the
    values captured by its closure and queues functional updates, which the
    model applies in order.  [uuidv4] is an id supply indexed by a counter
    kept in the state.  Remote calls are oracles given as arguments. *)

From Stdlib Require Import ZArith String Ascii List Bool Lia.
From stdpp Require Import base option list gmap strings pretty.

Local Open Scope Z_scope.

(* ===================================================================== *)
(** * 1. JavaScript primitives used by the source                         *)
(* ===================================================================== *)

(** The line feed of the template literals ([\n]). *)
Definition LF : string := String (ascii_of_nat 10) EmptyString.

(** White space and line terminators recognised by [String.prototype.trim]
    and by [parseInt], among the code units below 256:
    TAB, LF, VT, FF, CR, SP and NBSP. *)
Definition isWhiteSpace (c : ascii) : bool :=
  let n := nat_of_ascii c in
  (Nat.eqb n 9 || Nat.eqb n 10 || Nat.eqb n 11 || Nat.eqb n 12
   || Nat.eqb n 13 || Nat.eqb n 32 || Nat.eqb n 160)%bool.

Fixpoint trimStart (s : string) : string :=
  match s with
  | EmptyString => EmptyString
  | String c rest => if isWhiteSpace c then trimStart rest else s
  end.

(** [trimEnd] keeps a character when it is not white space or when
    something other than white space follows it. *)
Fixpoint trimEnd (s : string) : string :=
  match s with
  | EmptyString => EmptyString
  | String c rest =>
      match trimEnd rest with
      | EmptyString => if isWhiteSpace c then EmptyString else String c EmptyString
      | kept => String c kept
      end
  end.

Definition trim (s : string) : string := trimEnd (trimStart s).

(** Truthiness of a string: the empty string is the only falsy one. *)
Definition truthy (s : string) : bool :=
  match s with EmptyString => false | String _ _ => true end.

(** [s.startsWith(p)] *)
Definition startsWith (s p : string) : bool := String.prefix p s.

(** [Array.prototype.slice(start, end)] and [String.prototype.slice]: a
    negative index counts from the end, and both indices are clamped to
    [0 .. len]. *)
Definition relativeIndex (len i : Z) : Z :=
  if i <? 0 then Z.max (len + i) 0 else Z.min i len.

Definition slice {A} (l : list A) (start : Z) (end_ : option Z) : list A :=
  let len := Z.of_nat (length l) in
  let k := relativeIndex len start in
  let final := match end_ with None => len | Some e => relativeIndex len e end in
  take (Z.to_nat (final - k)) (drop (Z.to_nat k) l).

Definition sliceString (s : string) (start : Z) (end_ : option Z) : string :=
  let len := Z.of_nat (String.length s) in
  let k := relativeIndex len start in
  let final := match end_ with None => len | Some e => relativeIndex len e end in
  String.substring (Z.to_nat k) (Z.to_nat (final - k)) s.

(** [s.split(sep)] for a separator of one character. *)
Fixpoint split (sep : ascii) (s : string) : list string :=
  match s with
  | EmptyString => [EmptyString]
  | String c rest =>
      if Ascii.eqb c sep then EmptyString :: split sep rest
      else match split sep rest with
           | piece :: pieces => String c piece :: pieces
           | [] => [String c EmptyString]
           end
  end.

(** [parseInt(s, 10)]: leading white space, an optional sign, then the
    longest run of decimal digits; [None] is NaN (no digit at all). *)
Definition digitValue (c : ascii) : option Z :=
  let n := nat_of_ascii c in
  if (Nat.leb 48 n && Nat.leb n 57)%bool then Some (Z.of_nat n - 48) else None.

Fixpoint parseDigits (acc : option Z) (s : string) : option Z :=
  match s with
  | EmptyString => acc
  | String c rest =>
      match digitValue c with
      | Some d => parseDigits (Some (10 * default 0 acc + d)) rest
      | None => acc
      end
  end.

Definition parseInt (s : string) : option Z :=
  match trimStart s with
  | String "-"%char rest => Z.opp <$> parseDigits None rest
  | String "+"%char rest => parseDigits None rest
  | t => parseDigits None t
  end.

(** [a % b === 0] on numbers where [b] may be NaN: the remainder by NaN or
    by zero is NaN, which is not [=== 0]; otherwise [%] truncates towards
    zero. *)
Definition remainderIsZero (a : Z) (b : option Z) : bool :=
  match b with
  | None => false
  | Some n => if n =? 0 then false else Z.rem a n =? 0
  end.

(** [`${n}`] for a non-negative integer. *)
Definition numberToString (n : nat) : string := pretty n.

(** Values a [catch] clause of the modelled code can bind.  Every request
    closure handed to [withApiKeyRotation] (which the service does not
    export) awaits the Gemini SDK, which rejects with [Error] objects; the
    two [Error] classes of the service and other thrown values are told
    apart because the source tests [e instanceof Error].  A promise can
    reject with any value: [ThrownValue] is a truthy value that is not an
    [Error], [FalsyValue] one of [undefined], [null], [false], [0], [NaN]
    and the empty string; both carry what [String(e)] gives. *)
Inductive ErrorClass := PlainError | ApiKeyErrorClass.

Inductive Thrown :=
| ErrorObject (cls : ErrorClass) (message : string)
| ThrownValue (asString : string)
| FalsyValue (asString : string).

(** [new Error(m)] and [new ApiKeyError(m)] *)
Definition Error (m : string) : Thrown := ErrorObject PlainError m.
Definition ApiKeyError (m : string) : Thrown := ErrorObject ApiKeyErrorClass m.

(** [e instanceof Error ? e.message : String(e)] *)
Definition errorMessage (e : Thrown) : string :=
  match e with
  | ErrorObject _ m => m
  | ThrownValue s => s
  | FalsyValue s => s
  end.

(** Truthiness of a caught value, as [if (e)] tests it. *)
Definition isTruthy (e : Thrown) : bool :=
  match e with
  | FalsyValue _ => false
  | _ => true
  end.

(** What [if (lastError)] lets through: [null] (nothing caught) and a
    falsy caught value both fail the test. *)
Definition whenTruthy (lastError : option Thrown) : option Thrown :=
  match lastError with
  | Some e => if isTruthy e then Some e else None
  | None => None
  end.

(* ===================================================================== *)
(** * 2. The Gemini service: API-key rotation                             *)
(* ===================================================================== *)

Inductive ApiKeyStatus := valid | exhausted.

(** What the rotation does that its caller can observe besides the result:
    the [onActiveKeyUpdate] notifications, the request closure being run
    with a client bound to a key, and the console lines. *)
Inductive GatewayEvent :=
| ActiveKeyUpdate (index : option nat)
| ApiCallWith (index : nat) (key : string)
| ConsoleWarn (line : string)
| ConsoleError (line : string).

(** [{ key, index }] *)
Record KeyInfo := { key : string; index : Z }.

(** The locals of [withApiKeyRotation] that the loop updates. *)
Record RotationLocals := {
  lastError : option Thrown;
  lastErrorKeyInfo : KeyInfo;
  validationErrors : list string;
}.

(** [apiKeys.map((key, index) => ({ key, index })).filter(k => k.key && k.key.trim())] *)
Definition keysToTry (apiKeys : list string) : list (string * nat) :=
  List.filter (fun k => (truthy k.1 && truthy (trim k.1))%bool)
              (imap (fun index key => (key, index)) apiKeys).

(** The client-side validation of line 43. *)
Definition appearsInvalid (key : string) : bool :=
  ((Z.of_nat (String.length key) <? 30) || negb (startsWith key "AIza"))%bool.

Definition skipMessage (index : nat) : string :=
  "Skipping key at index " +:+ numberToString index
  +:+ " because it appears to be invalid.".

(** Outcome of the [for ... of] loop: it is left by [return result], or it
    runs to its end with the locals it has accumulated. *)
Inductive LoopExit (T : Type) :=
| Returned (result : T)
| RanOut (locals : RotationLocals).
Arguments Returned {T} result.
Arguments RanOut {T} locals.

(** The request closure is run against the remote service, whose state is
    the abstract world [W]; it resolves ([inr]) or rejects ([inl]). *)
Fixpoint rotationLoop {W T : Type} (apiCall : string → W → (Thrown + T) * W)
    (keys : list (string * nat)) (locals : RotationLocals) (w : W)
    (trace : list GatewayEvent) : LoopExit T * W * list GatewayEvent :=
  match keys with
  | [] => (RanOut locals, w, trace)
  | (key, index) :: rest =>
      if appearsInvalid key then
        let validationError := skipMessage index in
        rotationLoop apiCall rest
          {| lastError := lastError locals;
             lastErrorKeyInfo := lastErrorKeyInfo locals;
             validationErrors := validationErrors locals ++ [validationError] |}
          w (trace ++ [ConsoleWarn validationError])
      else
        let trace := trace ++ [ActiveKeyUpdate (Some index); ApiCallWith index key] in
        match apiCall key w with
        | (inr result, w) => (Returned result, w, trace ++ [ActiveKeyUpdate None])
        | (inl e, w) =>
            rotationLoop apiCall rest
              {| lastError := Some e;
                 lastErrorKeyInfo := {| key := key; index := Z.of_nat index |};
                 validationErrors := validationErrors locals |}
              w
              (trace ++ [ConsoleError ("API call with key at index "
                                        +:+ numberToString index +:+ " failed: "
                                        +:+ errorMessage e)])
        end
  end.

Definition keySnippet (info : KeyInfo) : string :=
  if 8 <? Z.of_nat (String.length (key info))
  then sliceString (key info) 0 (Some 4) +:+ "..." +:+ sliceString (key info) (-4) None
  else key info.

Definition indexToString (i : Z) : string := pretty i.

Definition withApiKeyRotation {W T : Type} (apiKeys : list string)
    (apiKeyStatuses : option (list ApiKeyStatus))
    (apiCall : string → W → (Thrown + T) * W) (w : W)
    : (Thrown + T) * W * list GatewayEvent :=
  let keysToTry := keysToTry apiKeys in
  if Nat.eqb (length keysToTry) 0 then
    (inl (ApiKeyError "No API Key has been configured. Please go to Settings, add a valid Gemini API key, and apply your changes."), w, [])
  else
    match rotationLoop apiCall keysToTry
            {| lastError := None;
               lastErrorKeyInfo := {| key := ""; index := -1 |};
               validationErrors := [] |} w [] with
    | (Returned result, w, trace) => (inr result, w, trace)
    | (RanOut locals, w, trace) =>
        let trace := trace ++ [ActiveKeyUpdate None] in
        match whenTruthy (lastError locals) with
        | Some lastError =>
            let finalErrorMessage := errorMessage lastError in
            (inl (Error ("API call failed using key at index "
                         +:+ indexToString (index (lastErrorKeyInfo locals))
                         +:+ " (key: " +:+ keySnippet (lastErrorKeyInfo locals)
                         +:+ "). Raw Error: " +:+ finalErrorMessage)), w, trace)
        | None =>
            if (Nat.ltb 0 (length (validationErrors locals))
                && Nat.eqb (length (validationErrors locals)) (length keysToTry))%bool
            then (inl (ApiKeyError "All configured API keys failed client-side validation and were skipped. Please check your keys in Settings."), w, trace)
            else (inl (Error "All available API keys failed. Please check your keys in Settings and your network connection."), w, trace)
        end
    end.


(** The remote attempts of a run, in order: the index and the key the
    client was bound to. *)
Definition apiCallsOf (trace : list GatewayEvent) : list (nat * string) :=
  omap (fun ev => match ev with ApiCallWith i k => Some (i, k) | _ => None end) trace.

(* ===================================================================== *)
(** * 3. Types of the application (src/types.ts)                          *)
(* ===================================================================== *)

Inductive TurnRole := student | teacher | validator | system | user | starter.

Inductive SessionState :=
  idle | starting | running_auto | paused_user_input | finished | working.

Inductive AttachmentType := image | text.

(** Payloads the modelled code only passes along ([any] in the source),
    kept as their JSON text. *)
Definition Json := string.

Record Attachment := {
  att_name : string;
  att_type : AttachmentType;
  mimeType : string;
  data : string;
}.

Inductive Rating := GOOD | COMPLEX | OFF_TOPIC.

Record ValidatorFeedback := { rating : Rating; feedbackText : string }.

Record FunctionCall := { fc_name : string; args : Json }.

(** A turn object as it sits in the [turns] map.  Every property is
    optional, as in [Partial<Turn>]: [updateTurn] spreads a partial object
    over [prev[id]], so the map can hold objects that lack [id], [role] or
    [content].  [functionCall] is [undefined], [null] or an object. *)
Record Turn := {
  id : option string;
  role : option TurnRole;
  content : option string;
  modelName : option string;
  isStreaming : option bool;
  feedback : option ValidatorFeedback;
  groundingMetadata : option Json;
  functionCall : option (option FunctionCall);
  isRephrased : option bool;
  discussionTurns : option Json;
  attachments : option (list Attachment);
  generatedImages : option Json;
}.

(** The object literal [{}]. *)
Definition emptyObject : Turn :=
  {| id := None; role := None; content := None; modelName := None;
     isStreaming := None; feedback := None; groundingMetadata := None;
     functionCall := None; isRephrased := None; discussionTurns := None;
     attachments := None; generatedImages := None |}.

(** One property of [{ ...older, ...newer }]. *)
Definition override {A} (newer older : option A) : option A :=
  match newer with Some v => Some v | None => older end.

(** [{ ...older, ...newer }] *)
Definition spread (older newer : Turn) : Turn :=
  {| id := override (id newer) (id older);
     role := override (role newer) (role older);
     content := override (content newer) (content older);
     modelName := override (modelName newer) (modelName older);
     isStreaming := override (isStreaming newer) (isStreaming older);
     feedback := override (feedback newer) (feedback older);
     groundingMetadata := override (groundingMetadata newer) (groundingMetadata older);
     functionCall := override (functionCall newer) (functionCall older);
     isRephrased := override (isRephrased newer) (isRephrased older);
     discussionTurns := override (discussionTurns newer) (discussionTurns older);
     attachments := override (attachments newer) (attachments older);
     generatedImages := override (generatedImages newer) (generatedImages older) |}.

(** Object literals are written property by property:
    [{ role: 'user', content: c }] is
    [with_content c (with_role user emptyObject)]. *)
Definition with_id (v : string) (o : Turn) : Turn :=
  {| id := Some v; role := role o; content := content o; modelName := modelName o;
     isStreaming := isStreaming o; feedback := feedback o;
     groundingMetadata := groundingMetadata o; functionCall := functionCall o;
     isRephrased := isRephrased o; discussionTurns := discussionTurns o;
     attachments := attachments o; generatedImages := generatedImages o |}.

Definition with_role (v : TurnRole) (o : Turn) : Turn :=
  {| id := id o; role := Some v; content := content o; modelName := modelName o;
     isStreaming := isStreaming o; feedback := feedback o;
     groundingMetadata := groundingMetadata o; functionCall := functionCall o;
     isRephrased := isRephrased o; discussionTurns := discussionTurns o;
     attachments := attachments o; generatedImages := generatedImages o |}.

(** [content] is set from a value that is a string wherever the source
    is well typed; [handleResend] forwards a property it has read. *)
Definition with_content_read (v : option string) (o : Turn) : Turn :=
  {| id := id o; role := role o; content := v; modelName := modelName o;
     isStreaming := isStreaming o; feedback := feedback o;
     groundingMetadata := groundingMetadata o; functionCall := functionCall o;
     isRephrased := isRephrased o; discussionTurns := discussionTurns o;
     attachments := attachments o; generatedImages := generatedImages o |}.

Definition with_content (v : string) (o : Turn) : Turn := with_content_read (Some v) o.

Definition with_modelName (v : string) (o : Turn) : Turn :=
  {| id := id o; role := role o; content := content o; modelName := Some v;
     isStreaming := isStreaming o; feedback := feedback o;
     groundingMetadata := groundingMetadata o; functionCall := functionCall o;
     isRephrased := isRephrased o; discussionTurns := discussionTurns o;
     attachments := attachments o; generatedImages := generatedImages o |}.

Definition with_isStreaming (v : bool) (o : Turn) : Turn :=
  {| id := id o; role := role o; content := content o; modelName := modelName o;
     isStreaming := Some v; feedback := feedback o;
     groundingMetadata := groundingMetadata o; functionCall := functionCall o;
     isRephrased := isRephrased o; discussionTurns := discussionTurns o;
     attachments := attachments o; generatedImages := generatedImages o |}.

Definition with_feedback (v : ValidatorFeedback) (o : Turn) : Turn :=
  {| id := id o; role := role o; content := content o; modelName := modelName o;
     isStreaming := isStreaming o; feedback := Some v;
     groundingMetadata := groundingMetadata o; functionCall := functionCall o;
     isRephrased := isRephrased o; discussionTurns := discussionTurns o;
     attachments := attachments o; generatedImages := generatedImages o |}.

(** The response's grounding metadata may be [undefined]; the only object
    it is ever spread over is the placeholder just added, which has none. *)
Definition with_groundingMetadata (v : option Json) (o : Turn) : Turn :=
  {| id := id o; role := role o; content := content o; modelName := modelName o;
     isStreaming := isStreaming o; feedback := feedback o;
     groundingMetadata := v; functionCall := functionCall o;
     isRephrased := isRephrased o; discussionTurns := discussionTurns o;
     attachments := attachments o; generatedImages := generatedImages o |}.

(** [None] is [null] here. *)
Definition with_functionCall (v : option FunctionCall) (o : Turn) : Turn :=
  {| id := id o; role := role o; content := content o; modelName := modelName o;
     isStreaming := isStreaming o; feedback := feedback o;
     groundingMetadata := groundingMetadata o; functionCall := Some v;
     isRephrased := isRephrased o; discussionTurns := discussionTurns o;
     attachments := attachments o; generatedImages := generatedImages o |}.

Definition with_attachments (v : list Attachment) (o : Turn) : Turn :=
  {| id := id o; role := role o; content := content o; modelName := modelName o;
     isStreaming := isStreaming o; feedback := feedback o;
     groundingMetadata := groundingMetadata o; functionCall := functionCall o;
     isRephrased := isRephrased o; discussionTurns := discussionTurns o;
     attachments := Some v; generatedImages := generatedImages o |}.

(** [`${role}`] *)
Definition roleName (r : TurnRole) : string :=
  match r with
  | student => "student" | teacher => "teacher" | validator => "validator"
  | system => "system" | user => "user" | starter => "starter"
  end.

(** A property read that is interpolated or used as a property key: a
    missing property reads [undefined], which prints as ["undefined"]. *)
Definition interpolate (v : option string) : string := default "undefined" v.

Inductive ContextWindow := short | medium | long.
Inductive ValidatorFrequency := disabled | every_turn | every_3_turns | every_5_turns.
Inductive InteractionMode := agent | direct.

(** The string a [ValidatorFrequency] is at run time. *)
Definition validatorFrequencyValue (f : ValidatorFrequency) : string :=
  match f with
  | disabled => "disabled"
  | every_turn => "every_turn"
  | every_3_turns => "every_3_turns"
  | every_5_turns => "every_5_turns"
  end.

(** [settings.modelSettings], the models the modelled code names. *)
Record ModelSettings := {
  ms_student : string;
  ms_teacher : string;
  ms_validator : string;
  ms_directChat : string;
}.

(** The properties of [AppSettings] the modelled code reads. *)
Record AppSettings := {
  interactionMode : InteractionMode;
  contextWindow : ContextWindow;
  maxTurns : Z;
  autoContinueAgent : bool;
  validatorFrequency : ValidatorFrequency;
  modelSettings : ModelSettings;
}.

(** src/constants.ts *)
Definition CONTEXT_WINDOW_SIZES (w : ContextWindow) : Z :=
  match w with short => 4 | medium => 8 | long => 12 end.

(* ===================================================================== *)
(** * 4. React state of [App] and its setters                             *)
(* ===================================================================== *)

(** The [useState] cells and the ref that the modelled callbacks touch,
    and the number of ids already drawn from [uuidv4]. *)
Record AppState := {
  turns : gmap string Turn;
  turnOrder : list string;
  sessionState : SessionState;
  error : option string;
  resendPayload : option (option string * list Attachment);
  isAgentRunning : bool;
  uuidCount : nat;
}.

Definition setTurns (f : gmap string Turn → gmap string Turn) (st : AppState) : AppState :=
  {| turns := f (turns st); turnOrder := turnOrder st;
     sessionState := sessionState st; error := error st;
     resendPayload := resendPayload st; isAgentRunning := isAgentRunning st;
     uuidCount := uuidCount st |}.

Definition setTurnOrder (f : list string → list string) (st : AppState) : AppState :=
  {| turns := turns st; turnOrder := f (turnOrder st);
     sessionState := sessionState st; error := error st;
     resendPayload := resendPayload st; isAgentRunning := isAgentRunning st;
     uuidCount := uuidCount st |}.

Definition setSessionState (s : SessionState) (st : AppState) : AppState :=
  {| turns := turns st; turnOrder := turnOrder st;
     sessionState := s; error := error st;
     resendPayload := resendPayload st; isAgentRunning := isAgentRunning st;
     uuidCount := uuidCount st |}.

Definition setError (e : option string) (st : AppState) : AppState :=
  {| turns := turns st; turnOrder := turnOrder st;
     sessionState := sessionState st; error := e;
     resendPayload := resendPayload st; isAgentRunning := isAgentRunning st;
     uuidCount := uuidCount st |}.

Definition setResendPayload (p : option (option string * list Attachment)) (st : AppState) : AppState :=
  {| turns := turns st; turnOrder := turnOrder st;
     sessionState := sessionState st; error := error st;
     resendPayload := p; isAgentRunning := isAgentRunning st;
     uuidCount := uuidCount st |}.

Definition setIsAgentRunning (b : bool) (st : AppState) : AppState :=
  {| turns := turns st; turnOrder := turnOrder st;
     sessionState := sessionState st; error := error st;
     resendPayload := resendPayload st; isAgentRunning := b;
     uuidCount := uuidCount st |}.

(** Drawing the next id. *)
Definition drawUuid (uuidv4 : nat → string) (st : AppState) : string * AppState :=
  (uuidv4 (uuidCount st),
   {| turns := turns st; turnOrder := turnOrder st;
      sessionState := sessionState st; error := error st;
      resendPayload := resendPayload st; isAgentRunning := isAgentRunning st;
      uuidCount := S (uuidCount st) |}).

(** An [async] callback: it runs on the state and either resolves or
    rejects, leaving the updates it has queued so far in place. *)
Definition Async (A : Type) : Type := AppState → (Thrown + A) * AppState.

Definition resolve {A} (a : A) : Async A := fun st => (inr a, st).
Definition throw {A} (e : Thrown) : Async A := fun st => (inl e, st).
Definition bind {A B} (m : Async A) (k : A → Async B) : Async B :=
  fun st => match m st with
            | (inr a, st) => k a st
            | (inl e, st) => (inl e, st)
            end.
Definition update (f : AppState → AppState) : Async unit :=
  fun st => (inr tt, f st).
Definition await {A} (r : Thrown + A) : Async A := fun st => (r, st).

Declare Scope async_scope.
Delimit Scope async_scope with async.
Notation "'let*' x ':=' m 'in' k" := (bind m (fun x => k))
  (at level 10, x pattern, m at level 100, k at level 200) : async_scope.
Notation "m ';;' k" := (bind m (fun _ => k))
  (at level 100, k at level 200, right associativity) : async_scope.
Local Open Scope async_scope.

(* ===================================================================== *)
(** * 5. Turn management (src/App.tsx, lines 161-228)                     *)
(* ===================================================================== *)

(** [turn] carries no [id]. *)
Definition addTurn (uuidv4 : nat → string) (turn : Turn) (st : AppState)
    : Turn * AppState :=
  let (uuid, st) := drawUuid uuidv4 st in
  let newTurn := with_id uuid turn in
  let st := setTurns (fun prev => <[interpolate (id newTurn) := newTurn]> prev) st in
  let st := setTurnOrder (fun prev => prev ++ [interpolate (id newTurn)]) st in
  (newTurn, st).

Definition updateTurn (id : string) (updates : Turn) (st : AppState) : AppState :=
  setTurns (fun prev => <[id := spread (default emptyObject (prev !! id)) updates]> prev) st.

Definition removeTurn (id : string) (st : AppState) : AppState :=
  let st := setTurns (fun prev => let newTurns := prev in delete id newTurns) st in
  setTurnOrder (fun prev => List.filter (fun turnId => negb (String.eqb turnId id)) prev) st.

(** An [AsyncGenerator<string>] that yields [chunks] and then either
    completes or throws. *)
Record Stream := { chunks : list string; failure : option Thrown }.

(** The [for await] loop of [createTurnFromStream], on the chunks that
    remain after the first. *)
Fixpoint forAwaitChunks (id : string) (fullContent : string) (rest : list string)
    (st : AppState) : string * AppState :=
  match rest with
  | [] => (fullContent, st)
  | chunk :: rest =>
      let fullContent := fullContent +:+ chunk in
      forAwaitChunks id fullContent rest
        (updateTurn id (with_content fullContent emptyObject) st)
  end.

(** [turnData] carries no [id], [content] or [isStreaming]. *)
Definition createTurnFromStream (uuidv4 : nat → string) (turnData : Turn)
    (generator : Stream) : Async (option Turn * string) :=
  fun st =>
    match chunks generator with
    | [] =>
        match failure generator with
        | Some e => (inl e, st)
        | None => (inr (None, ""), st)
        end
    | first :: rest =>
        let fullContent := first in
        let (newTurn, st) :=
          addTurn uuidv4 (with_isStreaming true (with_content fullContent turnData)) st in
        let (fullContent, st) :=
          forAwaitChunks (interpolate (id newTurn)) fullContent rest st in
        match failure generator with
        | Some e => (inl e, st)
        | None =>
            let st := updateTurn (interpolate (id newTurn))
                        (with_isStreaming false emptyObject) st in
            (inr (Some newTurn, fullContent), st)
        end
    end.

(** [`[${t.role}]\n${t.content}`] *)
Definition renderTurn (t : Turn) : string :=
  "[" +:+ interpolate (roleName <$> role t) +:+ "]" +:+ LF +:+ interpolate (content t).

(** [ids.map(id => turns[id]).filter(Boolean).map(t => ...).join('\n\n')]:
    an object is truthy whatever it holds, so [filter(Boolean)] drops
    exactly the ids that have no entry in the map. *)
Definition renderContext (turns : gmap string Turn) (ids : list string) : string :=
  String.concat (LF +:+ LF) (renderTurn <$> omap (fun id => turns !! id) ids).

Definition getContextString (settings : AppSettings) (st : AppState) : string :=
  let windowSize := CONTEXT_WINDOW_SIZES (contextWindow settings) in
  renderContext (turns st) (slice (turnOrder st) (- windowSize) None).

(* ===================================================================== *)
(** * 6. The agent turn and the agent loop (src/App.tsx, lines 417-531)   *)
(* ===================================================================== *)

Record TeacherResponse := {
  resp_text : string;
  resp_groundingMetadata : option Json;
  resp_functionCall : option FunctionCall;
}.

(** The exports of the Gemini service that the modelled callbacks await,
    as oracles: what the remote model answers is not decided here. *)
Record Gemini := {
  getStudentResponseStream : string → AppSettings → Stream;
  getDirectChatResponseStream :
    string → option string → list Attachment → AppSettings → Stream;
  getTeacherResponse :
    string → string → option (list Attachment) → AppSettings → Thrown + TeacherResponse;
  getValidatorFeedback :
    string → string → string → AppSettings → Thrown + ValidatorFeedback;
}.

Definition isTeacher (t : option Turn) : bool :=
  match t ≫= role with Some teacher => true | _ => false end.

(** [turnOrder.map(id => turns[id]).filter(t => t?.role === 'teacher').length] *)
Definition countTeacherTurns (turns : gmap string Turn) (turnOrder : list string) : Z :=
  Z.of_nat (length (List.filter isTeacher ((fun id => turns !! id) <$> turnOrder))).

Definition isDisabled (f : ValidatorFrequency) : bool :=
  match f with disabled => true | _ => false end.

(** Lines 476-477. *)
Definition isValidationTurn (validatorFrequency : ValidatorFrequency)
    (currentTeacherTurns : Z) : bool :=
  let validatorFrequencyNum :=
    parseInt (match split "_" (validatorFrequencyValue validatorFrequency) !! 1%nat with
              | Some piece => if truthy piece then piece else "1"
              | None => "1"
              end) in
  (negb (isDisabled validatorFrequency)
   && remainderIsZero currentTeacherTurns validatorFrequencyNum)%bool.

(** [['teacher', 'validator', 'starter'].includes(r)] *)
Definition endsAnExchange (r : option TurnRole) : bool :=
  match r with
  | Some teacher | Some validator | Some starter => true
  | _ => false
  end.

(** The last turn when it is a question still waiting for its answer, that
    is when the test
    [!lastTurnInState || ['teacher', 'validator', 'starter'].includes(lastTurnInState.role)]
    fails. *)
Definition pendingQuestion (lastTurnInState : option Turn) : option Turn :=
  match lastTurnInState with
  | None => None
  | Some last => if endsAnExchange (role last) then None else Some last
  end.

(** [addTurn] called from an [async] callback. *)
Definition addTurnIn (uuidv4 : nat → string) (turn : Turn) : Async Turn :=
  fun st => let (newTurn, st) := addTurn uuidv4 turn st in (inr newTurn, st).

(** The [try] block of [runAgentTurn].  [captured] holds the [turns] and
    [turnOrder] of the render that created the callback: they do not change
    while the callback runs, whatever it queues with [addTurn] and
    [updateTurn]. *)
Definition agentExchange (uuidv4 : nat → string) (gemini : Gemini)
    (settings : AppSettings) (topic : string) (captured : AppState) : Async unit :=
  let turnOrder := turnOrder captured in
  let turns := turns captured in
  let lastTurnInState :=
    if Nat.ltb 0 (length turnOrder)
    then (turnOrder !! (length turnOrder - 1)%nat) ≫= (fun id => turns !! id)
    else None in
  let* (questionTurn, contextForTeacher) :=
    match pendingQuestion lastTurnInState with
    | None =>
        let contextForTeacher := getContextString settings captured in
        let studentGenerator := getStudentResponseStream gemini contextForTeacher settings in
        let* (turn, _) :=
          createTurnFromStream uuidv4
            (with_modelName (ms_student (modelSettings settings))
               (with_role student emptyObject))
            studentGenerator in
        match turn with
        | None => throw (Error "Student model failed to generate a response.")
        | Some turn => resolve (turn, contextForTeacher)
        end
    | Some lastTurnInState =>
        let windowSize := CONTEXT_WINDOW_SIZES (contextWindow settings) in
        resolve (lastTurnInState,
                 renderContext turns
                   (slice (slice turnOrder 0 (Some (-1))) (- windowSize) None))
    end in
  let* teacherTurn :=
    addTurnIn uuidv4
      (with_modelName (ms_teacher (modelSettings settings))
         (with_isStreaming true (with_content "..." (with_role teacher emptyObject)))) in
  let* response :=
    await (getTeacherResponse gemini contextForTeacher
             (interpolate (content questionTurn)) (attachments questionTurn) settings) in
  update (updateTurn (interpolate (id teacherTurn))
            (with_isStreaming false
               (with_functionCall (resp_functionCall response)
                  (with_groundingMetadata (resp_groundingMetadata response)
                     (with_content (resp_text response) emptyObject)))));;
  match resp_functionCall response with
  | Some _ =>
      update (setSessionState paused_user_input);;
      update (setIsAgentRunning false)
  | None =>
      let currentTeacherTurns := countTeacherTurns turns turnOrder in
      if isValidationTurn (validatorFrequency settings) currentTeacherTurns then
        let* validatorTurn :=
          addTurnIn uuidv4
            (with_content "Validating..." (with_role validator emptyObject)) in
        let* feedback :=
          await (getValidatorFeedback gemini topic (interpolate (content questionTurn))
                   (resp_text response) settings) in
        update (updateTurn (interpolate (id validatorTurn))
                  (with_modelName (ms_validator (modelSettings settings))
                     (with_feedback feedback (with_content "" emptyObject))))
      else resolve tt
  end.

Definition runAgentTurn (uuidv4 : nat → string) (gemini : Gemini)
    (settings : AppSettings) (topic : string) (st : AppState) : AppState :=
  if isAgentRunning st then st
  else
    let captured := st in
    let st := setIsAgentRunning true st in
    let teacherTurnsCount := countTeacherTurns (turns captured) (turnOrder captured) in
    if maxTurns settings <=? teacherTurnsCount then
      setIsAgentRunning false (setSessionState finished st)
    else
      let st :=
        match agentExchange uuidv4 gemini settings topic captured st with
        | (inr _, st) => st
        | (inl e, st) => setSessionState paused_user_input (setError (Some (errorMessage e)) st)
        end in
      setIsAgentRunning false st.

Definition isRunningAuto (s : SessionState) : bool :=
  match s with running_auto => true | _ => false end.

(** What the loop of the central effect reads besides the state: the
    [isCancelled] flag of the effect it belongs to (line 503) and
    [sessionStateRef] (lines 81-82). *)
Record LoopRefs := {
  isCancelled : bool;
  sessionStateRef : SessionState;
}.

(** What a render of the state [st] does to them.  The effect of the loop
    was created with the session in [running_auto] and has [sessionState]
    among its dependencies: once a render shows another session state it
    is cleaned up, which raises [isCancelled]; the effect of line 82 then
    stores the rendered state in the ref. *)
Definition rendered (st : AppState) (refs : LoopRefs) : LoopRefs :=
  {| isCancelled := (isCancelled refs || negb (isRunningAuto (sessionState st)))%bool;
     sessionStateRef := sessionState st |}.

(** [agentLoop] of the central effect (lines 505-522), one call of
    [runAgentTurn] per round, each on the state the previous round has left
    ([runAgentTurnRef] holds the callback of the last render).  What
    [runAgentTurn] has queued is not rendered when the loop goes on after
    the [await]: neither has the effect been cleaned up nor has the ref
    been refreshed, so that the tests of lines 509-518 read the refs as
    they were before the round.  A next round is started by a timer
    ([autoModeDelay] seconds, two by default); the state is rendered before
    it fires.  Nothing else writes the state while the loop runs, and the
    settings do not change.  [None]: the fuel is spent. *)
Fixpoint agentLoop (fuel : nat) (uuidv4 : nat → string) (gemini : nat → Gemini)
    (settings : AppSettings) (topic : string) (round : nat) (refs : LoopRefs)
    (st : AppState) : option AppState :=
  match fuel with
  | O => None
  | S fuel =>
      let st := runAgentTurn uuidv4 (gemini round) settings topic st in
      if isCancelled refs then Some st
      else if (isRunningAuto (sessionStateRef refs) && autoContinueAgent settings)%bool
      then agentLoop fuel uuidv4 gemini settings topic (S round) (rendered st refs) st
      else if isRunningAuto (sessionStateRef refs)
           then Some (setSessionState paused_user_input st)
           else Some st
  end.

(** The central effect (lines 499-531), run after a render of [st] that
    has changed the session state or the interaction mode; the effect of
    line 82 has stored the session state in the ref before. *)
Definition agentLoopEffect (fuel : nat) (uuidv4 : nat → string) (gemini : nat → Gemini)
    (settings : AppSettings) (topic : string) (st : AppState) : option AppState :=
  match interactionMode settings with
  | direct => Some st
  | agent =>
      if isRunningAuto (sessionState st)
      then agentLoop fuel uuidv4 gemini settings topic 0
             {| isCancelled := false; sessionStateRef := sessionState st |} st
      else Some st
  end.

(* ===================================================================== *)
(** * 7. User actions (src/App.tsx, lines 535-585)                        *)
(* ===================================================================== *)

Definition handleSend (uuidv4 : nat → string) (gemini : Gemini) (settings : AppSettings)
    (message : option string) (attachments : list Attachment) (st : AppState)
    : AppState :=
  let captured := st in
  let (_, st) := addTurn uuidv4
                   (with_attachments attachments
                      (with_content_read message (with_role user emptyObject))) st in
  let st := setSessionState running_auto st in
  match interactionMode settings with
  | direct =>
      let generator :=
        getDirectChatResponseStream gemini (getContextString settings captured)
          message attachments settings in
      let st :=
        match createTurnFromStream uuidv4
                (with_modelName (ms_directChat (modelSettings settings))
                   (with_role teacher emptyObject))
                generator st with
        | (inr _, st) => st
        | (inl e, st) =>
            (* [responseTurnId] is still [null] when the await rejects *)
            setError (Some (errorMessage e)) st
        end in
      setSessionState paused_user_input st
  | agent => st
  end.

(** [array.findIndex(x => x === v)], [-1] when there is none. *)
Fixpoint findIndex (v : string) (l : list string) : Z :=
  match l with
  | [] => -1
  | x :: rest =>
      if String.eqb x v then 0
      else let i := findIndex v rest in if i <? 0 then -1 else i + 1
  end.

Definition isUser (r : option TurnRole) : bool :=
  match r with Some user => true | _ => false end.

Definition handleResend (turnId : string) (st : AppState) : AppState :=
  let turns := turns st in
  let turnOrder := turnOrder st in
  match turns !! turnId with
  | None => st
  | Some turnToResend =>
      if negb (isUser (role turnToResend)) then st
      else
        let turnIndex := findIndex turnId turnOrder in
        if turnIndex =? -1 then st
        else
          let newTurnOrder := slice turnOrder 0 (Some turnIndex) in
          let newTurns :=
            foldl (fun acc id => match turns !! id with
                                 | Some t => <[id := t]> acc
                                 | None => acc
                                 end) ∅ newTurnOrder in
          let st := setTurnOrder (fun _ => newTurnOrder) st in
          let st := setTurns (fun _ => newTurns) st in
          setResendPayload
            (Some (content turnToResend, default [] (attachments turnToResend))) st
  end.

(** The effect that sends once [handleResend] has set the payload. *)
Definition resendEffect (uuidv4 : nat → string) (gemini : Gemini)
    (settings : AppSettings) (st : AppState) : AppState :=
  match resendPayload st with
  | Some (content, attachments) =>
      setResendPayload None (handleSend uuidv4 gemini settings content attachments st)
  | None => st
  end.

(* ===================================================================== *)
(** * 7b. Further user actions (src/App.tsx, lines 587-654)               *)
(* ===================================================================== *)

(** The setters of the properties that only these actions write.  A
    property that is assigned [null], an empty array or [undefined]
    explicitly is present in the object; the payload is kept as the text of
    the value (["null"], ["[]"], ["undefined"]). *)
Definition with_isRephrased (v : bool) (o : Turn) : Turn :=
  {| id := id o; role := role o; content := content o; modelName := modelName o;
     isStreaming := isStreaming o; feedback := feedback o;
     groundingMetadata := groundingMetadata o; functionCall := functionCall o;
     isRephrased := Some v; discussionTurns := discussionTurns o;
     attachments := attachments o; generatedImages := generatedImages o |}.

Definition with_generatedImages (v : Json) (o : Turn) : Turn :=
  {| id := id o; role := role o; content := content o; modelName := modelName o;
     isStreaming := isStreaming o; feedback := feedback o;
     groundingMetadata := groundingMetadata o; functionCall := functionCall o;
     isRephrased := isRephrased o; discussionTurns := discussionTurns o;
     attachments := attachments o; generatedImages := Some v |}.

(** [throw new TypeError(m)]: a [TypeError] is an [Error]. *)
Definition TypeError (message : string) : Thrown := ErrorObject PlainError message.

(** [array[i]] for an integer index: [undefined] outside the array. *)
Definition elementAt {A} (l : list A) (i : Z) : option A :=
  if i <? 0 then None else l !! Z.to_nat i.

(** [['student', 'user'].includes(r)] *)
Definition asksAQuestion (r : option TurnRole) : bool :=
  match r with
  | Some student | Some user => true
  | _ => false
  end.

(** [settings.interactionMode === 'direct' ? directChat : teacher] *)
Definition modelForTeacher (settings : AppSettings) : string :=
  match interactionMode settings with
  | direct => ms_directChat (modelSettings settings)
  | agent => ms_teacher (modelSettings settings)
  end.

(** [{ ...settings, modelSettings: { ...settings.modelSettings, teacher: m } }] *)
Definition settingsForRegen (settings : AppSettings) : AppSettings :=
  {| interactionMode := interactionMode settings;
     contextWindow := contextWindow settings;
     maxTurns := maxTurns settings;
     autoContinueAgent := autoContinueAgent settings;
     validatorFrequency := validatorFrequency settings;
     modelSettings :=
       {| ms_student := ms_student (modelSettings settings);
          ms_teacher := modelForTeacher settings;
          ms_validator := ms_validator (modelSettings settings);
          ms_directChat := ms_directChat (modelSettings settings) |} |}.

(** [ids.map(id => turns[id]).map(t => `[${t.role}]\n${t.content}`).join('\n\n')]
    without the [filter(Boolean)] of [getContextString]: reading [role] of
    a missing turn throws.  [typeErrorMessage p] is the message the engine
    gives to the [TypeError] for reading property [p] of [undefined]. *)
Definition renderAll (typeErrorMessage : string → string) (turns : gmap string Turn)
    (ids : list string) : Thrown + string :=
  match mapM (fun id => turns !! id) ids with
  | Some ts => inr (String.concat (LF +:+ LF) (renderTurn <$> ts))
  | None => inl (TypeError (typeErrorMessage "role"))
  end.

(** The [try] block of [handleRegenerate]. *)
Definition regenerate (typeErrorMessage : string → string) (gemini : Gemini)
    (settings : AppSettings) (captured : AppState) (turnId : string) (turnIndex : Z)
    (originalTurn prevTurn : Turn) : Async unit :=
  let* context :=
    await (renderAll typeErrorMessage (turns captured)
             (slice (turnOrder captured) 0 (Some (turnIndex - 1)))) in
  let modelForTeacher := modelForTeacher settings in
  let* response :=
    await (getTeacherResponse gemini context (interpolate (content prevTurn))
             (attachments originalTurn) (settingsForRegen settings)) in
  update (updateTurn turnId
            (with_modelName modelForTeacher
               (with_isStreaming false
                  (with_functionCall (resp_functionCall response)
                     (with_groundingMetadata
                        (Some (interpolate (resp_groundingMetadata response)))
                        (with_content (resp_text response) emptyObject)))))).

(** The handler on its own.  That is the program in direct mode, where the
    central effect returns at once; in agent mode the [running_auto] it
    sets starts the agent loop, whose agent turn writes the store while the
    handler awaits. *)
Definition handleRegenerate (typeErrorMessage : string → string) (gemini : Gemini)
    (settings : AppSettings) (turnId : string) : Async unit :=
  fun st =>
    let captured := st in
    let turnIndex := findIndex turnId (turnOrder captured) in
    if turnIndex =? -1 then (inr tt, st)
    else
      let originalTurn := turns captured !! turnId in
      let prevTurnId := elementAt (turnOrder captured) (turnIndex - 1) in
      let prevTurn :=
        match prevTurnId with
        | Some prevTurnId => if truthy prevTurnId then turns captured !! prevTurnId else None
        | None => None
        end in
      match originalTurn with
      | None => (inl (TypeError (typeErrorMessage "role")), st)
      | Some originalTurn =>
          match prevTurn with
          | Some prevTurn =>
              if (negb (isTeacher (Some originalTurn))
                  || negb (asksAQuestion (role prevTurn)))%bool
              then (inr tt, st)
              else
                let st := setSessionState running_auto st in
                let st :=
                  updateTurn turnId
                    (with_functionCall None
                       (with_groundingMetadata (Some "null")
                          (with_generatedImages "[]"
                             (with_isRephrased false
                                (with_isStreaming true (with_content "" emptyObject))))))
                    st in
                let st :=
                  match regenerate typeErrorMessage gemini settings captured turnId
                          turnIndex originalTurn prevTurn st with
                  | (inr _, st) => st
                  | (inl e, st) =>
                      let st := setError (Some (errorMessage e)) st in
                      updateTurn turnId
                        (with_isStreaming false
                           (with_content "Error regenerating response." emptyObject)) st
                  end in
                (inr tt, setSessionState paused_user_input st)
          | None => (inr tt, st)
          end
      end.

Inductive RephraseStyle := ELI5 | Analogy | Detailed.

(** What [handleRephrase] takes from outside the modelled settings and
    service: the rephrase model and the stream of the rephrased answer. *)
Record Rephraser := {
  rephraseModel : string;
  getRephrasedResponseStream : string → string → RephraseStyle → AppSettings → Stream;
}.

(** Reading [content] of a turn that may be missing. *)
Definition contentOf (typeErrorMessage : string → string) (t : option Turn)
    : Thrown + string :=
  match t with
  | Some t => inr (interpolate (content t))
  | None => inl (TypeError (typeErrorMessage "content"))
  end.

(** The handler on its own, as for [handleRegenerate]: the program in
    direct mode. *)
Definition handleRephrase (typeErrorMessage : string → string) (uuidv4 : nat → string)
    (rephraser : Rephraser) (settings : AppSettings) (turnId : string)
    (style : RephraseStyle) (st : AppState) : AppState :=
  let captured := st in
  let turnIndex := findIndex turnId (turnOrder captured) in
  if turnIndex <? 1 then st
  else
    let originalTurn := turns captured !! turnId in
    let questionTurnId := elementAt (turnOrder captured) (turnIndex - 1) in
    let questionTurn := questionTurnId ≫= (fun id => turns captured !! id) in
    let st := setSessionState running_auto st in
    let st :=
      match (let* question := await (contentOf typeErrorMessage questionTurn) in
             let* answer := await (contentOf typeErrorMessage originalTurn) in
             let generator :=
               getRephrasedResponseStream rephraser question answer style settings in
             createTurnFromStream uuidv4
               (with_modelName (rephraseModel rephraser)
                  (with_isRephrased true (with_role teacher emptyObject)))
               generator) st with
      | (inr _, st) => st
      | (inl e, st) =>
          (* [rephraseTurnId] is still [null] when the await rejects *)
          setError (Some (errorMessage e)) st
      end in
    setSessionState paused_user_input st.

(** [{ ...s, autoContinueAgent: b }] *)
Definition withAutoContinueAgent (b : bool) (s : AppSettings) : AppSettings :=
  {| interactionMode := interactionMode s; contextWindow := contextWindow s;
     maxTurns := maxTurns s; autoContinueAgent := b;
     validatorFrequency := validatorFrequency s; modelSettings := modelSettings s |}.

(** The settings are a [useState] cell too; this action writes it. *)
Definition handleAutoContinueToggle (settings : AppSettings) (st : AppState)
    : AppSettings * AppState :=
  let willBeRunning := negb (autoContinueAgent settings) in
  let settings' := withAutoContinueAgent willBeRunning settings in
  match willBeRunning, sessionState st with
  | true, paused_user_input => (settings', setSessionState running_auto st)
  | false, running_auto => (settings', setSessionState paused_user_input st)
  | _, _ => (settings', st)
  end.

(* ===================================================================== *)
(** * 7c. Session lifecycle (src/App.tsx, lines 232-413)                  *)
(* ===================================================================== *)

(** The cells for the active session, the topic, the quiz, the settings
    and the list of sessions are written by these callbacks and read by
    none of the modelled ones; they are left out of the state. *)

(** The double quote of the template literals. *)
Definition DQUOTE : string := String (ascii_of_nat 34) EmptyString.

(** A stored session's [turns]: the record of the current format, the
    array of the old one ([null] elements included), or nothing. *)
Inductive StoredTurns :=
| TurnsRecord (record : gmap string Turn)
| TurnsArray (array : list (option Turn))
| TurnsMissing.

Record SessionData := {
  sd_id : string;
  sd_topic : string;
  sd_turns : StoredTurns;
  sd_turnOrder : option (list string);
}.

(** [turn && turn.id] *)
Definition hasId (turn : option Turn) : option (string * Turn) :=
  match turn with
  | Some turn =>
      match id turn with
      | Some i => if truthy i then Some (i, turn) else None
      | None => None
      end
  | None => None
  end.

(** [oldTurns.reduce((acc, turn) => { if (turn && turn.id) acc[turn.id] = turn; return acc; }, {})] *)
Definition migrateTurns (oldTurns : list (option Turn)) : gmap string Turn :=
  foldl (fun acc turn => match hasId turn with
                         | Some (i, turn) => <[i := turn]> acc
                         | None => acc
                         end) ∅ oldTurns.

(** [oldTurns.map(turn => turn.id).filter(Boolean)]: reading [id] of a
    [null] element throws. *)
Definition migrateOrder (typeErrorMessage : string → string)
    (oldTurns : list (option Turn)) : Thrown + list string :=
  match mapM (fun turn : option Turn => turn) oldTurns with
  | Some present =>
      inr (omap (fun turn : Turn => match id turn with
                                    | Some i => if truthy i then Some i else None
                                    | None => None
                                    end) present)
  | None => inl (TypeError (typeErrorMessage "id"))
  end.

(** [loadSession]: it throws before it has set anything, or it sets the
    turns, the order and the session state. *)
Definition loadSession (typeErrorMessage : string → string) (sessionData : SessionData)
    (st : AppState) : Thrown + AppState :=
  let dataToLoad :=
    match sd_turns sessionData with
    | TurnsArray oldTurns =>
        match migrateOrder typeErrorMessage oldTurns with
        | inr order => inr (Some (migrateTurns oldTurns), Some order)
        | inl e => inl e
        end
    | TurnsRecord record => inr (Some record, sd_turnOrder sessionData)
    | TurnsMissing => inr (None, sd_turnOrder sessionData)
    end in
  match dataToLoad with
  | inl e => inl e
  | inr (loadedTurns, loadedOrder) =>
      let st := setTurns (fun _ => default ∅ loadedTurns) st in
      let st := setTurnOrder (fun _ => default [] loadedOrder) st in
      inr (setSessionState
             (match loadedOrder with
              | Some (_ :: _) => paused_user_input
              | _ => idle
              end) st)
  end.

(** What the storage service answers to the two writes of
    [createNewSession]: [None] when the write goes through, the error it
    throws otherwise. *)
Record Storage := {
  saveSession : option Thrown;
  saveSettings : option Thrown;
}.

(** [createNewSession] hands back the new session, of which the id is
    kept. *)
Definition createNewSession (uuidv4 : nat → string) (storage : Storage) : Async string :=
  fun st =>
    let (newSessionId, st) := drawUuid uuidv4 st in
    match saveSession storage with
    | Some e => (inl e, st)
    | None =>
        match saveSettings storage with
        | Some e => (inl e, st)
        | None => (inr newSessionId, st)
        end
    end.

(** What [handleStartSession] takes from outside the modelled settings
    and service: the configured keys, the starter model and the call that
    refines the topic into a question. *)
Record Starter := {
  apiKeys : list string;
  starterModel : string;
  getStarterQuestion : string → AppSettings → Thrown + string;
}.

(** [try { ... } finally { setSessionState('paused_user_input') }] *)
Definition finallyPaused {A} (m : Async A) : Async A :=
  fun st => let (r, st) := m st in (r, setSessionState paused_user_input st).

Definition handleStartSession (uuidv4 : nat → string) (gemini : Gemini)
    (refiner : Starter) (storage : Storage) (settings : AppSettings)
    (startTopic : string) (st : AppState) : AppState :=
  if negb (existsb (fun k => truthy (trim k)) (apiKeys refiner)) then
    setError (Some "Cannot start session. Please configure a Gemini API key in Settings.") st
  else
    let st := setSessionState starting st in
    match (let* newSession := createNewSession uuidv4 storage in
           match interactionMode settings with
           | direct =>
               let* firstTurn :=
                 (fun st => let (uuid, st) := drawUuid uuidv4 st in
                            (inr (with_id uuid
                                    (with_attachments []
                                       (with_content startTopic
                                          (with_role user emptyObject)))), st)) in
               update (setTurns (fun _ => {[interpolate (id firstTurn) := firstTurn]}));;
               update (setTurnOrder (fun _ => [interpolate (id firstTurn)]));;
               update (setSessionState running_auto);;
               finallyPaused
                 (let generator :=
                    getDirectChatResponseStream gemini "" (Some startTopic) [] settings in
                  let* _ :=
                    createTurnFromStream uuidv4
                      (with_modelName (ms_directChat (modelSettings settings))
                         (with_role teacher emptyObject))
                      generator in
                  resolve tt)
           | agent =>
               update (setTurns (fun _ => ∅));;
               update (setTurnOrder (fun _ => []));;
               let* starterTurn :=
                 addTurnIn uuidv4
                   (with_content ("Refining topic: " +:+ DQUOTE +:+ startTopic
                                  +:+ DQUOTE +:+ "...")
                      (with_role starter emptyObject)) in
               let* question := await (getStarterQuestion refiner startTopic settings) in
               update (updateTurn (interpolate (id starterTurn))
                         (with_modelName (starterModel refiner)
                            (with_content question emptyObject)));;
               update (setSessionState running_auto)
           end) st with
    | (inr _, st) => st
    | (inl e, st) => setSessionState idle (setError (Some (errorMessage e)) st)
    end.

(* ===================================================================== *)
(** * 7d. The discussion of a turn (src/App.tsx, lines 762-814)           *)
(* ===================================================================== *)

Module Discussion.
(** [{ contextTurn: Turn, turns: Turn[] }] *)
Record Context := { contextTurn : Turn; turns : list Turn }.
End Discussion.

(** The application state next to the [discussionContext] cell. *)
Record DiscussionState := {
  appState : AppState;
  discussionContext : option Discussion.Context;
}.

(** [prev => ({ ...prev!, turns: f(prev!.turns) })] on a context that is
    there. *)
Definition setDiscussionTurns (f : list Turn → list Turn)
    (prev : Discussion.Context) : Discussion.Context :=
  {| Discussion.contextTurn := Discussion.contextTurn prev;
     Discussion.turns := f (Discussion.turns prev) |}.

(** [t.id === aiTurnId] *)
Definition hasTheId (aiTurnId : string) (t : Turn) : bool :=
  match id t with Some i => String.eqb i aiTurnId | None => false end.

(** [!aiTurnId] *)
Definition noTurnYet (aiTurnId : option string) : bool :=
  match aiTurnId with Some i => negb (truthy i) | None => true end.

(** [!t.isStreaming] *)
Definition notStreaming (t : Turn) : bool :=
  match isStreaming t with Some true => false | _ => true end.

(** The [for await] loop of [handleSendDiscussionMessage]. *)
Fixpoint discussionChunks (uuidv4 : nat → string) (settings : AppSettings)
    (rest : list string) (aiTurnId : option string) (fullContent : string)
    (st : AppState) (prev : Discussion.Context)
    : option string * AppState * Discussion.Context :=
  match rest with
  | [] => (aiTurnId, st, prev)
  | chunk :: rest =>
      let fullContent := fullContent +:+ chunk in
      if noTurnYet aiTurnId then
        let (uuid, st) := drawUuid uuidv4 st in
        let newAiTurn :=
          with_modelName (ms_directChat (modelSettings settings))
            (with_isStreaming true
               (with_content fullContent (with_role teacher (with_id uuid emptyObject)))) in
        let aiTurnId := id newAiTurn in
        discussionChunks uuidv4 settings rest aiTurnId fullContent st
          (setDiscussionTurns (fun turns => turns ++ [newAiTurn]) prev)
      else
        discussionChunks uuidv4 settings rest aiTurnId fullContent st
          (setDiscussionTurns
             (fun turns =>
                (fun t => if hasTheId (interpolate aiTurnId) t
                          then spread t (with_content fullContent emptyObject) else t)
                <$> turns) prev)
  end.

(** While the callback runs nothing else writes the cell: [prev] is the
    context it has captured, followed by its own updates.  The service
    takes an absent list of attachments for an empty one. *)
Definition handleSendDiscussionMessage (uuidv4 : nat → string) (gemini : Gemini)
    (settings : AppSettings) (prompt : string) (ds : DiscussionState) : DiscussionState :=
  match discussionContext ds with
  | None => ds
  | Some captured =>
      let (uuid, st) := drawUuid uuidv4 (appState ds) in
      let userTurn := with_content prompt (with_role user (with_id uuid emptyObject)) in
      let turnsWithUserMessage := Discussion.turns captured ++ [userTurn] in
      let prev := setDiscussionTurns (fun _ => turnsWithUserMessage) captured in
      let context :=
        "Original message: " +:+ DQUOTE
        +:+ interpolate (content (Discussion.contextTurn captured)) +:+ DQUOTE
        +:+ LF +:+ LF
        +:+ String.concat (LF +:+ LF) (renderTurn <$> turnsWithUserMessage) in
      let generator :=
        getDirectChatResponseStream gemini context (Some prompt) [] settings in
      let '(aiTurnId, st, prev) :=
        discussionChunks uuidv4 settings (chunks generator) None "" st prev in
      match failure generator with
      | None =>
          {| appState := st;
             discussionContext :=
               Some (if noTurnYet aiTurnId then prev
                     else setDiscussionTurns
                            (fun turns =>
                               (fun t => if hasTheId (interpolate aiTurnId) t
                                         then spread t (with_isStreaming false emptyObject)
                                         else t) <$> turns) prev) |}
      | Some e =>
          {| appState := setError (Some (errorMessage e)) st;
             discussionContext :=
               Some (setDiscussionTurns (fun turns => List.filter notStreaming turns) prev) |}
      end
  end.

(* ===================================================================== *)
(** * 7e. The Gemini service: requests and dynamic topics
      (src/unnamed/part_000, lines 83-85, 98-125, 173-194, 207-238,
      263-268 and 491-550)                                                *)
(* ===================================================================== *)

(** [String.prototype.toLowerCase] on the code units below 256: the
    letters A to Z and the Latin-1 capitals (192 to 222, the multiplication
    sign 215 apart) move up by 32. *)
Definition toLowerCaseUnit (c : ascii) : ascii :=
  let n := nat_of_ascii c in
  if ((Nat.leb 65 n && Nat.leb n 90)
      || (Nat.leb 192 n && Nat.leb n 222 && negb (Nat.eqb n 215)))%bool
  then ascii_of_nat (n + 32) else c.

Fixpoint toLowerCase (s : string) : string :=
  match s with
  | EmptyString => EmptyString
  | String c rest => String (toLowerCaseUnit c) (toLowerCase rest)
  end.

(** [s.includes(sub)] *)
Fixpoint includes (s sub : string) : bool :=
  (startsWith s sub
   || match s with
      | EmptyString => false
      | String _ rest => includes rest sub
      end)%bool.

(** [`"${s}"`] *)
Definition quoted (s : string) : string := DQUOTE +:+ s +:+ DQUOTE.

Module Service.

(** The fields of [AppSettings] that the modelled part of the service
    reads. *)
Record Settings := {
  apiKeys : list string;
  apiKeyStatuses : list ApiKeyStatus;
  learningLevel : string;
  useGoogleSearch : bool;
  enableInteractiveWidgets : bool;
  teacherModel : string;
  directChatModel : string;
  dynamicTopicsModel : string;
}.

(** [{ text }] and [{ inlineData: { mimeType, data } }] *)
Inductive Part :=
| TextPart (content : string)
| InlineData (type : string) (payload : string).

(** What goes into [contents]: a string, or [{ parts }]. *)
Inductive Contents :=
| Plain (prompt : string)
| Multimodal (parts : list Part).

Inductive Tool := googleSearch | functionDeclarations (declarations : list string).

Record Config := {
  systemInstruction : option string;
  tools : option (list Tool);
}.

(** The argument of [ai.models.generateContent] and of
    [ai.models.generateContentStream]. *)
Record Request := {
  model : string;
  contents : Contents;
  config : Config;
}.

Definition isGemmaModel (modelName : string) : bool :=
  startsWith (toLowerCase modelName) "gemma-".

(** [parts[0].text]; element 0 is there, the array starts with the
    prompt. *)
Definition firstText (parts : list Part) : option string :=
  match parts with
  | TextPart content :: _ => Some content
  | _ => None
  end.

(** The callback of [attachments.forEach]. *)
Definition addAttachment (parts : list Part) (att : Attachment) : list Part :=
  match att_type att with
  | image => parts ++ [InlineData (mimeType att) (data att)]
  | text =>
      let currentText := firstText parts in
      let newText :=
        interpolate currentText +:+ LF +:+ LF +:+ "--- Attached File: " +:+ att_name att
        +:+ " ---" +:+ LF +:+ data att in
      <[0%nat := TextPart newText]> parts
  end.

Definition buildMultimodalContent (prompt : string)
    (attachments : option (list Attachment)) : Contents :=
  match attachments with
  | None | Some [] => Plain prompt
  | Some attachments => Multimodal (foldl addAttachment [TextPart prompt] attachments)
  end.

(** [`${systemInstruction}\n\n---\n\n${prompt}`] *)
Definition gemmaFormatting (systemInstruction prompt : string) : string :=
  systemInstruction +:+ LF +:+ LF +:+ "---" +:+ LF +:+ LF +:+ prompt.

(** The request [generateStream] sends (lines 174-194). *)
Definition generateStream_request (prompt : Contents) (systemInstruction model : string)
    : Request :=
  let useGemmaFormatting := isGemmaModel model in
  let finalContents :=
    match prompt with
    | Plain prompt =>
        Plain (if useGemmaFormatting then gemmaFormatting systemInstruction prompt
               else prompt)
    | Multimodal parts =>
        Multimodal (if useGemmaFormatting
                    then TextPart (gemmaFormatting systemInstruction "") :: parts
                    else parts)
    end in
  {| model := model;
     contents := finalContents;
     config := {| systemInstruction :=
                    if useGemmaFormatting then None else Some systemInstruction;
                  tools := None |} |}.

(** The request behind [getDirectChatResponseStream]; [instruction] is what
    [buildInstruction] has made of the direct chat instruction. *)
Definition getDirectChatResponseStream_request (instruction : string)
    (context userPrompt : string) (attachments : option (list Attachment))
    (settings : Settings) : Request :=
  let fullPrompt :=
    if truthy context then context +:+ LF +:+ LF +:+ "user: " +:+ userPrompt
    else "user: " +:+ userPrompt in
  let contents := buildMultimodalContent fullPrompt attachments in
  generateStream_request contents instruction (directChatModel settings).

(** The request [getTeacherResponse] sends (lines 210-238); [instruction]
    is what [getTeacherSystemInstruction] gives. *)
Definition getTeacherResponse_request (instruction : string)
    (context question : string) (attachments : option (list Attachment))
    (settings : Settings) : Request :=
  let isInitialTurn := negb (truthy (trim context)) in
  let prompt :=
    if isInitialTurn then
      "The lesson begins with this guiding question: " +:+ quoted question
      +:+ ". Your task is to provide a comprehensive and direct answer to this question to start the lesson. Frame your response as a direct answer."
    else context +:+ LF +:+ LF +:+ "Student asks: '" +:+ question +:+ "'. Explain clearly." in
  let model := teacherModel settings in
  let useGemmaFormatting := isGemmaModel model in
  let contentsWithAttachments := buildMultimodalContent prompt attachments in
  let finalContents :=
    match contentsWithAttachments with
    | Plain contentsWithAttachments =>
        Plain (if useGemmaFormatting
               then gemmaFormatting instruction contentsWithAttachments
               else contentsWithAttachments)
    | Multimodal _ => contentsWithAttachments
    end in
  {| model := model;
     contents := finalContents;
     config := {| systemInstruction :=
                    if useGemmaFormatting then None else Some instruction;
                  tools :=
                    if useGoogleSearch settings then Some [googleSearch]
                    else if enableInteractiveWidgets settings
                         then Some [functionDeclarations
                                      ["create_multiple_choice_question"]]
                         else None |} |}.

(** [s.replace(/^```json\n?/, '')] and [s.replace(/```$/, '')] *)
Definition stripOpeningFence (s : string) : string :=
  if startsWith s "```json" then
    let rest := sliceString s 7 None in
    if startsWith rest LF then sliceString rest 1 None else rest
  else s.

Definition stripClosingFence (s : string) : string :=
  if startsWith (sliceString s (-3) None) "```" then sliceString s 0 (Some (-3)) else s.

(** What [getDynamicTopics] resolves with: one of its two fallback
    objects, key by key, or whatever [JSON.parse] has made of the answer. *)
Inductive Topics (J : Type) :=
| Fallback (topics : list (string * list string))
| Parsed (value : J).
Arguments Fallback {J} topics.
Arguments Parsed {J} value.

Definition isExhausted (status : ApiKeyStatus) : bool :=
  match status with exhausted => true | valid => false end.

(** [apiKeys.some((key, index) =>
      key && key.trim() && (apiKeyStatuses[index] || 'valid') !== 'exhausted')] *)
Definition hasValidKey (settings : Settings) : bool :=
  existsb (fun k : string * nat =>
             (truthy k.1 && truthy (trim k.1)
              && negb (isExhausted (default valid (apiKeyStatuses settings !! k.2))))%bool)
          (imap (fun index key => (key, index)) (apiKeys settings)).

Definition fallbackTopics (isNeet : bool) : list (string * list string) :=
  if isNeet then
    [("Physics", ["Electrostatics"; "Optics"; "Modern Physics"; "Thermodynamics"]);
     ("Chemistry", ["Organic Chemistry"; "Chemical Bonding"; "p-Block Elements";
                    "Equilibrium"]);
     ("Biology", ["Human Physiology"; "Genetics"; "Ecology"; "Biotechnology"])]
  else
    [("Recommended Topics", ["The Krebs Cycle"; "Quantum Entanglement"; "Photosynthesis";
                             "The French Revolution"])].

Definition dynamicTopicsPrompt (isNeet : bool) (settings : Settings) : string :=
  if isNeet then
    "Based on the latest information from Google Search, identify 4 trending and important topics for the NEET entrance exam in each of the following subjects: Physics, Chemistry, and Biology. Please respond ONLY with a single, raw JSON object in the format: {"
    +:+ quoted "Physics"
    +:+ ": ["
    +:+ quoted "topic1"
    +:+ ", "
    +:+ quoted "topic2"
    +:+ ", "
    +:+ quoted "topic3"
    +:+ ", "
    +:+ quoted "topic4"
    +:+ "], "
    +:+ quoted "Chemistry"
    +:+ ": ["
    +:+ quoted "topic1"
    +:+ ", "
    +:+ quoted "topic2"
    +:+ ", "
    +:+ quoted "topic3"
    +:+ ", "
    +:+ quoted "topic4"
    +:+ "], "
    +:+ quoted "Biology"
    +:+ ": ["
    +:+ quoted "topic1"
    +:+ ", "
    +:+ quoted "topic2"
    +:+ ", "
    +:+ quoted "topic3"
    +:+ ", "
    +:+ quoted "topic4"
    +:+ "]}"
  else
    "Based on the latest information from Google Search, identify 5 trending and important topics or concepts for someone who is a '"
    +:+ learningLevel settings
    +:+ "'. Please respond ONLY with a single, raw JSON object in the format: {"
    +:+ quoted "Recommended Topics"
    +:+ ": ["
    +:+ quoted "topic1"
    +:+ ", "
    +:+ quoted "topic2"
    +:+ ", "
    +:+ quoted "topic3"
    +:+ ", "
    +:+ quoted "topic4"
    +:+ ", "
    +:+ quoted "topic5"
    +:+ "]}".

(** [generateContent] is the remote call, run with a client bound to a
    key; it answers with the text of the response, if there is one.
    [JSON_parse] is [None] where [JSON.parse] throws.  The console lines of
    [getDynamicTopics] itself are not kept in the trace. *)
Definition getDynamicTopics {W J : Type}
    (generateContent : Request → string → W → (Thrown + option string) * W)
    (JSON_parse : string → option J) (settings : Settings) (w : W)
    : (Thrown + Topics J) * W * list GatewayEvent :=
  let isNeet := includes (toLowerCase (learningLevel settings)) "neet" in
  let fallbackTopics := fallbackTopics isNeet in
  if negb (hasValidKey settings) then (inr (Fallback fallbackTopics), w, [])
  else
    let prompt := dynamicTopicsPrompt isNeet settings in
    let instruction := "You are an assistant that finds relevant learning topics. You MUST use the provided Google Search tool. You MUST respond only with the raw JSON object requested, nothing else." in
    let model := dynamicTopicsModel settings in
    let useGemmaFormatting := isGemmaModel model in
    let contents :=
      if useGemmaFormatting then gemmaFormatting instruction prompt else prompt in
    let config :=
      {| systemInstruction := if useGemmaFormatting then None else Some instruction;
         tools := Some [googleSearch] |} in
    match withApiKeyRotation (apiKeys settings) (Some (apiKeyStatuses settings))
            (generateContent {| model := model; contents := Plain contents;
                                config := config |}) w with
    | (inr response, w, trace) =>
        match response with
        | Some responseText =>
            if truthy responseText then
              let cleanedText :=
                stripClosingFence (stripOpeningFence (trim responseText)) in
              match JSON_parse cleanedText with
              | Some value => (inr (Parsed value), w, trace)
              | None => (inr (Fallback fallbackTopics), w, trace)
              end
            else (inr (Fallback fallbackTopics), w, trace)
        | None => (inr (Fallback fallbackTopics), w, trace)
        end
    | (inl e, w, trace) =>
        match e with
        | ErrorObject ApiKeyErrorClass _ => (inl e, w, trace)
        | _ => (inr (Fallback fallbackTopics), w, trace)
        end
    end.

End Service.

(* ===================================================================== *)
(** * 8. Vocabulary of the statements                                     *)
(* ===================================================================== *)

(** The candidates of a list of keys whose first index is [offset]. *)
Definition candidatesFrom (offset : nat) (apiKeys : list string) : list (string * nat) :=
  List.filter (fun k => (truthy k.1 && truthy (trim k.1))%bool)
              (imap (fun index key => (key, (offset + index)%nat)) apiKeys).

(** The locals after the candidates [cs] have all been skipped. *)
Definition skipped (locals : RotationLocals) (cs : list (string * nat)) : RotationLocals :=
  {| lastError := lastError locals;
     lastErrorKeyInfo := lastErrorKeyInfo locals;
     validationErrors := validationErrors locals ++ (skipMessage ∘ snd <$> cs) |}.

(** The context window as the specification words it: the last
    [turnsBack] turns, those without content left out, each rendered as
    [[role]\ncontent] and joined by blank lines. *)
Definition hasContent (t : Turn) : bool :=
  match content t with Some c => truthy c | None => false end.

Definition windowedContext_spec (turnsBack : nat) (st : AppState) : string :=
  let lastTurns := drop (length (turnOrder st) - turnsBack) (turnOrder st) in
  String.concat (LF +:+ LF)
    (renderTurn <$> List.filter hasContent (omap (fun id => turns st !! id) lastTurns)).

(** The validation policy as the specification words it: never when
    disabled, otherwise when the count is a multiple of the period. *)
Definition isDue_spec (answererTurnCount : Z) (f : ValidatorFrequency) : bool :=
  match f with
  | disabled => false
  | every_turn => answererTurnCount mod 1 =? 0
  | every_3_turns => answererTurnCount mod 3 =? 0
  | every_5_turns => answererTurnCount mod 5 =? 0
  end.

(** The cells of the state other than [turns] are the same. *)
Definition sameButTurns (st st' : AppState) : Prop :=
  turnOrder st' = turnOrder st ∧ sessionState st' = sessionState st
  ∧ error st' = error st ∧ resendPayload st' = resendPayload st
  ∧ isAgentRunning st' = isAgentRunning st ∧ uuidCount st' = uuidCount st.

(** No id that [uuidv4] has yet to give out is in the turn order. *)
Definition orderFresh (uuidv4 : nat → string) (st : AppState) : Prop :=
  ∀ n, (uuidCount st ≤ n)%nat → uuidv4 n ∉ turnOrder st.

Definition teacherCount (st : AppState) : Z :=
  countTeacherTurns (turns st) (turnOrder st).

(** What the callbacks keep true between two agent turns: the ref is
    down, the ids to come are new, the session has not finished, and [c]
    turns of the order are teacher turns. *)
Definition agentInv (uuidv4 : nat → string) (c : Z) (st : AppState) : Prop :=
  orderFresh uuidv4 st ∧ teacherCount st = c ∧ sessionState st ≠ finished.

(** A Hoare triple for [Async] code, with one postcondition for the
    resolved and one for the rejected outcome. *)
Definition triple {A} (P : AppState → Prop) (m : Async A)
    (Q : A → AppState → Prop) (R : Thrown → AppState → Prop) : Prop :=
  ∀ st, P st → match m st with
               | (inr a, st') => Q a st'
               | (inl e, st') => R e st'
               end.

(** ** Sample inputs *)

(** An id supply that never repeats. *)
Definition sampleUuid (n : nat) : string := "turn-" +:+ pretty n.

Definition initialState : AppState :=
  {| turns := ∅; turnOrder := []; sessionState := idle; error := None;
     resendPayload := None; isAgentRunning := false; uuidCount := 0 |}.

Definition sampleModels : ModelSettings :=
  {| ms_student := "gemini-2.5-flash"; ms_teacher := "gemini-2.5-flash";
     ms_validator := "gemini-2.5-flash"; ms_directChat := "gemini-2.5-flash" |}.

Definition sampleSettings (f : ValidatorFrequency) (limit : Z) : AppSettings :=
  {| interactionMode := agent; contextWindow := short; maxTurns := limit;
     autoContinueAgent := true; validatorFrequency := f;
     modelSettings := sampleModels |}.

(** A remote model that always answers. *)
Definition sampleGemini : Gemini :=
  {| getStudentResponseStream := fun _ _ =>
       {| chunks := ["Why "; "is that?"]; failure := None |};
     getDirectChatResponseStream := fun _ _ _ _ =>
       {| chunks := ["a"; "b"; "c"]; failure := None |};
     getTeacherResponse := fun _ _ _ _ =>
       inr {| resp_text := "Because."; resp_groundingMetadata := None;
              resp_functionCall := None |};
     getValidatorFeedback := fun _ _ _ _ =>
       inr {| rating := GOOD; feedbackText := "Clear." |} |}.

(** The state [handleStartSession] leaves in agent mode: the starter turn
    with the refined question, and the session in [running_auto]. *)
Definition startedState : AppState :=
  let (starterTurn, st) :=
    addTurn sampleUuid
      (with_content "Refining topic..." (with_role starter emptyObject)) initialState in
  let st := updateTurn (interpolate (id starterTurn))
              (with_modelName "gemini-2.5-flash"
                 (with_content "What is osmosis?" emptyObject)) st in
  setSessionState running_auto st.

(** A direct chat of three turns, [q1], [a1], [q2]. *)
Definition chatState : AppState :=
  let st := (addTurn sampleUuid (with_content "q1" (with_role user emptyObject))
               initialState).2 in
  let st := (addTurn sampleUuid (with_content "a1" (with_role teacher emptyObject)) st).2 in
  (addTurn sampleUuid (with_content "q2" (with_role user emptyObject)) st).2.

(** Six user turns with contents [m1] to [m6]. *)
Definition sixTurns : AppState :=
  foldl (fun st message =>
           (addTurn sampleUuid (with_content message (with_role user emptyObject)) st).2)
        initialState ["m1"; "m2"; "m3"; "m4"; "m5"; "m6"].

Definition validLookingKey : string := "AIzaVALIDLOOKINGKEYXXXXXXXXXXXXXXXX".

(** Request closures over a remote state that counts the requests. *)
Definition acceptingCall (key : string) (w : nat) : (Thrown + string) * nat :=
  (inr ("reply for " +:+ key), S w).

Definition rejectingCall (key : string) (w : nat) : (Thrown + string) * nat :=
  (inl (Error "quota exceeded"), S w).

(** A request closure whose promise rejects with [undefined]. *)
Definition falsyCall (key : string) (w : nat) : (Thrown + string) * nat :=
  (inl (FalsyValue "undefined"), S w).

(** The roles of the turns of a state, in order. *)
Definition rolesInOrder (st : AppState) : list (option TurnRole) :=
  (fun id => turns st !! id ≫= role) <$> turnOrder st.

(** ** Further sample inputs *)

(** A request closure that is rejected with [validLookingKey] only. *)
Definition pickyCall (key : string) (w : nat) : (Thrown + string) * nat :=
  if String.eqb key validLookingKey
  then (inl (Error "quota exceeded"), S w)
  else (inr ("reply for " +:+ key), S w).

Definition anotherValidLookingKey : string := "AIzaANOTHERVALIDLOOKINGKEYYYYYYYYY".

(** ** Further vocabulary *)

(** Every id of the turn order has a turn in the map: the list the
    conversation display is built from has no gap. *)
Definition listed (st : AppState) : Prop :=
  ∀ id, id ∈ turnOrder st → is_Some (turns st !! id).

(** Some element of a stored array of turns is [null]. *)
Definition hasNullElement (oldTurns : list (option Turn)) : bool :=
  existsb (fun turn => match turn with None => true | Some _ => false end) oldTurns.


(** The placeholder [runAgentTurn] adds for the teacher's answer. *)
Definition placeholder (settings : AppSettings) : Turn :=
  with_modelName (ms_teacher (modelSettings settings))
    (with_isStreaming true (with_content "..." (with_role teacher emptyObject))).

(** A service whose teacher call is rejected. *)
Definition failingTeacher : Gemini :=
  {| getStudentResponseStream := getStudentResponseStream sampleGemini;
     getDirectChatResponseStream := getDirectChatResponseStream sampleGemini;
     getTeacherResponse := fun _ _ _ _ => inl (Error "model overloaded");
     getValidatorFeedback := getValidatorFeedback sampleGemini |}.

Definition sampleFunctionCall : FunctionCall :=
  {| fc_name := "create_multiple_choice_question"; args := "{}" |}.

Definition quizResponse : TeacherResponse :=
  {| resp_text := "Try this."; resp_groundingMetadata := None;
     resp_functionCall := Some sampleFunctionCall |}.

(** A service whose teacher answers with a function call. *)
Definition quizzingTeacher : Gemini :=
  {| getStudentResponseStream := getStudentResponseStream sampleGemini;
     getDirectChatResponseStream := getDirectChatResponseStream sampleGemini;
     getTeacherResponse := fun _ _ _ _ => inr quizResponse;
     getValidatorFeedback := getValidatorFeedback sampleGemini |}.

(** A service whose student stream is empty. *)
Definition silentStudent : Gemini :=
  {| getStudentResponseStream := fun _ _ => {| chunks := []; failure := None |};
     getDirectChatResponseStream := getDirectChatResponseStream sampleGemini;
     getTeacherResponse := getTeacherResponse sampleGemini;
     getValidatorFeedback := getValidatorFeedback sampleGemini |}.

(** A service whose direct chat stream breaks after two chunks. *)
Definition brokenChat : Gemini :=
  {| getStudentResponseStream := getStudentResponseStream sampleGemini;
     getDirectChatResponseStream := fun _ _ _ _ =>
       {| chunks := ["a"; "b"]; failure := Some (Error "connection lost") |};
     getTeacherResponse := getTeacherResponse sampleGemini;
     getValidatorFeedback := getValidatorFeedback sampleGemini |}.

Definition directSettings : AppSettings :=
  {| interactionMode := direct; contextWindow := short; maxTurns := 10;
     autoContinueAgent := true; validatorFrequency := every_3_turns;
     modelSettings := sampleModels |}.

(** Agent mode with auto-continue switched off. *)
Definition manualSettings (f : ValidatorFrequency) (limit : Z) : AppSettings :=
  {| interactionMode := agent; contextWindow := short; maxTurns := limit;
     autoContinueAgent := false; validatorFrequency := f;
     modelSettings := sampleModels |}.

(** The started session after its first exchange, resumed with the
    continue button: starter, student and teacher turn, [running_auto]. *)
Definition answeredState : AppState :=
  setSessionState running_auto
    (runAgentTurn sampleUuid sampleGemini (manualSettings disabled 1) "osmosis"
       startedState).

(** The message V8 gives to the [TypeError] for reading a property of
    [undefined]. *)
Definition sampleTypeErrorMessage (property : string) : string :=
  "Cannot read properties of undefined (reading '" +:+ property +:+ "')".

Definition sampleRephraser : Rephraser :=
  {| rephraseModel := "gemini-2.5-flash";
     getRephrasedResponseStream := fun _ _ _ _ =>
       {| chunks := ["Think of "; "a sponge."]; failure := None |} |}.

Definition sampleStarter : Starter :=
  {| apiKeys := [validLookingKey];
     starterModel := "gemini-2.5-flash";
     getStarterQuestion := fun _ _ => inr "What is osmosis?" |}.

Definition workingStorage : Storage := {| saveSession := None; saveSettings := None |}.

Definition fullStorage : Storage :=
  {| saveSession := Some (Error "Failed to save session. Error: QuotaExceededError");
     saveSettings := None |}.

(** A session stored in the old format, with two turns. *)
Definition oldFormatTurns : list Turn :=
  [with_id "a" (with_content "q1" (with_role user emptyObject));
   with_id "b" (with_content "a1" (with_role teacher emptyObject))].

Definition oldFormatSession : SessionData :=
  {| sd_id := "s1"; sd_topic := "osmosis";
     sd_turns := TurnsArray (Some <$> oldFormatTurns); sd_turnOrder := None |}.

(** A discussion of the first answer of [chatState], with one exchange. *)
Definition sampleDiscussion : Discussion.Context :=
  {| Discussion.contextTurn :=
       with_id "turn-1" (with_content "a1" (with_role teacher emptyObject));
     Discussion.turns :=
       [with_id "d1" (with_content "Why?" (with_role user emptyObject));
        with_id "d2" (with_isStreaming false
                        (with_content "Because." (with_role teacher emptyObject)))] |}.

Definition gemmaSettings : Service.Settings :=
  {| Service.apiKeys := [validLookingKey];
     Service.apiKeyStatuses := [valid];
     Service.learningLevel := "High School Student";
     Service.useGoogleSearch := false;
     Service.enableInteractiveWidgets := false;
     Service.teacherModel := "gemma-3-27b-it";
     Service.directChatModel := "Gemma-3-27b-it";
     Service.dynamicTopicsModel := "gemini-2.5-flash" |}.

(** Settings whose only key is marked as exhausted. *)
Definition exhaustedSettings : Service.Settings :=
  {| Service.apiKeys := [validLookingKey];
     Service.apiKeyStatuses := [exhausted];
     Service.learningLevel := "High School Student";
     Service.useGoogleSearch := false;
     Service.enableInteractiveWidgets := false;
     Service.teacherModel := "gemini-2.5-flash";
     Service.directChatModel := "gemini-2.5-flash";
     Service.dynamicTopicsModel := "gemini-2.5-flash" |}.

(** A remote service that answers every request with an empty object and
    counts the requests. *)
Definition answeringService (request : Service.Request) (key : string) (w : nat)
    : (Thrown + option string) * nat :=
  (inr (Some "{}"), S w).

Definition samplePicture : Attachment :=
  {| att_name := "cell.png"; att_type := image; mimeType := "image/png"; data := "iVBORw0KGgo=" |}.

(* ===================================================================== *)
(** * 9. Properties of the API-key rotation                               *)
(* ===================================================================== *)

Lemma append_assoc (a b c : string) : (a +:+ b) +:+ c = a +:+ b +:+ c.
Proof.
  induction a as [|x a IH]; [done|].
  change (String x ((a +:+ b) +:+ c) = String x (a +:+ b +:+ c)). by rewrite IH.
Qed.

Lemma append_empty_r (a : string) : a +:+ "" = a.
Proof.
  induction a as [|x a IH]; [done|].
  change (String x (a +:+ "") = String x a). by rewrite IH.
Qed.

Section Rotation.
Context {W T : Type}.
Variable apiCall : string → W → (Thrown + T) * W.

Lemma keysToTry_candidatesFrom apiKeys : keysToTry apiKeys = candidatesFrom 0 apiKeys.
Proof. reflexivity. Qed.

Lemma candidatesFrom_cons offset k apiKeys :
  candidatesFrom offset (k :: apiKeys) =
  (if (truthy k && truthy (trim k))%bool then [(k, offset)] else [])
  ++ candidatesFrom (S offset) apiKeys.
Proof.
  unfold candidatesFrom. rewrite imap_cons. cbn [List.filter fst].
  replace (offset + 0)%nat with offset by lia.
  assert (imap ((λ index key, (key, (offset + index)%nat)) ∘ S) apiKeys
          = imap (λ index key, (key, (S offset + index)%nat)) apiKeys) as ->.
  { apply imap_ext. intros i x _. cbn. f_equal. lia. }
  by destruct (truthy k && truthy (trim k))%bool.
Qed.

Lemma candidatesFrom_app offset l1 l2 :
  candidatesFrom offset (l1 ++ l2) =
  candidatesFrom offset l1 ++ candidatesFrom (offset + length l1) l2.
Proof.
  revert offset. induction l1 as [|k l1 IH]; intros offset.
  - cbn. replace (offset + 0)%nat with offset by lia. done.
  - cbn [app length]. rewrite !candidatesFrom_cons, IH, <- app_assoc.
    by replace (S offset + length l1)%nat with (offset + S (length l1))%nat by lia.
Qed.

Lemma candidatesFrom_invalid offset apiKeys :
  Forall (fun k => appearsInvalid k = true) apiKeys →
  Forall (fun c => appearsInvalid c.1 = true) (candidatesFrom offset apiKeys).
Proof.
  intros H. revert offset. induction H as [|k l Hk _ IH]; intros offset.
  - constructor.
  - rewrite candidatesFrom_cons. apply Forall_app. split; [|apply IH].
    destruct (truthy k && truthy (trim k))%bool; by repeat constructor.
Qed.

Lemma candidatesFrom_elem offset apiKeys k i :
  (k, i) ∈ candidatesFrom offset apiKeys →
  (offset ≤ i)%nat ∧ apiKeys !! (i - offset)%nat = Some k ∧ truthy (trim k) = true.
Proof.
  revert offset. induction apiKeys as [|k0 l IH]; intros offset.
  - cbn. by intros ?%elem_of_nil.
  - rewrite candidatesFrom_cons. intros [Hin|Hin]%elem_of_app.
    + destruct (truthy k0 && truthy (trim k0))%bool eqn:E; [|by apply elem_of_nil in Hin].
      apply list_elem_of_singleton in Hin. injection Hin as -> ->.
      apply andb_true_iff in E as [_ E].
      split; [lia|]. by replace (offset - offset)%nat with 0%nat by lia.
    + apply IH in Hin as (Hle & Hl & Ht). split; [lia|]. split; [|done].
      by replace (i - offset)%nat with (S (i - S offset)) by lia.
Qed.

(** The local validation passes exactly on the keys of thirty characters
    or more that start with the known prefix. *)
Lemma appearsInvalid_false k :
  appearsInvalid k = false ↔ (30 ≤ String.length k)%nat ∧ startsWith k "AIza" = true.
Proof.
  unfold appearsInvalid. rewrite orb_false_iff, negb_false_iff, Z.ltb_ge. intuition lia.
Qed.

Lemma appearsInvalid_true k :
  appearsInvalid k = true ↔ (String.length k < 30)%nat ∨ startsWith k "AIza" = false.
Proof.
  unfold appearsInvalid. rewrite orb_true_iff, negb_true_iff, Z.ltb_lt. intuition lia.
Qed.

(** A well-formed key is not blank, so the filter keeps it. *)
Lemma wellFormed_is_candidate k :
  appearsInvalid k = false → (truthy k && truthy (trim k))%bool = true.
Proof.
  unfold appearsInvalid, startsWith. intros [_ H]%orb_false_iff.
  apply negb_false_iff in H.
  destruct k as [|c k]; [done|]. cbn -[ascii_dec] in H.
  destruct (ascii_dec "A" c) as [<-|]; [|done].
  unfold trim. change (trimStart (String "A" k)) with (String "A" k).
  cbn [truthy andb trimEnd]. by destruct (trimEnd k).
Qed.

(** Candidates that fail the local validation are passed over with a
    warning each and no remote call. *)
Lemma rotationLoop_skips cs rest locals w trace :
  Forall (fun c => appearsInvalid c.1 = true) cs →
  rotationLoop apiCall (cs ++ rest) locals w trace =
  rotationLoop apiCall rest (skipped locals cs) w
    (trace ++ (ConsoleWarn ∘ skipMessage ∘ snd <$> cs)).
Proof.
  intros H. revert locals trace.
  induction H as [|[k i] cs Hk _ IH]; intros locals trace.
  - cbn. unfold skipped. cbn. rewrite !app_nil_r. by destruct locals.
  - cbn [app rotationLoop]. cbn in Hk. rewrite Hk, IH.
    unfold skipped. cbn. by rewrite <- !app_assoc.
Qed.

Lemma rotationLoop_skips_all cs locals w trace :
  Forall (fun c => appearsInvalid c.1 = true) cs →
  rotationLoop apiCall cs locals w trace =
  (RanOut (skipped locals cs), w, trace ++ (ConsoleWarn ∘ skipMessage ∘ snd <$> cs)).
Proof.
  intros H. pose proof (rotationLoop_skips cs [] locals w trace H) as Hs.
  by rewrite app_nil_r in Hs.
Qed.

Lemma apiCallsOf_app t1 t2 : apiCallsOf (t1 ++ t2) = apiCallsOf t1 ++ apiCallsOf t2.
Proof. unfold apiCallsOf. apply omap_app. Qed.

Lemma apiCallsOf_warnings (cs : list (string * nat)) :
  apiCallsOf (ConsoleWarn ∘ skipMessage ∘ snd <$> cs) = [].
Proof. induction cs as [|c cs IH]; [done|]. cbn. apply IH. Qed.

Lemma length_app_cons_eqb {A} (l1 l2 : list A) (x : A) :
  Nat.eqb (length (l1 ++ x :: l2)) 0 = false.
Proof. apply Nat.eqb_neq. rewrite length_app. cbn. lia. Qed.

Lemma rotationLoop_app cs1 cs2 locals w trace :
  rotationLoop apiCall (cs1 ++ cs2) locals w trace =
  match rotationLoop apiCall cs1 locals w trace with
  | (Returned r, w', trace') => (Returned r, w', trace')
  | (RanOut locals', w', trace') => rotationLoop apiCall cs2 locals' w' trace'
  end.
Proof.
  revert locals w trace. induction cs1 as [|[k i] cs1 IH]; intros locals w trace.
  - done.
  - cbn [app rotationLoop]. destruct (appearsInvalid k); [apply IH|].
    destruct (apiCall k w) as [[e|r] w1]; [apply IH|done].
Qed.

(** Whatever the outcome, every remote attempt of the loop is made with a
    candidate that passed the local validation. *)
Lemma rotationLoop_calls cs locals w trace out w' trace' :
  rotationLoop apiCall cs locals w trace = (out, w', trace') →
  ∃ calls, apiCallsOf trace' = apiCallsOf trace ++ calls
           ∧ Forall (fun c => appearsInvalid c.2 = false ∧ (c.2, c.1) ∈ cs) calls.
Proof.
  revert locals w trace. induction cs as [|[k i] cs IH]; intros locals w trace Hrun.
  - injection Hrun as _ _ <-. exists []. by rewrite app_nil_r.
  - cbn [rotationLoop] in Hrun. destruct (appearsInvalid k) eqn:Hk.
    + apply IH in Hrun as (calls & -> & Hall). exists calls.
      rewrite apiCallsOf_app. cbn. rewrite app_nil_r. split; [done|].
      eapply Forall_impl; [exact Hall|]. intros c [? ?]. split; [done|]. by right.
    + destruct (apiCall k w) as [[e|r] w1].
      * apply IH in Hrun as (calls & -> & Hall). exists ((i, k) :: calls).
        rewrite !apiCallsOf_app. cbn. rewrite app_nil_r, <- app_assoc. split; [done|].
        constructor; [split; [done|by left]|].
        eapply Forall_impl; [exact Hall|]. intros c [? ?]. split; [done|]. by right.
      * injection Hrun as _ _ <-. exists [(i, k)].
        rewrite !apiCallsOf_app. cbn. rewrite app_nil_r. split; [done|].
        constructor; [split; [done|by left]|constructor].
Qed.

(** The loop returns only what a remote attempt has resolved with. *)
Lemma rotationLoop_returned cs locals w trace r w' trace' :
  rotationLoop apiCall cs locals w trace = (Returned r, w', trace') →
  ∃ i k w0, (i, k) ∈ apiCallsOf trace' ∧ apiCall k w0 = (inr r, w').
Proof.
  revert locals w trace. induction cs as [|[k i] cs IH]; intros locals w trace Hrun.
  - discriminate Hrun.
  - cbn [rotationLoop] in Hrun. destruct (appearsInvalid k) eqn:Hk.
    + by apply IH in Hrun.
    + destruct (apiCall k w) as [[e|r0] w1] eqn:Hcall.
      * by apply IH in Hrun.
      * injection Hrun as <- <- <-. exists i, k, w. split; [|done].
        rewrite !apiCallsOf_app. cbn. rewrite app_nil_r.
        apply elem_of_app. right. apply list_elem_of_here.
Qed.

Lemma candidatesFrom_blank_or_invalid offset apiKeys :
  Forall (fun k => truthy (trim k) = true → appearsInvalid k = true) apiKeys →
  Forall (fun c => appearsInvalid c.1 = true) (candidatesFrom offset apiKeys).
Proof.
  intros H. revert offset. induction H as [|k l Hk _ IH]; intros offset.
  - constructor.
  - rewrite candidatesFrom_cons. apply Forall_app. split; [|apply IH].
    destruct (truthy k && truthy (trim k))%bool eqn:E; [|constructor].
    apply andb_true_iff in E as [_ E]. repeat constructor. by apply Hk.
Qed.

Lemma candidatesFrom_nonempty offset apiKeys :
  Exists (fun k => truthy (trim k) = true) apiKeys → candidatesFrom offset apiKeys ≠ [].
Proof.
  intros H. revert offset. induction H as [k l Hk|k l _ IH]; intros offset;
    rewrite candidatesFrom_cons.
  - assert (truthy k = true) as -> by (by destruct k). by rewrite Hk.
  - intros [_ E]%app_eq_nil. by apply IH in E.
Qed.

Lemma pretty_Z_of_nat (n : nat) : indexToString (Z.of_nat n) = numberToString n.
Proof. by destruct n. Qed.

(** For a key of more than eight characters the snippet is its first four
    and its last four characters around an ellipsis. *)
Lemma keySnippet_long k i :
  (8 < String.length k)%nat →
  keySnippet {| key := k; index := i |} =
  String.substring 0 4 k +:+ "..." +:+ String.substring (String.length k - 4) 4 k.
Proof.
  intros Hlen. unfold keySnippet, sliceString, relativeIndex. cbn [key].
  destruct (8 <? Z.of_nat (String.length k)) eqn:E; [|lia].
  destruct (-4 <? 0) eqn:E4; [|lia]. change (0 <? 0) with false.
  change (4 <? 0) with false. cbn match.
  rewrite Z.min_l, (Z.min_l 4), Z.max_l by lia.
  do 2 f_equal; f_equal; lia.
Qed.

(** C4.  When the keys before the first well-formed key [k] are all
    malformed (too short or without the known prefix, blank ones included)
    and the request resolves on [k], the rotation resolves with that
    result, [k] is the only key a request was made with, no key after it
    is tried, and the last notification clears the active key.  A key of
    thirty characters that starts with the prefix is not blank, so that
    part of being well formed needs no hypothesis. *)
Theorem rotation_returns_first_well_formed_result
    (pre post : list string) (k : string) statuses w r w' :
  Forall (fun k' => (String.length k' < 30)%nat ∨ startsWith k' "AIza" = false) pre →
  (30 ≤ String.length k)%nat →
  startsWith k "AIza" = true →
  apiCall k w = (inr r, w') →
  ∃ trace,
    withApiKeyRotation (pre ++ k :: post) statuses apiCall w = (inr r, w', trace)
    ∧ apiCallsOf trace = [(length pre, k)]
    ∧ last trace = Some (ActiveKeyUpdate None).
Proof.
  intros Hpre Hlen Hprefix Hcall.
  assert (appearsInvalid k = false) as Hk by (by apply appearsInvalid_false).
  assert (Forall (fun k' => appearsInvalid k' = true) pre) as Hpre'.
  { eapply Forall_impl; [exact Hpre|]. intros k' H. by apply appearsInvalid_true. }
  unfold withApiKeyRotation.
  rewrite keysToTry_candidatesFrom, candidatesFrom_app, candidatesFrom_cons.
  rewrite (wellFormed_is_candidate k Hk). cbn [app].
  rewrite length_app_cons_eqb.
  rewrite rotationLoop_skips by (by apply candidatesFrom_invalid).
  cbn [rotationLoop]. rewrite Hk, Hcall. eexists. split; [reflexivity|].
  split.
  - rewrite !apiCallsOf_app, apiCallsOf_warnings. done.
  - by rewrite last_snoc.
Qed.

(** C5 as amended.  When some key is non-empty after trimming and every
    such key fails the local format check, the rotation rejects with the
    all-keys-invalid [ApiKeyError], without a single remote call and
    without touching the remote state. *)
Theorem rotation_rejects_when_all_candidates_invalid apiKeys statuses w :
  Exists (fun k => truthy (trim k) = true) apiKeys →
  Forall (fun k => truthy (trim k) = true →
                   (String.length k < 30)%nat ∨ startsWith k "AIza" = false) apiKeys →
  ∃ trace,
    withApiKeyRotation apiKeys statuses apiCall w =
      (inl (ApiKeyError "All configured API keys failed client-side validation and were skipped. Please check your keys in Settings."), w, trace)
    ∧ apiCallsOf trace = [].
Proof.
  intros Hsome Hall.
  assert (Forall (fun k => truthy (trim k) = true → appearsInvalid k = true) apiKeys)
    as Hall'.
  { eapply Forall_impl; [exact Hall|]. intros k' H Ht. by apply appearsInvalid_true, H. }
  unfold withApiKeyRotation. rewrite keysToTry_candidatesFrom.
  pose proof (candidatesFrom_nonempty 0 _ Hsome) as Hne.
  pose proof (candidatesFrom_blank_or_invalid 0 _ Hall') as Hinv.
  rewrite rotationLoop_skips_all by done.
  cbn [skipped lastError validationErrors whenTruthy]. rewrite app_nil_l, length_fmap.
  destruct (candidatesFrom 0 apiKeys) as [|c cs]; [done|].
  cbn [length Nat.eqb Nat.ltb Nat.leb andb]. rewrite Nat.eqb_refl.
  eexists. split; [reflexivity|].
  by rewrite !apiCallsOf_app, apiCallsOf_warnings.
Qed.

(** C6 as amended.  [k] is the last key that passes the local validation
    (those after it are blank or malformed), and what the request on [k]
    is rejected with is truthy, as the [Error] objects of the SDK are.  The
    rotation resolves only with what a remote attempt has resolved with;
    otherwise, every remote attempt having failed, the error it throws
    names the index of [k], shows [k] cut down to its first four and last
    four characters, and ends with the message of the error the request on
    [k] was rejected with; [k] is the last key a request was made with, and
    every key a request was made with had passed the local validation. *)
Theorem rotation_failure_reports_last_attempted_key
    (pre post : list string) (k : string) statuses w :
  (30 ≤ String.length k)%nat →
  startsWith k "AIza" = true →
  Forall (fun k' => truthy (trim k') = true →
                    (String.length k' < 30)%nat ∨ startsWith k' "AIza" = false) post →
  (∀ w0 e w1, apiCall k w0 = (inl e, w1) → isTruthy e = true) →
  match withApiKeyRotation (pre ++ k :: post) statuses apiCall w with
  | (inr r, w', trace) =>
      ∃ i k0 w0, (i, k0) ∈ apiCallsOf trace ∧ apiCall k0 w0 = (inr r, w')
  | (inl err, w', trace) =>
      ∃ e w0 w1,
        apiCall k w0 = (inl e, w1)
        ∧ err = Error ("API call failed using key at index "
                       +:+ numberToString (length pre)
                       +:+ " (key: " +:+ String.substring 0 4 k +:+ "..."
                       +:+ String.substring (String.length k - 4) 4 k
                       +:+ "). Raw Error: " +:+ errorMessage e)
        ∧ last (apiCallsOf trace) = Some (length pre, k)
        ∧ Forall (fun c => (30 ≤ String.length c.2)%nat ∧ startsWith c.2 "AIza" = true)
                 (apiCallsOf trace)
  end.
Proof.
  intros Hlen Hprefix Hpost Htruthy.
  assert (appearsInvalid k = false) as Hk by (by apply appearsInvalid_false).
  assert (Forall (fun k => truthy (trim k) = true → appearsInvalid k = true) post)
    as Hpost'.
  { eapply Forall_impl; [exact Hpost|]. intros k' H Ht. by apply appearsInvalid_true, H. }
  unfold withApiKeyRotation.
  rewrite keysToTry_candidatesFrom, candidatesFrom_app, candidatesFrom_cons.
  rewrite (wellFormed_is_candidate k Hk). cbn [app].
  rewrite length_app_cons_eqb.
  destruct (rotationLoop apiCall _ _ w []) as [[[r|locals] w'] trace] eqn:Hrun.
  { by apply rotationLoop_returned in Hrun. }
  rewrite rotationLoop_app in Hrun.
  destruct (rotationLoop apiCall (candidatesFrom 0 pre) _ w [])
    as [[[r|locals1] w1] trace1] eqn:Hpre; [done|].
  apply rotationLoop_calls in Hpre as (calls1 & Hcalls1 & Hall1).
  cbn [rotationLoop] in Hrun. rewrite Hk in Hrun.
  destruct (apiCall k w1) as [[e|r] w2] eqn:Hcall; [|done].
  rewrite rotationLoop_skips_all in Hrun by (by apply candidatesFrom_blank_or_invalid).
  cbn [skipped lastError lastErrorKeyInfo] in Hrun.
  injection Hrun as <- <- <-. cbn [skipped lastError lastErrorKeyInfo whenTruthy].
  rewrite (Htruthy _ _ _ Hcall).
  exists e, w1, w2. split; [done|]. split.
  { unfold Error. do 2 f_equal. cbn [index]. rewrite ?Nat.add_0_l, pretty_Z_of_nat.
    rewrite keySnippet_long by lia. by rewrite !append_assoc. }
  rewrite !apiCallsOf_app, Hcalls1, apiCallsOf_warnings. cbn. rewrite !app_nil_r.
  rewrite ?Nat.add_0_l. split; [by rewrite last_snoc|].
  apply Forall_app. split; [|by repeat constructor].
  eapply Forall_impl; [exact Hall1|]. intros c [Hc _]. by apply appearsInvalid_false.
Qed.

(** C10.  The status list is not read: with any two status lists (or none),
    the same keys, request closure and remote state give the same outcome,
    the same remote state afterwards and the same trace of attempts. *)
Theorem rotation_ignores_key_statuses apiKeys statuses1 statuses2 w :
  withApiKeyRotation apiKeys statuses1 apiCall w =
  withApiKeyRotation apiKeys statuses2 apiCall w.
Proof. reflexivity. Qed.

End Rotation.

(* ===================================================================== *)
(** * 10. Properties of the turn store and of the context window          *)
(* ===================================================================== *)

Lemma override_None_r {A} (o : option A) : override o None = o.
Proof. by destruct o. Qed.

Lemma spread_emptyObject updates : spread emptyObject updates = updates.
Proof. destruct updates. unfold spread. cbn. by rewrite !override_None_r. Qed.

Lemma spread_with_content t c : spread t (with_content c emptyObject) = with_content c t.
Proof. by destruct t. Qed.

Lemma spread_with_isStreaming t b :
  spread t (with_isStreaming b emptyObject) = with_isStreaming b t.
Proof. by destruct t. Qed.

Lemma sameButTurns_setTurns f st : sameButTurns st (setTurns f st).
Proof. by repeat split. Qed.

Lemma sameButTurns_trans st1 st2 st3 :
  sameButTurns st1 st2 → sameButTurns st2 st3 → sameButTurns st1 st3.
Proof.
  unfold sameButTurns. intros (?&?&?&?&?&?) (?&?&?&?&?&?).
  repeat split; congruence.
Qed.

(** C3 as amended.  [updateTurn] on an id that is not in the map throws
    nothing and leaves the turn order, every other entry and the rest of
    the state as they were, but the map gains an entry under that id, made
    of the fields of the partial object alone. *)
Theorem updateTurn_absent_id_adds_partial_entry st id updates :
  turns st !! id = None →
  turns (updateTurn id updates st) = <[id := updates]> (turns st)
  ∧ turns (updateTurn id updates st) !! id = Some updates
  ∧ (∀ other, other ≠ id → turns (updateTurn id updates st) !! other = turns st !! other)
  ∧ sameButTurns st (updateTurn id updates st).
Proof.
  intros Habsent. unfold updateTurn. cbn [turns setTurns].
  rewrite Habsent. cbn [default]. rewrite spread_emptyObject.
  split; [done|]. split; [apply lookup_insert_eq|].
  split; [|apply sameButTurns_setTurns].
  intros other Hne. by apply lookup_insert_ne.
Qed.

(** [slice(-n)] for a positive [n] keeps the last [n] elements, or all of
    them when there are fewer. *)
Lemma slice_last {A} (l : list A) (n : Z) :
  0 < n → slice l (- n) None = drop (length l - Z.to_nat n) l.
Proof.
  intros Hn. unfold slice, relativeIndex.
  destruct (- n <? 0) eqn:E; [|lia].
  rewrite take_ge by (rewrite length_drop; lia).
  f_equal. lia.
Qed.

Lemma CONTEXT_WINDOW_SIZES_pos w : 0 < CONTEXT_WINDOW_SIZES w.
Proof. by destruct w. Qed.

(** C2 as amended.  [getContextString] renders the last [n] ids of the
    turn order, [n] being 4, 8 or 12 by the configured window (all of them
    when the order is shorter), in their order; an id is left out only when
    the map has no turn for it, and a turn is rendered as [[role]], a line
    feed and its content even when the content is empty; the pieces are
    joined by a blank line. *)
Theorem getContextString_renders_last_window settings st :
  let n := Z.to_nat (CONTEXT_WINDOW_SIZES (contextWindow settings)) in
  (CONTEXT_WINDOW_SIZES short = 4 ∧ CONTEXT_WINDOW_SIZES medium = 8
   ∧ CONTEXT_WINDOW_SIZES long = 12)
  ∧ (∃ older window,
       turnOrder st = older ++ window
       ∧ length window = Nat.min n (length (turnOrder st))
       ∧ getContextString settings st =
         String.concat (LF +:+ LF)
           (renderTurn <$> omap (fun id => turns st !! id) window))
  ∧ (∀ t r c,
       renderTurn (with_content c (with_role r t))
       = "[" +:+ roleName r +:+ "]" +:+ LF +:+ c).
Proof.
  intros n. split; [done|]. split.
  - exists (take (length (turnOrder st) - n) (turnOrder st)),
           (drop (length (turnOrder st) - n) (turnOrder st)).
    split; [by rewrite take_drop|]. split; [rewrite length_drop; lia|].
    unfold getContextString, renderContext.
    by rewrite slice_last by apply CONTEXT_WINDOW_SIZES_pos.
  - done.
Qed.

Lemma concat_empty_cons (c : string) (rest : list string) :
  String.concat "" (c :: rest) = c +:+ String.concat "" rest.
Proof. destruct rest; [symmetry; apply append_empty_r|done]. Qed.

Lemma with_content_idem a b t : with_content a (with_content b t) = with_content a t.
Proof. done. Qed.

Lemma with_content_same c t : content t = Some c → with_content c t = t.
Proof. destruct t. cbn. by intros ->. Qed.

(** The [for await] loop rewrites the content of the turn under [id] to
    what it has accumulated and touches nothing else. *)
Lemma forAwaitChunks_spec id fullContent rest st t :
  turns st !! id = Some t →
  content t = Some fullContent →
  ∃ st', forAwaitChunks id fullContent rest st
         = (fullContent +:+ String.concat "" rest, st')
    ∧ turns st' = <[id := with_content (fullContent +:+ String.concat "" rest) t]> (turns st)
    ∧ sameButTurns st st'.
Proof.
  revert fullContent st t. induction rest as [|chunk rest IH]; intros fullContent st t Ht Hc.
  - exists st. cbn [forAwaitChunks String.concat]. rewrite append_empty_r.
    split; [done|]. split; [|by repeat split].
    rewrite with_content_same by done. by rewrite insert_id.
  - cbn [forAwaitChunks].
    set (st1 := updateTurn id (with_content (fullContent +:+ chunk) emptyObject) st).
    assert (turns st1 = <[id := with_content (fullContent +:+ chunk) t]> (turns st)) as Hst1.
    { unfold st1, updateTurn. cbn [turns setTurns]. rewrite Ht. cbn [default].
      by rewrite spread_with_content. }
    destruct (IH (fullContent +:+ chunk) st1 (with_content (fullContent +:+ chunk) t))
      as (st' & Hrun & Hturns & Hsame).
    { rewrite Hst1. apply lookup_insert_eq. }
    { done. }
    exists st'. rewrite concat_empty_cons, <- append_assoc. split; [done|].
    split.
    + rewrite Hturns, Hst1, insert_insert_eq. done.
    + eapply sameButTurns_trans; [|exact Hsame]. apply sameButTurns_setTurns.
Qed.

(** [addTurn] draws the next id, stores the turn under it and appends the
    id to the order. *)
Lemma addTurn_unfold uuidv4 turn st :
  addTurn uuidv4 turn st =
  (with_id (uuidv4 (uuidCount st)) turn,
   {| turns := <[uuidv4 (uuidCount st) := with_id (uuidv4 (uuidCount st)) turn]> (turns st);
      turnOrder := turnOrder st ++ [uuidv4 (uuidCount st)];
      sessionState := sessionState st; error := error st;
      resendPayload := resendPayload st; isAgentRunning := isAgentRunning st;
      uuidCount := S (uuidCount st) |}).
Proof. reflexivity. Qed.

(** C7.  On an empty sequence of deltas [createTurnFromStream] resolves
    with no turn and leaves the state as it is.  On [first :: rest], with an
    id that is new to the map, it adds one turn: the map grows by one entry
    and the order by that id; after the first [n] of the remaining deltas
    the turn holds the concatenation of the deltas seen so far and is still
    streaming; at the end it holds the concatenation of all deltas and is
    no longer streaming.  The turn handed back is the one created from the
    first delta. *)
Theorem createTurnFromStream_assembles_deltas uuidv4 turnData deltas st :
  turns st !! uuidv4 (uuidCount st) = None →
  let uuid := uuidv4 (uuidCount st) in
  match deltas with
  | [] =>
      createTurnFromStream uuidv4 turnData {| chunks := []; failure := None |} st
      = (inr (None, ""), st)
  | first :: rest =>
      let created := with_id uuid (with_isStreaming true (with_content first turnData)) in
      ∃ st',
        createTurnFromStream uuidv4 turnData {| chunks := deltas; failure := None |} st
        = (inr (Some created, String.concat "" deltas), st')
        ∧ turns st' =
          <[uuid := with_id uuid
                      (with_isStreaming false
                         (with_content (String.concat "" deltas) turnData))]> (turns st)
        ∧ turnOrder st' = turnOrder st ++ [uuid]
        ∧ size (turns st') = S (size (turns st))
        ∧ ∀ n,
            turns (forAwaitChunks uuid first (take n rest)
                     (addTurn uuidv4 (with_isStreaming true (with_content first turnData))
                        st).2).2 !! uuid
            = Some (with_id uuid
                      (with_isStreaming true
                         (with_content (String.concat "" (first :: take n rest)) turnData)))
  end.
Proof.
  intros Hfresh uuid. destruct deltas as [|first rest]; [done|].
  intros created.
  unfold createTurnFromStream. cbn [chunks failure].
  rewrite addTurn_unfold. fold uuid. fold created.
  change (interpolate (id created)) with uuid.
  match goal with |- context [forAwaitChunks uuid first rest ?s] => set (st1 := s) end.
  assert (turns st1 !! uuid = Some created) as Hst1.
  { unfold st1. cbn [turns]. apply lookup_insert_eq. }
  assert (∀ l, ∃ st', forAwaitChunks uuid first l st1 = (first +:+ String.concat "" l, st')
            ∧ turns st' = <[uuid := with_content (first +:+ String.concat "" l) created]>
                            (turns st)
            ∧ sameButTurns st1 st') as Hloop.
  { intros l. destruct (forAwaitChunks_spec uuid first l st1 created Hst1 eq_refl)
      as (st' & Hrun & Hturns & Hsame).
    exists st'. split; [done|]. split; [|done].
    rewrite Hturns. unfold st1. cbn [turns].
    by rewrite insert_insert_eq. }
  destruct (Hloop rest) as (st2 & Hrun & Hturns & Hsame).
  rewrite Hrun. eexists. split; [by rewrite concat_empty_cons|].
  assert (turns (updateTurn uuid (with_isStreaming false emptyObject) st2) =
          <[uuid := with_id uuid (with_isStreaming false
                      (with_content (String.concat "" (first :: rest)) turnData))]>
            (turns st)) as Hfinal.
  { unfold updateTurn. cbn [turns setTurns]. rewrite Hturns, lookup_insert_eq.
    cbn [default]. rewrite insert_insert_eq, spread_with_isStreaming, concat_empty_cons.
    done. }
  split; [exact Hfinal|]. split.
  { unfold updateTurn. cbn [turnOrder setTurns]. destruct Hsame as (-> & _). done. }
  split.
  { rewrite Hfinal. by apply map_size_insert_None. }
  intros n. destruct (Hloop (take n rest)) as (st3 & Hrun3 & Hturns3 & _).
  cbn [snd]. fold st1. rewrite Hrun3. cbn [snd].
  rewrite Hturns3, lookup_insert_eq, concat_empty_cons. done.
Qed.

(* ===================================================================== *)
(** * 11. Properties of resending                                         *)
(* ===================================================================== *)

Lemma findIndex_first v pre post :
  v ∉ pre → findIndex v (pre ++ v :: post) = Z.of_nat (length pre).
Proof.
  induction pre as [|x pre IH]; intros Hpre.
  - cbn. by rewrite String.eqb_refl.
  - apply not_elem_of_cons in Hpre as [Hne Hpre]. cbn [app findIndex length].
    assert (String.eqb x v = false) as -> by (apply String.eqb_neq; congruence).
    rewrite (IH Hpre). destruct (Z.ltb_spec (Z.of_nat (length pre)) 0); lia.
Qed.

Lemma slice_prefix {A} (pre rest : list A) :
  slice (pre ++ rest) 0 (Some (Z.of_nat (length pre))) = pre.
Proof.
  unfold slice, relativeIndex. change (0 <? 0) with false. cbn match.
  destruct (Z.ltb_spec (Z.of_nat (length pre)) 0); [lia|].
  rewrite length_app, !Z.min_l by lia. cbn [Z.to_nat drop].
  apply take_app_length'. lia.
Qed.

(** The [reduce] of [handleResend] copies the entries of the ids it runs
    over and no other. *)
Lemma resend_reduce_lookup (turns acc : gmap string Turn) (ids : list string) k :
  foldl (fun acc id => match turns !! id with
                       | Some t => <[id := t]> acc
                       | None => acc
                       end) acc ids !! k
  = if decide (k ∈ ids)
    then match turns !! k with Some t => Some t | None => acc !! k end
    else acc !! k.
Proof.
  revert acc. induction ids as [|id ids IH]; intros acc.
  - cbn. by rewrite decide_False by apply not_elem_of_nil.
  - cbn [foldl]. rewrite IH. destruct (decide (k = id)) as [->|Hne].
    + rewrite (decide_True (P := id ∈ id :: ids)) by apply list_elem_of_here.
      destruct (turns !! id) as [t|] eqn:Ht.
      * rewrite lookup_insert_eq. by destruct (decide (id ∈ ids)).
      * by destruct (decide (id ∈ ids)).
    + assert ((match turns !! id with Some t => <[id:=t]> acc | None => acc end) !! k
              = acc !! k) as ->.
      { destruct (turns !! id); [by rewrite lookup_insert_ne|done]. }
      destruct (decide (k ∈ ids)) as [Hin|Hnin].
      * by rewrite decide_True by (by right).
      * rewrite decide_False; [done|]. by intros [?|?]%elem_of_cons.
Qed.

(** C9.  Resending a user turn that is in the map and in the order cuts
    the order down to the ids before its first occurrence and the map down
    to the entries of those ids: the target and what follows it are gone
    from both.  The payload is the target's content and attachments, and
    the effect that follows appends it as a new user turn to that truncated
    store (agent mode: nothing else is appended by the handler). *)
Theorem handleResend_truncates_before_target st turnId t :
  turns st !! turnId = Some t →
  role t = Some user →
  turnId ∈ turnOrder st →
  ∃ pre post,
    turnOrder st = pre ++ turnId :: post
    ∧ (turnId ∉ pre)
    ∧ turnOrder (handleResend turnId st) = pre
    ∧ (∀ k, turns (handleResend turnId st) !! k
            = if decide (k ∈ pre) then turns st !! k else None)
    ∧ turns (handleResend turnId st) !! turnId = None
    ∧ resendPayload (handleResend turnId st)
      = Some (content t, default [] (attachments t))
    ∧ (∀ uuidv4 gemini settings,
         interactionMode settings = agent →
         let sent := resendEffect uuidv4 gemini settings (handleResend turnId st) in
         let uuid := uuidv4 (uuidCount st) in
         turnOrder sent = pre ++ [uuid]
         ∧ turns sent
           = <[uuid := with_id uuid
                         (with_attachments (default [] (attachments t))
                            (with_content_read (content t) (with_role user emptyObject)))]>
               (turns (handleResend turnId st))
         ∧ resendPayload sent = None
         ∧ sessionState sent = running_auto).
Proof.
  intros Ht Hrole (pre & post & Horder & Hpre)%list_elem_of_split_l.
  exists pre, post. split; [done|]. split; [done|].
  assert (handleResend turnId st =
          setResendPayload (Some (content t, default [] (attachments t)))
            (setTurns (fun _ =>
               foldl (fun acc id => match turns st !! id with
                                    | Some t => <[id := t]> acc
                                    | None => acc
                                    end) ∅ pre)
               (setTurnOrder (fun _ => pre) st))) as Hrun.
  { unfold handleResend. rewrite Ht, Hrole. cbn [isUser negb].
    rewrite Horder, findIndex_first by done.
    destruct (Z.eqb_spec (Z.of_nat (length pre)) (-1)); [lia|].
    by rewrite slice_prefix. }
  assert (∀ k, turns (handleResend turnId st) !! k
               = if decide (k ∈ pre) then turns st !! k else None) as Hlookup.
  { intros k. rewrite Hrun. cbn [turns setResendPayload setTurns].
    rewrite resend_reduce_lookup, lookup_empty.
    destruct (decide (k ∈ pre)); [|done]. by destruct (turns st !! k). }
  split; [by rewrite Hrun|]. split; [exact Hlookup|].
  split; [by rewrite Hlookup, decide_False|]. split; [by rewrite Hrun|].
  intros uuidv4 gemini settings Hmode sent uuid. unfold sent, resendEffect.
  rewrite Hrun at 1. cbn [resendPayload setResendPayload].
  unfold handleSend. rewrite addTurn_unfold, Hmode. rewrite Hrun. by repeat split.
Qed.

(* ===================================================================== *)
(** * 12. Properties of the agent turn                                    *)
(* ===================================================================== *)

Section TripleRules.
Context {A B : Type}.

Lemma triple_resolve (P : AppState → Prop) (a : A) Q R :
  (∀ st, P st → Q a st) → triple P (resolve a) Q R.
Proof. intros H st HP. by apply H. Qed.

Lemma triple_throw (P : AppState → Prop) e (Q : A → AppState → Prop) R :
  (∀ st, P st → R e st) → triple P (throw e) Q R.
Proof. intros H st HP. by apply H. Qed.

Lemma triple_await (P : AppState → Prop) (r : Thrown + A) Q R :
  (∀ st, P st → match r with inr a => Q a st | inl e => R e st end) →
  triple P (await r) Q R.
Proof. intros H st HP. unfold await. specialize (H st HP). by destruct r. Qed.

Lemma triple_bind (P : AppState → Prop) (m : Async A) (k : A → Async B)
    (Q1 : A → AppState → Prop) Q R :
  triple P m Q1 R → (∀ a, triple (Q1 a) (k a) Q R) → triple P (bind m k) Q R.
Proof.
  intros Hm Hk st HP. unfold bind. specialize (Hm st HP).
  destruct (m st) as [[e|a] st1]; [done|]. by apply Hk.
Qed.

Lemma triple_weaken (P : AppState → Prop) (m : Async A) (Q Q' : A → AppState → Prop)
    (R R' : Thrown → AppState → Prop) :
  triple P m Q R → (∀ a st, Q a st → Q' a st) → (∀ e st, R e st → R' e st) →
  triple P m Q' R'.
Proof.
  intros Hm HQ HR st HP. specialize (Hm st HP).
  destruct (m st) as [[e|a] st1]; [by apply HR|by apply HQ].
Qed.
End TripleRules.

Lemma triple_update (P : AppState → Prop) f Q R :
  (∀ st, P st → Q tt (f st)) → triple P (update f) Q R.
Proof. intros H st HP. by apply H. Qed.

(** The count of teacher turns looks at the role of each id of the order
    and at nothing else. *)
Lemma countTeacherTurns_ext (turns1 turns2 : gmap string Turn) (order : list string) :
  (∀ id, id ∈ order → isTeacher (turns1 !! id) = isTeacher (turns2 !! id)) →
  countTeacherTurns turns1 order = countTeacherTurns turns2 order.
Proof.
  unfold countTeacherTurns. intros H. f_equal.
  induction order as [|id order IH]; [done|].
  cbn [fmap list_fmap List.filter].
  rewrite (H id) by apply list_elem_of_here.
  destruct (isTeacher (turns2 !! id)); cbn [length]; rewrite IH; try done;
    intros id' Hin; apply H; by right.
Qed.

Lemma countTeacherTurns_snoc (turns : gmap string Turn) (order : list string) id :
  countTeacherTurns turns (order ++ [id]) =
  countTeacherTurns turns order + (if isTeacher (turns !! id) then 1 else 0).
Proof.
  unfold countTeacherTurns. rewrite fmap_app, List.filter_app, length_app.
  cbn [fmap list_fmap List.filter]. destruct (isTeacher (turns !! id)); cbn [length]; lia.
Qed.

Section AgentTurn.
Variable uuidv4 : nat → string.
Hypothesis uuidv4_inj : Inj (=) (=) uuidv4.

Lemma agentInv_addTurn c turn st :
  agentInv uuidv4 c st →
  agentInv uuidv4 (c + (if isTeacher (Some turn) then 1 else 0))
    (addTurn uuidv4 turn st).2.
Proof.
  intros (Hfresh & Hcount & Hstate). rewrite addTurn_unfold. cbn [snd].
  assert (uuidv4 (uuidCount st) ∉ turnOrder st) as Hnew by (by apply Hfresh).
  split; [|split; [|done]].
  - intros n Hn. cbn [uuidCount turnOrder] in *.
    apply not_elem_of_app. split; [apply Hfresh; lia|].
    intros ->%list_elem_of_singleton%uuidv4_inj. lia.
  - unfold teacherCount in *. cbn [turns turnOrder].
    rewrite countTeacherTurns_snoc, lookup_insert_eq.
    rewrite (countTeacherTurns_ext _ (turns st)), Hcount.
    + by destruct turn as [? [[]|]].
    + intros id Hin. rewrite lookup_insert_ne; [done|]. by intros <-.
Qed.

Lemma agentInv_updateTurn c id updates st :
  role updates = None →
  agentInv uuidv4 c st → agentInv uuidv4 c (updateTurn id updates st).
Proof.
  intros Hrole (Hfresh & Hcount & Hstate). split; [done|]. split; [|done].
  rewrite <- Hcount. unfold teacherCount, updateTurn. cbn [turns turnOrder setTurns].
  apply countTeacherTurns_ext. intros id' _.
  destruct (decide (id' = id)) as [->|Hne]; [|by rewrite lookup_insert_ne].
  rewrite lookup_insert_eq. unfold isTeacher. cbn [mbind option_bind].
  destruct (turns st !! id) as [old|]; cbn [default spread role]; by rewrite Hrole.
Qed.

Lemma agentInv_setSessionState_paused c st :
  agentInv uuidv4 c st → agentInv uuidv4 c (setSessionState paused_user_input st).
Proof. intros (? & ? & ?). by repeat split. Qed.

Lemma agentInv_setError c e st : agentInv uuidv4 c st → agentInv uuidv4 c (setError e st).
Proof. intros (? & ? & ?). by repeat split. Qed.

Lemma agentInv_setIsAgentRunning c b st :
  agentInv uuidv4 c st → agentInv uuidv4 c (setIsAgentRunning b st).
Proof. intros (? & ? & ?). by repeat split. Qed.

Lemma agentInv_forAwaitChunks c id fullContent rest st :
  agentInv uuidv4 c st → agentInv uuidv4 c (forAwaitChunks id fullContent rest st).2.
Proof.
  revert fullContent st. induction rest as [|chunk rest IH]; intros fullContent st Hinv.
  - done.
  - cbn [forAwaitChunks]. apply IH. by apply agentInv_updateTurn.
Qed.

(** A streamed turn that is not a teacher turn leaves the count alone,
    whether the stream completes or throws. *)
Lemma triple_createTurnFromStream c turnData generator :
  isTeacher (Some turnData) = false →
  triple (agentInv uuidv4 c) (createTurnFromStream uuidv4 turnData generator)
    (fun _ => agentInv uuidv4 c) (fun _ => agentInv uuidv4 c).
Proof.
  intros Hrole st Hinv. unfold createTurnFromStream.
  destruct (chunks generator) as [|first rest].
  { by destruct (failure generator). }
  pose proof (agentInv_addTurn c (with_isStreaming true (with_content first turnData)) st Hinv)
    as Hadd.
  assert (isTeacher (Some (with_isStreaming true (with_content first turnData))) = false)
    as Hrole' by (by destruct turnData).
  rewrite Hrole', Z.add_0_r in Hadd.
  destruct (addTurn uuidv4 _ st) as [newTurn st1]. cbn [snd] in Hadd.
  pose proof (agentInv_forAwaitChunks c (interpolate (id newTurn)) first rest st1 Hadd)
    as Hloop.
  destruct (forAwaitChunks _ first rest st1) as [fullContent st2]. cbn [snd] in Hloop.
  destruct (failure generator); [done|]. by apply agentInv_updateTurn.
Qed.

Lemma triple_addTurnIn c turn :
  triple (agentInv uuidv4 c) (addTurnIn uuidv4 turn)
    (fun _ => agentInv uuidv4 (c + (if isTeacher (Some turn) then 1 else 0)))
    (fun _ _ => False).
Proof.
  intros st Hinv. unfold addTurnIn. pose proof (agentInv_addTurn c turn st Hinv) as H.
  by destruct (addTurn uuidv4 turn st).
Qed.

(** The exchange adds exactly one teacher turn when it resolves, and at
    most one when it rejects (the placeholder stays when the teacher call
    or the validator call fails). *)
Lemma triple_agentExchange gemini settings topic captured c :
  triple (agentInv uuidv4 c) (agentExchange uuidv4 gemini settings topic captured)
    (fun _ => agentInv uuidv4 (c + 1))
    (fun _ st => agentInv uuidv4 c st ∨ agentInv uuidv4 (c + 1) st).
Proof.
  unfold agentExchange.
  eapply triple_bind with (Q1 := fun _ => agentInv uuidv4 c).
  { destruct (pendingQuestion _) as [lastTurn|].
    - apply triple_resolve. auto.
    - eapply triple_bind with (Q1 := fun _ => agentInv uuidv4 c).
      + eapply triple_weaken; [by apply triple_createTurnFromStream|auto..].
      + intros [[turn|] ?]; [apply triple_resolve|apply triple_throw]; auto. }
  intros [questionTurn contextForTeacher].
  eapply triple_bind with (Q1 := fun _ => agentInv uuidv4 (c + 1)).
  { eapply triple_weaken; [apply triple_addTurnIn|auto|done]. }
  intros teacherTurn.
  eapply triple_bind with (Q1 := fun _ => agentInv uuidv4 (c + 1)).
  { apply triple_await. intros st Hinv. destruct (getTeacherResponse _ _ _ _ _); auto. }
  intros response.
  eapply triple_bind with (Q1 := fun _ => agentInv uuidv4 (c + 1)).
  { apply triple_update. intros st Hinv. by apply agentInv_updateTurn. }
  intros _. destruct (resp_functionCall response).
  { eapply triple_bind with (Q1 := fun _ => agentInv uuidv4 (c + 1)).
    - apply triple_update. intros st Hinv. by apply agentInv_setSessionState_paused.
    - intros _. apply triple_update. intros st Hinv. by apply agentInv_setIsAgentRunning. }
  destruct (isValidationTurn _ _); [|apply triple_resolve; auto].
  eapply triple_bind with (Q1 := fun _ => agentInv uuidv4 (c + 1)).
  { eapply triple_weaken; [apply triple_addTurnIn|cbn; intros ? ?; by rewrite Z.add_0_r|done]. }
  intros validatorTurn.
  eapply triple_bind with (Q1 := fun _ => agentInv uuidv4 (c + 1)).
  { apply triple_await. intros st Hinv. destruct (getValidatorFeedback _ _ _ _ _); auto. }
  intros feedback. apply triple_update. intros st Hinv. by apply agentInv_updateTurn.
Qed.

(** The exchange never resolves in [running_auto] without its teacher
    turn, and never leaves the ref up for the caller. *)
Lemma runAgentTurn_below_max gemini settings topic c st :
  isAgentRunning st = false →
  agentInv uuidv4 c st →
  c < maxTurns settings →
  let st' := runAgentTurn uuidv4 gemini settings topic st in
  isAgentRunning st' = false
  ∧ (agentInv uuidv4 c st' ∨ agentInv uuidv4 (c + 1) st')
  ∧ (sessionState st' = running_auto → agentInv uuidv4 (c + 1) st').
Proof.
  intros Hflag Hinv Hlt st'. unfold st', runAgentTurn. rewrite Hflag.
  destruct Hinv as (Hfresh & Hcount & Hstate). unfold teacherCount in Hcount.
  rewrite Hcount. destruct (Z.leb_spec (maxTurns settings) c); [lia|].
  pose proof (triple_agentExchange gemini settings topic st c
                (setIsAgentRunning true st)) as Hex.
  destruct (agentExchange uuidv4 gemini settings topic st (setIsAgentRunning true st))
    as [[e|[]] st1].
  - assert (agentInv uuidv4 c st1 ∨ agentInv uuidv4 (c + 1) st1) as Hst1.
    { apply Hex. by apply agentInv_setIsAgentRunning. }
    split; [done|]. split; [|done].
    destruct Hst1 as [H1|H1]; [left|right];
      by apply agentInv_setIsAgentRunning, agentInv_setSessionState_paused,
               agentInv_setError.
  - assert (agentInv uuidv4 (c + 1) st1) as Hst1.
    { apply Hex. by apply agentInv_setIsAgentRunning. }
    split; [done|]. split; [right|intros _]; by apply agentInv_setIsAgentRunning.
Qed.

(** At or past the limit [runAgentTurn] only moves the session to
    [finished]. *)
Lemma runAgentTurn_at_max gemini settings topic st :
  isAgentRunning st = false →
  maxTurns settings ≤ teacherCount st →
  runAgentTurn uuidv4 gemini settings topic st = setSessionState finished st.
Proof.
  intros Hflag Hle. unfold runAgentTurn. rewrite Hflag.
  unfold teacherCount in Hle. destruct (Z.leb_spec (maxTurns settings)
    (countTeacherTurns (turns st) (turnOrder st))); [|lia].
  destruct st. cbn in Hflag. by subst.
Qed.

End AgentTurn.

(** C1, what the code does.  The frequency number is parsed from the second
    piece of the setting split at underscores: ["every_turn"] gives
    ["turn"], which parses to NaN, so that validation is never due under
    [every_turn]; under [every_3_turns] and [every_5_turns] it is due when
    the count is a multiple of 3 or 5, and never under [disabled].  The
    count [runAgentTurn] passes is the one of the store its closure
    captured, taken before the teacher turn of the exchange was added: the
    first exchange of a session is validated under [every_3_turns] (its
    teacher turn is the first), and it is not under [every_turn]. *)
Theorem isValidationTurn_by_frequency (currentTeacherTurns : Z) :
  isValidationTurn disabled currentTeacherTurns = false
  ∧ isValidationTurn every_turn currentTeacherTurns = false
  ∧ isValidationTurn every_3_turns currentTeacherTurns
    = (Z.rem currentTeacherTurns 3 =? 0)
  ∧ isValidationTurn every_5_turns currentTeacherTurns
    = (Z.rem currentTeacherTurns 5 =? 0)
  ∧ rolesInOrder (runAgentTurn sampleUuid sampleGemini
                    (sampleSettings every_3_turns 10) "osmosis" startedState)
    = [Some starter; Some student; Some teacher; Some validator]
  ∧ isDue_spec 1 every_3_turns = false
  ∧ rolesInOrder (runAgentTurn sampleUuid sampleGemini
                    (sampleSettings every_turn 10) "osmosis" startedState)
    = [Some starter; Some student; Some teacher]
  ∧ isDue_spec 1 every_turn = true.
Proof. repeat split; by vm_compute. Qed.

(* ===================================================================== *)
(** * 13. The statements on the sample inputs                             *)
(* ===================================================================== *)



(** The rotation skips ["short"], asks with the valid-looking key and
    stops there. *)
Lemma rotation_returns_first_well_formed_result_witness :
  ∃ trace,
    withApiKeyRotation (["short"] ++ validLookingKey :: ["AIzaANOTHERVALIDLOOKINGKEYYYYYYYYY"])
      (Some [valid; exhausted; valid]) acceptingCall 0%nat
    = (inr ("reply for " +:+ validLookingKey), 1%nat, trace)
    ∧ apiCallsOf trace = [(length ["short"], validLookingKey)]
    ∧ last trace = Some (ActiveKeyUpdate None).
Proof.
  apply (rotation_returns_first_well_formed_result acceptingCall
           ["short"] ["AIzaANOTHERVALIDLOOKINGKEYYYYYYYYY"] validLookingKey
           (Some [valid; exhausted; valid]) 0%nat
           ("reply for " +:+ validLookingKey) 1%nat).
  - constructor; [left; vm_compute; lia|constructor].
  - vm_compute. lia.
  - reflexivity.
  - reflexivity.
Defined.

(** With no key at all the rotation rejects with the no-key error, not
    with the all-keys-invalid one. *)
Lemma rotation_on_no_key_is_not_all_invalid :
  ¬ (∀ (apiKeys : list string) (apiCall : string → nat → (Thrown + string) * nat) w,
       Forall (fun k => truthy (trim k) = true →
                        (String.length k < 30)%nat ∨ startsWith k "AIza" = false) apiKeys →
       ∃ trace,
         withApiKeyRotation apiKeys None apiCall w =
           (inl (ApiKeyError "All configured API keys failed client-side validation and were skipped. Please check your keys in Settings."), w, trace)
         ∧ apiCallsOf trace = []).
Proof.
  intros H. destruct (H [] acceptingCall 0%nat) as (trace & Hrun & _); [constructor|].
  vm_compute in Hrun. discriminate Hrun.
Qed.

Lemma rotation_rejects_when_all_candidates_invalid_witness :
  ∃ trace,
    withApiKeyRotation ["short"; "   "; "AIzaTooShort"] None acceptingCall 0%nat =
      (inl (ApiKeyError "All configured API keys failed client-side validation and were skipped. Please check your keys in Settings."), 0%nat, trace)
    ∧ apiCallsOf trace = [].
Proof.
  apply (rotation_rejects_when_all_candidates_invalid acceptingCall
           ["short"; "   "; "AIzaTooShort"] None 0%nat).
  - left. reflexivity.
  - constructor; [intros _; left; vm_compute; lia|].
    constructor; [intros _; left; vm_compute; lia|].
    constructor; [intros _; left; vm_compute; lia|constructor].
Defined.

(** A request rejected with [undefined] is a failed attempt, yet the error
    of the rotation is the general one: it names no index, no key and no
    message. *)
Lemma rotation_on_falsy_rejection_reports_no_key :
  ¬ (∀ (apiCall : string → nat → (Thrown + string) * nat)
       (pre post : list string) (k : string) w,
       (30 ≤ String.length k)%nat →
       startsWith k "AIza" = true →
       Forall (fun k' => truthy (trim k') = true →
                         (String.length k' < 30)%nat ∨ startsWith k' "AIza" = false) post →
       match withApiKeyRotation (pre ++ k :: post) None apiCall w with
       | (inr r, w', trace) =>
           ∃ i k0 w0, (i, k0) ∈ apiCallsOf trace ∧ apiCall k0 w0 = (inr r, w')
       | (inl err, w', trace) =>
           ∃ e w0 w1,
             apiCall k w0 = (inl e, w1)
             ∧ err = Error ("API call failed using key at index "
                            +:+ numberToString (length pre)
                            +:+ " (key: " +:+ String.substring 0 4 k +:+ "..."
                            +:+ String.substring (String.length k - 4) 4 k
                            +:+ "). Raw Error: " +:+ errorMessage e)
             ∧ last (apiCallsOf trace) = Some (length pre, k)
             ∧ Forall (fun c => (30 ≤ String.length c.2)%nat
                                ∧ startsWith c.2 "AIza" = true)
                      (apiCallsOf trace)
       end).
Proof.
  intros H.
  assert (withApiKeyRotation (["short"] ++ validLookingKey :: []) None falsyCall 0%nat
          = (inl (Error "All available API keys failed. Please check your keys in Settings and your network connection."),
             1%nat,
             [ConsoleWarn "Skipping key at index 0 because it appears to be invalid.";
              ActiveKeyUpdate (Some 1%nat);
              ApiCallWith 1 validLookingKey;
              ConsoleError "API call with key at index 1 failed: undefined";
              ActiveKeyUpdate None])) as Hrun by (vm_compute; reflexivity).
  specialize (H falsyCall ["short"] [] validLookingKey 0%nat).
  rewrite Hrun in H.
  destruct H as (e & w0 & w1 & _ & Herr & _).
  - vm_compute. lia.
  - reflexivity.
  - constructor.
  - apply (f_equal (fun err => String.get 1 (errorMessage err))) in Herr.
    vm_compute in Herr. discriminate Herr.
Qed.

(** The scenario of the specification: ["short"] is skipped, the request
    with the valid-looking key is rejected, and the error names index 1 and
    shows [AIza...XXXX]. *)
Lemma rotation_failure_reports_last_attempted_key_witness :
  ∃ e w0 w1,
    rejectingCall validLookingKey w0 = (inl e, w1)
    ∧ Error "API call failed using key at index 1 (key: AIza...XXXX). Raw Error: quota exceeded"
      = Error ("API call failed using key at index " +:+ numberToString (length ["short"])
               +:+ " (key: " +:+ String.substring 0 4 validLookingKey +:+ "..."
               +:+ String.substring (String.length validLookingKey - 4) 4 validLookingKey
               +:+ "). Raw Error: " +:+ errorMessage e)
    ∧ last (apiCallsOf
              [ConsoleWarn "Skipping key at index 0 because it appears to be invalid.";
               ActiveKeyUpdate (Some 1%nat);
               ApiCallWith 1 validLookingKey;
               ConsoleError "API call with key at index 1 failed: quota exceeded";
               ActiveKeyUpdate None])
      = Some (length ["short"], validLookingKey)
    ∧ Forall (fun c => (30 ≤ String.length c.2)%nat ∧ startsWith c.2 "AIza" = true)
        (apiCallsOf
           [ConsoleWarn "Skipping key at index 0 because it appears to be invalid.";
            ActiveKeyUpdate (Some 1%nat);
            ApiCallWith 1 validLookingKey;
            ConsoleError "API call with key at index 1 failed: quota exceeded";
            ActiveKeyUpdate None]).
Proof.
  apply (rotation_failure_reports_last_attempted_key rejectingCall
           ["short"] [] validLookingKey None 0%nat).
  - vm_compute. lia.
  - reflexivity.
  - constructor.
  - intros w0 e w1 [= <- _]. reflexivity.
Defined.

(** The store of the sample chat has no turn under ["late"]: an update of
    it adds one. *)
Lemma updateTurn_absent_id_is_not_a_no_op :
  ¬ (∀ st id updates,
       turns st !! id = None →
       turns (updateTurn id updates st) = turns st
       ∧ turnOrder (updateTurn id updates st) = turnOrder st).
Proof.
  intros H.
  destruct (H chatState "late" (with_content "too late" emptyObject) eq_refl) as [Hturns _].
  apply (f_equal (fun m => m !! "late")) in Hturns. vm_compute in Hturns.
  discriminate Hturns.
Qed.

Lemma updateTurn_absent_id_adds_partial_entry_witness :
  turns (updateTurn "late" (with_content "too late" emptyObject) chatState)
  = <["late" := with_content "too late" emptyObject]> (turns chatState)
  ∧ turns (updateTurn "late" (with_content "too late" emptyObject) chatState) !! "late"
    = Some (with_content "too late" emptyObject)
  ∧ (∀ other, other ≠ "late" →
       turns (updateTurn "late" (with_content "too late" emptyObject) chatState) !! other
       = turns chatState !! other)
  ∧ sameButTurns chatState
      (updateTurn "late" (with_content "too late" emptyObject) chatState).
Proof.
  apply (updateTurn_absent_id_adds_partial_entry chatState "late"
           (with_content "too late" emptyObject)).
  reflexivity.
Defined.

(** After the first exchange under [every_3_turns] the store ends with a
    validator turn whose content is empty; the code renders it, the
    specification's window leaves it out. *)
Lemma getContextString_keeps_empty_content :
  ¬ (∀ settings st,
       getContextString settings st
       = windowedContext_spec (Z.to_nat (CONTEXT_WINDOW_SIZES (contextWindow settings))) st).
Proof.
  intros H.
  specialize (H (sampleSettings every_3_turns 10)
                (runAgentTurn sampleUuid sampleGemini (sampleSettings every_3_turns 10)
                   "osmosis" startedState)).
  vm_compute in H. discriminate H.
Qed.

(** The window of four over six turns is the last four, in order. *)
Example getContextString_six_turns :
  getContextString (sampleSettings disabled 10) sixTurns
  = "[user]" +:+ LF +:+ "m3" +:+ LF +:+ LF +:+ "[user]" +:+ LF +:+ "m4" +:+ LF +:+ LF
    +:+ "[user]" +:+ LF +:+ "m5" +:+ LF +:+ LF +:+ "[user]" +:+ LF +:+ "m6".
Proof. by vm_compute. Qed.

Lemma createTurnFromStream_assembles_deltas_witness :
  let uuid := sampleUuid (uuidCount initialState) in
  let turnData := with_role student emptyObject in
  let created := with_id uuid (with_isStreaming true (with_content "a" turnData)) in
  ∃ st',
    createTurnFromStream sampleUuid turnData
      {| chunks := ["a"; "b"; "c"]; failure := None |} initialState
    = (inr (Some created, String.concat "" ["a"; "b"; "c"]), st')
    ∧ turns st' =
      <[uuid := with_id uuid
                  (with_isStreaming false
                     (with_content (String.concat "" ["a"; "b"; "c"]) turnData))]>
        (turns initialState)
    ∧ turnOrder st' = turnOrder initialState ++ [uuid]
    ∧ size (turns st') = S (size (turns initialState))
    ∧ ∀ n,
        turns (forAwaitChunks uuid "a" (take n ["b"; "c"])
                 (addTurn sampleUuid (with_isStreaming true (with_content "a" turnData))
                    initialState).2).2 !! uuid
        = Some (with_id uuid
                  (with_isStreaming true
                     (with_content (String.concat "" ("a" :: take n ["b"; "c"])) turnData))).
Proof.
  apply (createTurnFromStream_assembles_deltas sampleUuid (with_role student emptyObject)
           ["a"; "b"; "c"] initialState).
  reflexivity.
Defined.

(** The three deltas end up as ["abc"] in a turn that no longer streams. *)
Example createTurnFromStream_abc :
  let st := (createTurnFromStream sampleUuid (with_role student emptyObject)
               {| chunks := ["a"; "b"; "c"]; failure := None |} initialState).2 in
  turnOrder st = ["turn-0"]
  ∧ (turns st !! "turn-0") ≫= content = Some "abc"
  ∧ (turns st !! "turn-0") ≫= isStreaming = Some false.
Proof. by vm_compute. Qed.

Lemma handleResend_truncates_before_target_witness :
  ∃ pre post,
    turnOrder chatState = pre ++ "turn-0" :: post
    ∧ ("turn-0" ∉ pre)
    ∧ turnOrder (handleResend "turn-0" chatState) = pre
    ∧ (∀ k, turns (handleResend "turn-0" chatState) !! k
            = if decide (k ∈ pre) then turns chatState !! k else None)
    ∧ turns (handleResend "turn-0" chatState) !! "turn-0" = None
    ∧ resendPayload (handleResend "turn-0" chatState)
      = Some (content (with_id "turn-0" (with_content "q1" (with_role user emptyObject))),
              default [] (attachments
                            (with_id "turn-0" (with_content "q1" (with_role user emptyObject)))))
    ∧ (∀ uuidv4 gemini settings,
         interactionMode settings = agent →
         let sent := resendEffect uuidv4 gemini settings (handleResend "turn-0" chatState) in
         let uuid := uuidv4 (uuidCount chatState) in
         turnOrder sent = pre ++ [uuid]
         ∧ turns sent
           = <[uuid := with_id uuid
                         (with_attachments
                            (default [] (attachments
                               (with_id "turn-0"
                                  (with_content "q1" (with_role user emptyObject)))))
                            (with_content_read
                               (content (with_id "turn-0"
                                           (with_content "q1" (with_role user emptyObject))))
                               (with_role user emptyObject)))]>
               (turns (handleResend "turn-0" chatState))
         ∧ resendPayload sent = None
         ∧ sessionState sent = running_auto).
Proof.
  apply (handleResend_truncates_before_target chatState "turn-0"
           (with_id "turn-0" (with_content "q1" (with_role user emptyObject)))).
  - reflexivity.
  - reflexivity.
  - apply list_elem_of_here.
Defined.

(** Resending [q1] of [q1, a1, q2] empties the store; the effect then
    appends the new user turn alone. *)
Example handleResend_first_turn_empties_store :
  turnOrder (handleResend "turn-0" chatState) = []
  ∧ turns (handleResend "turn-0" chatState) = ∅
  ∧ rolesInOrder (resendEffect sampleUuid sampleGemini (sampleSettings disabled 10)
                    (handleResend "turn-0" chatState)) = [Some user].
Proof. by vm_compute. Qed.

(* ===================================================================== *)
(** * 14. Further properties of the API-key rotation                      *)
(* ===================================================================== *)

Section RotationMore.
Context {W T : Type}.
Variable apiCall : string → W → (Thrown + T) * W.

Lemma candidatesFrom_all_blank offset apiKeys :
  Forall (fun k => truthy (trim k) = false) apiKeys → candidatesFrom offset apiKeys = [].
Proof.
  intros H. revert offset. induction H as [|k l Hk _ IH]; intros offset; [done|].
  rewrite candidatesFrom_cons, Hk, andb_false_r. apply IH.
Qed.

(** X1.  When every key is empty after trimming (no key at all included),
    the rotation rejects with the no-key [ApiKeyError] at once: no request
    is made, no notification is sent and the remote state is untouched. *)
Theorem rotation_without_candidate_rejects_at_once apiKeys statuses w :
  Forall (fun k => truthy (trim k) = false) apiKeys →
  withApiKeyRotation apiKeys statuses apiCall w =
  (inl (ApiKeyError "No API Key has been configured. Please go to Settings, add a valid Gemini API key, and apply your changes."), w, []).
Proof.
  intros H. unfold withApiKeyRotation.
  by rewrite keysToTry_candidatesFrom, candidatesFrom_all_blank.
Qed.

(** The indices of the candidates are those of the list, in order. *)
Lemma candidatesFrom_indices offset apiKeys :
  (snd <$> candidatesFrom offset apiKeys) `sublist_of` seq offset (length apiKeys).
Proof.
  revert offset. induction apiKeys as [|k l IH]; intros offset; [done|].
  rewrite candidatesFrom_cons. cbn [length seq].
  destruct (truthy k && truthy (trim k))%bool; cbn [app fmap list_fmap snd].
  - apply sublist_skip, IH.
  - apply sublist_cons, IH.
Qed.

(** The attempts of the loop follow the order of its candidates. *)
Lemma rotationLoop_calls_in_order cs locals w trace out w' trace' :
  rotationLoop apiCall cs locals w trace = (out, w', trace') →
  ∃ calls, apiCallsOf trace' = apiCallsOf trace ++ calls
           ∧ calls `sublist_of` ((fun c => (c.2, c.1)) <$> cs).
Proof.
  revert locals w trace. induction cs as [|[k i] cs IH]; intros locals w trace Hrun.
  - injection Hrun as _ _ <-. exists []. by rewrite app_nil_r.
  - cbn [rotationLoop] in Hrun. destruct (appearsInvalid k) eqn:Hk.
    + apply IH in Hrun as (calls & -> & Hsub). exists calls.
      rewrite apiCallsOf_app. cbn. rewrite app_nil_r. split; [done|].
      by apply sublist_cons.
    + destruct (apiCall k w) as [[e|r] w1].
      * apply IH in Hrun as (calls & -> & Hsub). exists ((i, k) :: calls).
        rewrite !apiCallsOf_app. cbn. rewrite app_nil_r, <- app_assoc. split; [done|].
        by apply sublist_skip.
      * injection Hrun as _ _ <-. exists [(i, k)].
        rewrite !apiCallsOf_app. cbn. rewrite app_nil_r. split; [done|].
        apply sublist_skip, sublist_nil_l.
Qed.

(** X2.  Whatever the request closure does, the remote attempts of one
    call are made in the order of the key list and at most once per
    position: their indices form a subsequence of [0, 1, ...]; each
    attempt is made with the key found at its index, and that key has
    thirty characters or more and starts with the known prefix. *)
Theorem rotation_attempts_follow_key_order apiKeys statuses w :
  let trace := (withApiKeyRotation apiKeys statuses apiCall w).2 in
  (fst <$> apiCallsOf trace) `sublist_of` seq 0 (length apiKeys)
  ∧ Forall (fun c => apiKeys !! c.1 = Some c.2
                     ∧ (30 ≤ String.length c.2)%nat ∧ startsWith c.2 "AIza" = true)
           (apiCallsOf trace).
Proof.
  unfold withApiKeyRotation. rewrite keysToTry_candidatesFrom.
  destruct (Nat.eqb (length (candidatesFrom 0 apiKeys)) 0).
  { cbn. split; [apply sublist_nil_l|constructor]. }
  destruct (rotationLoop apiCall _ _ w []) as [[out w'] trace'] eqn:Hrun.
  pose proof (rotationLoop_calls_in_order _ _ _ _ _ _ _ Hrun) as (calls & Hcalls & Hsub).
  pose proof (rotationLoop_calls _ _ _ _ _ _ _ _ Hrun) as (calls' & Hcalls' & Hall).
  cbn [apiCallsOf omap list_omap app] in Hcalls, Hcalls'.
  assert (calls' = calls) as -> by congruence.
  assert ((fst <$> calls) `sublist_of` seq 0 (length apiKeys)
          ∧ Forall (fun c => apiKeys !! c.1 = Some c.2
                     ∧ (30 ≤ String.length c.2)%nat ∧ startsWith c.2 "AIza" = true) calls)
    as Hgoal.
  { split.
    - etrans; [|apply (candidatesFrom_indices 0)].
      apply (fmap_sublist fst) in Hsub. rewrite <- list_fmap_compose in Hsub.
      by erewrite (list_fmap_ext _ snd) in Hsub.
    - eapply Forall_impl; [exact Hall|]. intros [i k] [Hk Hin]. cbn in *.
      apply candidatesFrom_elem in Hin as (_ & Hlook & _).
      rewrite Nat.sub_0_r in Hlook. split; [done|]. by apply (appearsInvalid_false apiCall). }
  destruct out as [r|locals]; cbn [snd].
  - by rewrite Hcalls.
  - destruct (whenTruthy (lastError locals)); [|destruct (_ && _)%bool]; cbn [snd];
      by rewrite apiCallsOf_app, Hcalls, app_nil_r.
Qed.

Lemma rotationLoop_returned_clears cs locals w trace r w' trace' :
  rotationLoop apiCall cs locals w trace = (Returned r, w', trace') →
  last trace' = Some (ActiveKeyUpdate None).
Proof.
  revert locals w trace. induction cs as [|[k i] cs IH]; intros locals w trace Hrun.
  - discriminate Hrun.
  - cbn [rotationLoop] in Hrun. destruct (appearsInvalid k); [by apply IH in Hrun|].
    destruct (apiCall k w) as [[e|r0] w1]; [by apply IH in Hrun|].
    injection Hrun as _ _ <-. by rewrite last_snoc.
Qed.

(** X3.  A call that took up at least one key ends by clearing the active
    key, whether it resolves or rejects; a call that finds no key to try
    sends no notification at all. *)
Theorem rotation_always_clears_active_key apiKeys statuses w :
  let trace := (withApiKeyRotation apiKeys statuses apiCall w).2 in
  (keysToTry apiKeys = [] ∧ trace = [])
  ∨ (keysToTry apiKeys ≠ [] ∧ last trace = Some (ActiveKeyUpdate None)).
Proof.
  unfold withApiKeyRotation.
  destruct (keysToTry apiKeys) as [|c cs] eqn:Hcs; [by left|right].
  split; [done|]. cbn [length Nat.eqb].
  destruct (rotationLoop apiCall _ _ w []) as [[[r|locals] w'] trace'] eqn:Hrun.
  - cbn [snd]. by eapply rotationLoop_returned_clears.
  - destruct (whenTruthy (lastError locals)); [|destruct (_ && _)%bool]; cbn [snd];
      by rewrite last_snoc.
Qed.

(** When the loop runs out, either no request was made, no error was
    caught and every candidate was skipped, or a request was made, what it
    was rejected with is kept and not every candidate was skipped. *)
Lemma rotationLoop_ran_out cs locals w trace locals' w' trace' :
  rotationLoop apiCall cs locals w trace = (RanOut locals', w', trace') →
  (lastError locals' = lastError locals
   ∧ apiCallsOf trace' = apiCallsOf trace
   ∧ length (validationErrors locals') = (length (validationErrors locals) + length cs)%nat)
  ∨ (is_Some (lastError locals') ∧ apiCallsOf trace' ≠ apiCallsOf trace
     ∧ (length (validationErrors locals')
        < length (validationErrors locals) + length cs)%nat).
Proof.
  revert locals w trace. induction cs as [|[k i] cs IH]; intros locals w trace Hrun.
  - injection Hrun as <- _ <-. left. cbn. by rewrite Nat.add_0_r.
  - cbn [rotationLoop] in Hrun. destruct (appearsInvalid k).
    + apply IH in Hrun as [(He & Hc & Hl)|(He & Hc & Hl)].
      * left. cbn [lastError validationErrors] in *. rewrite He, Hc, Hl.
        rewrite apiCallsOf_app, length_app. cbn. rewrite app_nil_r. repeat split; lia.
      * right. split; [done|]. split; [by rewrite apiCallsOf_app, app_nil_r in Hc|].
        cbn [validationErrors length] in *. rewrite length_app in Hl. cbn in Hl. lia.
    + destruct (apiCall k w) as [[e|r] w1]; [|done]. right.
      pose proof (rotationLoop_calls _ _ _ _ _ _ _ _ Hrun) as (calls & Hcalls & _).
      rewrite !apiCallsOf_app in Hcalls. cbn in Hcalls.
      rewrite app_nil_r, <- app_assoc in Hcalls. split; [|split].
      * apply IH in Hrun as [(He & _)|[He _]]; [by rewrite He|done].
      * rewrite Hcalls. intros Heq. apply (f_equal length) in Heq.
        rewrite length_app in Heq. cbn in Heq. lia.
      * apply IH in Hrun as [(_ & _ & Hl)|(_ & _ & Hl)];
          cbn [validationErrors length] in *; lia.
Qed.

(** X4.  When the rotation rejects, the class of the error tells whether
    the remote service was reached: it is an [ApiKeyError] exactly when no
    request was made, and a plain [Error] exactly when at least one was. *)
Theorem rotation_ApiKeyError_iff_no_attempt apiKeys statuses w :
  match withApiKeyRotation apiKeys statuses apiCall w with
  | (inl (ErrorObject ApiKeyErrorClass _), _, trace) => apiCallsOf trace = []
  | (inl (ErrorObject PlainError _), _, trace) => apiCallsOf trace ≠ []
  | (inl (ThrownValue _), _, _) => False
  | (inl (FalsyValue _), _, _) => False
  | (inr _, _, _) => True
  end.
Proof.
  unfold withApiKeyRotation.
  destruct (Nat.eqb (length (keysToTry apiKeys)) 0) eqn:Hlen; [done|].
  destruct (rotationLoop apiCall _ _ w []) as [[[r|locals] w'] trace'] eqn:Hrun; [done|].
  apply rotationLoop_ran_out in Hrun as [(He & Hc & Hl)|([e He] & Hc & Hl)].
  - cbn [lastError validationErrors length] in *. rewrite He, Hl. cbn [Nat.add whenTruthy].
    rewrite Nat.eqb_refl, andb_true_r.
    destruct (length (keysToTry apiKeys)); [done|]. cbn.
    by rewrite apiCallsOf_app, Hc.
  - rewrite He. cbn [whenTruthy validationErrors length Nat.add] in *.
    assert (apiCallsOf (trace' ++ [ActiveKeyUpdate None]) ≠ []) as Hcalls.
    { rewrite apiCallsOf_app. cbn. by rewrite app_nil_r. }
    destruct (isTruthy e); [done|].
    destruct (Nat.eqb_spec (length (validationErrors locals))
                (length (keysToTry apiKeys))) as [Heq|_]; [lia|].
    by rewrite andb_false_r.
Qed.

(** X5.  Failover.  When each key before [k] is either malformed or one on
    which the request is rejected whatever the remote state is, and the
    request resolves with [r] on the well-formed key [k], the rotation
    resolves with [r]; the last request is the one made with [k], and no
    request is made with a key after it. *)
Theorem rotation_fails_over_to_first_resolving_key
    (pre post : list string) (k : string) statuses w r :
  Forall (fun k' => (String.length k' < 30)%nat ∨ startsWith k' "AIza" = false
                    ∨ ∀ w0, ∃ e w1, apiCall k' w0 = (inl e, w1)) pre →
  (30 ≤ String.length k)%nat →
  startsWith k "AIza" = true →
  (∀ w0, ∃ w1, apiCall k w0 = (inr r, w1)) →
  ∃ w' trace,
    withApiKeyRotation (pre ++ k :: post) statuses apiCall w = (inr r, w', trace)
    ∧ last (apiCallsOf trace) = Some (length pre, k)
    ∧ Forall (fun c => (c.1 ≤ length pre)%nat) (apiCallsOf trace).
Proof.
  intros Hpre Hlen Hprefix Hcall.
  assert (appearsInvalid k = false) as Hk by (by apply (appearsInvalid_false apiCall)).
  assert (∀ cs locals w0 trace,
            Forall (fun c : string * nat =>
                      appearsInvalid c.1 = true ∨ ∀ w0, ∃ e w1, apiCall c.1 w0 = (inl e, w1)) cs →
            ∃ locals' w1 trace', rotationLoop apiCall cs locals w0 trace
                                 = (RanOut locals', w1, trace')) as Hfail.
  { induction cs as [|[k' i] cs IH]; intros locals w0 trace Hcs.
    - by eexists _, _, _.
    - apply Forall_cons in Hcs as [Hc Hcs]. cbn [rotationLoop]. cbn in Hc.
      destruct (appearsInvalid k') eqn:Hk'; [by apply IH|].
      destruct Hc as [?|Hc]; [done|]. destruct (Hc w0) as (e & w1 & ->). by apply IH. }
  assert (Forall (fun c : string * nat =>
                    appearsInvalid c.1 = true ∨ ∀ w0, ∃ e w1, apiCall c.1 w0 = (inl e, w1))
                 (candidatesFrom 0 pre)) as Hcs.
  { apply Forall_forall. intros [k' i] Hin.
    apply candidatesFrom_elem in Hin as (_ & Hlook & _).
    apply list_elem_of_lookup_2 in Hlook.
    rewrite Forall_forall in Hpre. cbn.
    destruct (Hpre _ Hlook) as [H|[H|H]]; [left|left|by right];
      apply (appearsInvalid_true apiCall); auto. }
  unfold withApiKeyRotation.
  rewrite keysToTry_candidatesFrom, candidatesFrom_app, candidatesFrom_cons.
  rewrite (wellFormed_is_candidate k Hk). cbn [app].
  rewrite length_app_cons_eqb, rotationLoop_app.
  destruct (Hfail (candidatesFrom 0 pre)
              {| lastError := None; lastErrorKeyInfo := {| key := ""; index := -1 |};
                 validationErrors := [] |} w [] Hcs) as (locals1 & w1 & trace1 & Hrun).
  rewrite Hrun. cbn [rotationLoop]. rewrite Hk.
  destruct (Hcall w1) as (w2 & ->). eexists _, _. split; [done|].
  apply rotationLoop_calls in Hrun as (calls1 & Hcalls1 & Hall1).
  rewrite !apiCallsOf_app, Hcalls1. cbn. rewrite ?app_nil_r, ?Nat.add_0_l.
  split; [by rewrite last_snoc|].
  apply Forall_app. split; [|by repeat constructor].
  eapply Forall_impl; [exact Hall1|]. intros [i k'] [_ Hin]. cbn in *.
  apply candidatesFrom_elem in Hin as (_ & Hlook & _).
  apply lookup_lt_Some in Hlook. lia.
Qed.

End RotationMore.

Lemma rotation_without_candidate_rejects_at_once_witness :
  withApiKeyRotation [""; "   "] (Some [valid; valid]) acceptingCall 0%nat =
  (inl (ApiKeyError "No API Key has been configured. Please go to Settings, add a valid Gemini API key, and apply your changes."), 0%nat, []).
Proof.
  apply (rotation_without_candidate_rejects_at_once acceptingCall [""; "   "]
           (Some [valid; valid]) 0%nat).
  constructor; [reflexivity|]. constructor; [reflexivity|constructor].
Defined.

Lemma rotation_fails_over_to_first_resolving_key_witness :
  ∃ w' trace,
    withApiKeyRotation (["short"; validLookingKey] ++ anotherValidLookingKey :: [validLookingKey])
      None pickyCall 0%nat
    = (inr ("reply for " +:+ anotherValidLookingKey), w', trace)
    ∧ last (apiCallsOf trace) = Some (length ["short"; validLookingKey], anotherValidLookingKey)
    ∧ Forall (fun c => (c.1 ≤ length ["short"; validLookingKey])%nat) (apiCallsOf trace).
Proof.
  apply (rotation_fails_over_to_first_resolving_key pickyCall
           ["short"; validLookingKey] [validLookingKey] anotherValidLookingKey None 0%nat
           ("reply for " +:+ anotherValidLookingKey)).
  - constructor; [left; vm_compute; lia|].
    constructor; [|constructor].
    right. right. intros w0. exists (Error "quota exceeded"), (S w0). reflexivity.
  - vm_compute. lia.
  - reflexivity.
  - intros w0. exists (S w0). reflexivity.
Defined.

(* ===================================================================== *)
(** * 15. Further properties of the turn store                            *)
(* ===================================================================== *)

Lemma elem_of_remove_filter (id : string) (order : list string) k :
  k ∈ List.filter (fun turnId => negb (String.eqb turnId id)) order ↔ k ∈ order ∧ k ≠ id.
Proof.
  rewrite !list_elem_of_In, List.filter_In, negb_true_iff, String.eqb_neq. done.
Qed.

Lemma sublist_remove_filter (id : string) (order : list string) :
  List.filter (fun turnId => negb (String.eqb turnId id)) order `sublist_of` order.
Proof.
  induction order as [|x order IH]; [done|]. cbn [List.filter].
  destruct (negb (String.eqb x id)); [by apply sublist_skip|by apply sublist_cons].
Qed.

Lemma remove_filter_absent (id : string) (order : list string) :
  id ∉ order → List.filter (fun turnId => negb (String.eqb turnId id)) order = order.
Proof.
  induction order as [|x order IH]; [done|]. intros [Hne Hin]%not_elem_of_cons.
  cbn [List.filter]. assert (String.eqb x id = false) as ->
    by (apply String.eqb_neq; congruence).
  cbn [negb]. by rewrite IH.
Qed.

(** X6.  [removeTurn] takes the turn out of the map and every occurrence of
    its id out of the order; the other turns keep their entry and their
    relative position, and no other cell of the state changes. *)
Theorem removeTurn_removes_only_target id st :
  turns (removeTurn id st) !! id = None
  ∧ (id ∉ turnOrder (removeTurn id st))
  ∧ (∀ k, k ≠ id → turns (removeTurn id st) !! k = turns st !! k)
  ∧ (∀ k, k ≠ id → (k ∈ turnOrder (removeTurn id st) ↔ k ∈ turnOrder st))
  ∧ turnOrder (removeTurn id st) `sublist_of` turnOrder st
  ∧ sessionState (removeTurn id st) = sessionState st
  ∧ error (removeTurn id st) = error st
  ∧ resendPayload (removeTurn id st) = resendPayload st
  ∧ isAgentRunning (removeTurn id st) = isAgentRunning st
  ∧ uuidCount (removeTurn id st) = uuidCount st.
Proof.
  unfold removeTurn.
  cbn [turns turnOrder sessionState error resendPayload isAgentRunning uuidCount
       setTurns setTurnOrder].
  split; [apply lookup_delete_eq|]. split.
  { rewrite elem_of_remove_filter. by intros [_ ?]. }
  split; [intros k Hne; by apply lookup_delete_ne|]. split.
  { intros k Hne. rewrite elem_of_remove_filter. split; [by intros [? _]|by split]. }
  split; [apply sublist_remove_filter|done].
Qed.

(** X7.  Removing the turn that [addTurn] has just added, under an id that
    was new to the store, gives back the map and the order as they were. *)
Theorem removeTurn_undoes_addTurn uuidv4 turn st :
  turns st !! uuidv4 (uuidCount st) = None →
  uuidv4 (uuidCount st) ∉ turnOrder st →
  let added := addTurn uuidv4 turn st in
  id added.1 = Some (uuidv4 (uuidCount st))
  ∧ turns (removeTurn (uuidv4 (uuidCount st)) added.2) = turns st
  ∧ turnOrder (removeTurn (uuidv4 (uuidCount st)) added.2) = turnOrder st.
Proof.
  intros Hmap Horder added. unfold added. rewrite addTurn_unfold. cbn [fst snd].
  split; [done|]. unfold removeTurn. cbn [turns turnOrder setTurns setTurnOrder].
  split; [by apply delete_insert_id|].
  rewrite List.filter_app. cbn [List.filter]. rewrite String.eqb_refl. cbn [negb].
  by rewrite app_nil_r, remove_filter_absent.
Qed.

Lemma override_assoc {A} (a b c : option A) :
  override c (override b a) = override (override c b) a.
Proof. by destruct c, b. Qed.

Lemma spread_assoc a b c : spread (spread a b) c = spread a (spread b c).
Proof. unfold spread. cbn. by rewrite !override_assoc. Qed.

(** X8.  Two updates of the same id amount to one update with the second
    partial object spread over the first, whether the id had a turn or
    not: a later update wins field by field and never loses a field that
    only the earlier one has set. *)
Theorem updateTurn_twice_is_one_spread id updates1 updates2 st :
  updateTurn id updates2 (updateTurn id updates1 st)
  = updateTurn id (spread updates1 updates2) st.
Proof.
  unfold updateTurn, setTurns. cbn [turns turnOrder sessionState error resendPayload
    isAgentRunning uuidCount].
  rewrite lookup_insert_eq, insert_insert_eq.
  change (default emptyObject (Some ?t)) with t. by rewrite spread_assoc.
Qed.

Lemma findIndex_absent v l : v ∉ l → findIndex v l = -1.
Proof.
  induction l as [|x l IH]; [done|]. intros [Hne Hin]%not_elem_of_cons.
  cbn [findIndex]. assert (String.eqb x v = false) as ->
    by (apply String.eqb_neq; congruence).
  by rewrite IH.
Qed.

(** What [handleResend] does, by cases on its guards. *)
Lemma handleResend_cases turnId st :
  handleResend turnId st = st
  ∨ ∃ pre post t,
      turnOrder st = pre ++ turnId :: post
      ∧ turns st !! turnId = Some t
      ∧ handleResend turnId st =
        setResendPayload (Some (content t, default [] (attachments t)))
          (setTurns (fun _ =>
             foldl (fun acc id => match turns st !! id with
                                  | Some t => <[id := t]> acc
                                  | None => acc
                                  end) ∅ pre)
             (setTurnOrder (fun _ => pre) st)).
Proof.
  unfold handleResend. destruct (turns st !! turnId) as [t|] eqn:Ht; [|by left].
  destruct (negb (isUser (role t))); [by left|].
  destruct (decide (turnId ∈ turnOrder st)) as [Hin|Hnin].
  - apply list_elem_of_split_l in Hin as (pre & post & Horder & Hpre). right.
    exists pre, post, t. split; [done|]. split; [done|].
    rewrite Horder, findIndex_first by done.
    destruct (Z.eqb_spec (Z.of_nat (length pre)) (-1)); [lia|]. by rewrite slice_prefix.
  - left. by rewrite findIndex_absent.
Qed.

Lemma listed_addTurn uuidv4 turn st : listed st → listed (addTurn uuidv4 turn st).2.
Proof.
  intros Hl id. rewrite addTurn_unfold. cbn [snd turns turnOrder].
  intros [Hin| ->%list_elem_of_singleton]%elem_of_app.
  - destruct (decide (id = uuidv4 (uuidCount st))) as [->|Hne].
    + rewrite lookup_insert_eq. by eexists.
    + rewrite lookup_insert_ne by done. by apply Hl.
  - rewrite lookup_insert_eq. by eexists.
Qed.

Lemma listed_updateTurn id updates st : listed st → listed (updateTurn id updates st).
Proof.
  intros Hl k Hin. unfold updateTurn in *. cbn [turns turnOrder setTurns] in *.
  destruct (decide (k = id)) as [->|Hne].
  - rewrite lookup_insert_eq. by eexists.
  - rewrite lookup_insert_ne by done. by apply Hl.
Qed.

Lemma listed_removeTurn id st : listed st → listed (removeTurn id st).
Proof.
  intros Hl k Hin. unfold removeTurn in *.
  cbn [turns turnOrder setTurns setTurnOrder] in *.
  apply elem_of_remove_filter in Hin as [Hin Hne].
  rewrite lookup_delete_ne by done. by apply Hl.
Qed.

Lemma listed_handleResend turnId st : listed st → listed (handleResend turnId st).
Proof.
  intros Hl. destruct (handleResend_cases turnId st)
    as [->|(pre & post & t & Horder & Ht & ->)]; [done|].
  intros k Hin. cbn [turns turnOrder setResendPayload setTurns setTurnOrder] in *.
  rewrite resend_reduce_lookup, decide_True by done.
  destruct (Hl k) as [t' Ht']; [rewrite Horder; apply elem_of_app; by left|].
  rewrite Ht'. by eexists.
Qed.

(** X9.  The operations on the store keep every id of the order backed by
    a turn of the map: adding, updating (present or absent id), removing
    and the truncation of a resend. *)
Theorem store_operations_keep_order_listed uuidv4 st :
  listed st →
  (∀ turn, listed (addTurn uuidv4 turn st).2)
  ∧ (∀ id updates, listed (updateTurn id updates st))
  ∧ (∀ id, listed (removeTurn id st))
  ∧ (∀ turnId, listed (handleResend turnId st)).
Proof.
  intros Hl. split; [|split; [|split]].
  - intros turn. by apply listed_addTurn.
  - intros id updates. by apply listed_updateTurn.
  - intros id. by apply listed_removeTurn.
  - intros turnId. by apply listed_handleResend.
Qed.

(** X10.  A stream that throws after some chunks makes
    [createTurnFromStream] reject with that error and leaves the turn it
    had created in the store, holding the chunks received and still marked
    as streaming; a stream that throws before its first chunk leaves the
    state as it was. *)
Theorem createTurnFromStream_failure_leaves_streaming_turn uuidv4 turnData received e st :
  let uuid := uuidv4 (uuidCount st) in
  let run := createTurnFromStream uuidv4 turnData
               {| chunks := received; failure := Some e |} st in
  run.1 = inl e
  ∧ match received with
    | [] => run.2 = st
    | first :: rest =>
        turns run.2 =
          <[uuid := with_id uuid
                      (with_isStreaming true
                         (with_content (String.concat "" received) turnData))]> (turns st)
        ∧ turnOrder run.2 = turnOrder st ++ [uuid]
        ∧ sessionState run.2 = sessionState st
    end.
Proof.
  intros uuid run. unfold run, createTurnFromStream. cbn [chunks failure].
  destruct received as [|first rest]; [done|].
  rewrite addTurn_unfold. fold uuid.
  set (created := with_id uuid (with_isStreaming true (with_content first turnData))).
  change (interpolate (id created)) with uuid.
  match goal with |- context [forAwaitChunks uuid first rest ?s] => set (st1 := s) end.
  destruct (forAwaitChunks_spec uuid first rest st1 created) as (st2 & Hrun & Hturns & Hsame).
  { unfold st1. cbn [turns]. apply lookup_insert_eq. }
  { done. }
  rewrite Hrun. cbn [fst snd]. split; [done|].
  destruct Hsame as (Horder & Hstate & _).
  rewrite Hturns, Horder, Hstate. unfold st1. cbn [turns turnOrder sessionState].
  rewrite insert_insert_eq, concat_empty_cons. done.
Qed.

Lemma removeTurn_undoes_addTurn_witness :
  let added := addTurn sampleUuid (with_content "q3" (with_role user emptyObject)) chatState in
  id added.1 = Some (sampleUuid (uuidCount chatState))
  ∧ turns (removeTurn (sampleUuid (uuidCount chatState)) added.2) = turns chatState
  ∧ turnOrder (removeTurn (sampleUuid (uuidCount chatState)) added.2) = turnOrder chatState.
Proof.
  apply (removeTurn_undoes_addTurn sampleUuid
           (with_content "q3" (with_role user emptyObject)) chatState).
  - reflexivity.
  - vm_compute. intros H. repeat (apply elem_of_cons in H as [H|H]; [discriminate H|]).
    by apply elem_of_nil in H.
Defined.

Lemma chatState_listed : listed chatState.
Proof.
  intros id Hin. vm_compute in Hin.
  repeat (apply elem_of_cons in Hin as [->|Hin]; [by eexists|]).
  by apply elem_of_nil in Hin.
Qed.

Lemma store_operations_keep_order_listed_witness :
  (∀ turn, listed (addTurn sampleUuid turn chatState).2)
  ∧ (∀ id updates, listed (updateTurn id updates chatState))
  ∧ (∀ id, listed (removeTurn id chatState))
  ∧ (∀ turnId, listed (handleResend turnId chatState)).
Proof.
  apply (store_operations_keep_order_listed sampleUuid chatState).
  exact chatState_listed.
Defined.

(* ===================================================================== *)
(** * 16. Further properties of the agent turn and of sending             *)
(* ===================================================================== *)

Section Stable.
Variable uuidv4 : nat → string.
Variable P : AppState → Prop.

(** [P] is kept by what the callbacks queue on the store. *)
Hypothesis P_addTurn : ∀ turn st, P st → P (addTurn uuidv4 turn st).2.
Hypothesis P_updateTurn : ∀ id updates st, P st → P (updateTurn id updates st).
Hypothesis P_paused : ∀ st, P st → P (setSessionState paused_user_input st).
Hypothesis P_flag : ∀ b st, P st → P (setIsAgentRunning b st).

Lemma stable_forAwaitChunks id fullContent rest st :
  P st → P (forAwaitChunks id fullContent rest st).2.
Proof.
  revert fullContent st. induction rest as [|chunk rest IH]; intros fullContent st HP.
  - done.
  - cbn [forAwaitChunks]. by apply IH, P_updateTurn.
Qed.

Lemma stable_createTurnFromStream turnData generator :
  triple P (createTurnFromStream uuidv4 turnData generator) (fun _ => P) (fun _ => P).
Proof.
  intros st HP. unfold createTurnFromStream.
  destruct (chunks generator) as [|first rest].
  { by destruct (failure generator). }
  pose proof (P_addTurn (with_isStreaming true (with_content first turnData)) st HP) as Hadd.
  destruct (addTurn uuidv4 _ st) as [newTurn st1]. cbn [snd] in Hadd.
  pose proof (stable_forAwaitChunks (interpolate (id newTurn)) first rest st1 Hadd) as Hloop.
  destruct (forAwaitChunks _ first rest st1) as [fullContent st2]. cbn [snd] in Hloop.
  destruct (failure generator); [done|]. by apply P_updateTurn.
Qed.

Lemma stable_addTurnIn turn :
  triple P (addTurnIn uuidv4 turn) (fun _ => P) (fun _ _ => False).
Proof.
  intros st HP. unfold addTurnIn. pose proof (P_addTurn turn st HP) as H.
  by destruct (addTurn uuidv4 turn st).
Qed.

Lemma stable_agentExchange gemini settings topic captured :
  triple P (agentExchange uuidv4 gemini settings topic captured) (fun _ => P) (fun _ => P).
Proof.
  unfold agentExchange.
  eapply triple_bind with (Q1 := fun _ => P).
  { destruct (pendingQuestion _) as [lastTurn|].
    - apply triple_resolve. auto.
    - eapply triple_bind with (Q1 := fun _ => P).
      + apply stable_createTurnFromStream.
      + intros [[turn|] ?]; [apply triple_resolve|apply triple_throw]; auto. }
  intros [questionTurn contextForTeacher].
  eapply triple_bind with (Q1 := fun _ => P).
  { eapply triple_weaken; [apply stable_addTurnIn|auto|done]. }
  intros teacherTurn.
  eapply triple_bind with (Q1 := fun _ => P).
  { apply triple_await. intros st HP. destruct (getTeacherResponse _ _ _ _ _); auto. }
  intros response.
  eapply triple_bind with (Q1 := fun _ => P).
  { apply triple_update. auto. }
  intros _. destruct (resp_functionCall response).
  { eapply triple_bind with (Q1 := fun _ => P); [apply triple_update; auto|].
    intros _. apply triple_update. auto. }
  destruct (isValidationTurn _ _); [|apply triple_resolve; auto].
  eapply triple_bind with (Q1 := fun _ => P).
  { eapply triple_weaken; [apply stable_addTurnIn|auto|done]. }
  intros validatorTurn.
  eapply triple_bind with (Q1 := fun _ => P).
  { apply triple_await. intros st HP. destruct (getValidatorFeedback _ _ _ _ _); auto. }
  intros feedback. apply triple_update. auto.
Qed.
End Stable.

Lemma listed_setSessionState s st : listed st → listed (setSessionState s st).
Proof. done. Qed.

Lemma listed_setError e st : listed st → listed (setError e st).
Proof. done. Qed.

Lemma listed_setIsAgentRunning b st : listed st → listed (setIsAgentRunning b st).
Proof. done. Qed.

(** X11.  An agent turn, a send (in either mode) and a streamed turn keep
    every id of the order backed by a turn of the map, whatever the remote
    model answers and whether the calls resolve or reject. *)
Theorem callbacks_keep_order_listed uuidv4 gemini settings st :
  listed st →
  (∀ topic, listed (runAgentTurn uuidv4 gemini settings topic st))
  ∧ (∀ message attachments, listed (handleSend uuidv4 gemini settings message attachments st))
  ∧ (∀ turnData generator, listed (createTurnFromStream uuidv4 turnData generator st).2).
Proof.
  intros Hl.
  assert (∀ turnData generator st0, listed st0 →
            listed (createTurnFromStream uuidv4 turnData generator st0).2) as Hstream.
  { intros turnData generator st0 Hl0.
    pose proof (stable_createTurnFromStream uuidv4 listed (listed_addTurn uuidv4)
                  listed_updateTurn turnData generator st0 Hl0) as H.
    by destruct (createTurnFromStream _ _ _ st0) as [[?|?] ?]. }
  split; [|split].
  - intros topic. unfold runAgentTurn. destruct (isAgentRunning st); [done|].
    destruct (_ <=? _); [done|].
    pose proof (stable_agentExchange uuidv4 listed (listed_addTurn uuidv4) listed_updateTurn
                  (listed_setSessionState _) listed_setIsAgentRunning
                  gemini settings topic st (setIsAgentRunning true st) Hl) as H.
    by destruct (agentExchange _ _ _ _ _ _) as [[?|?] ?].
  - intros message attachments. unfold handleSend.
    pose proof (listed_addTurn uuidv4
                  (with_attachments attachments
                     (with_content_read message (with_role user emptyObject))) st Hl) as Hadd.
    destruct (addTurn uuidv4 _ st) as [userTurn st1]. cbn [snd] in Hadd.
    destruct (interactionMode settings); [done|].
    match goal with |- context [createTurnFromStream uuidv4 ?d ?g ?s] =>
      pose proof (Hstream d g s) as H; destruct (createTurnFromStream uuidv4 d g s)
        as [[?|?] ?] end; by apply H.
  - intros turnData generator. by apply Hstream.
Qed.

(** X12.  [runAgentTurn] leaves the running flag as it found it and the
    session either where it was, paused or finished; it changes the error
    only when it pauses the session, and it finishes the session only when
    the store holds [maxTurns] teacher turns or more. *)
Theorem runAgentTurn_reports_errors_paused uuidv4 gemini settings topic st :
  let st' := runAgentTurn uuidv4 gemini settings topic st in
  isAgentRunning st' = isAgentRunning st
  ∧ (sessionState st' = sessionState st
     ∨ sessionState st' = paused_user_input
     ∨ (sessionState st' = finished ∧ maxTurns settings ≤ teacherCount st))
  ∧ (error st' ≠ error st → sessionState st' = paused_user_input).
Proof.
  intros st'. unfold st', runAgentTurn.
  destruct (isAgentRunning st) eqn:Hflag.
  { split; [done|]. split; [by left|done]. }
  destruct (Z.leb_spec (maxTurns settings) (countTeacherTurns (turns st) (turnOrder st))).
  { cbn. split; [done|]. split; [by right; right|done]. }
  pose proof (stable_agentExchange uuidv4
    (fun s => error s = error st
              ∧ (sessionState s = sessionState st ∨ sessionState s = paused_user_input))
    ltac:(by intros ? ? [? ?]) ltac:(by intros ? ? ? [? ?])
    ltac:(intros ? [? ?]; split; [done|by right]) ltac:(by intros ? ? [? ?])
    gemini settings topic st (setIsAgentRunning true st) ltac:(split; [done|by left])) as Hex.
  destruct (agentExchange _ _ _ _ _ _) as [[e|?] st1]; cbn.
  - split; [done|]. split; [by right; left|done].
  - destruct Hex as [He Hs]. split; [done|]. split.
    + destruct Hs as [Hs|Hs]; [by left|by right; left].
    + intros Hne. by destruct Hne.
Qed.

Section AgentTurnOutcomes.
Variable uuidv4 : nat → string.

(** A stream that yields at least one chunk and completes gives a turn and
    touches neither the error nor the session state. *)
Lemma createTurnFromStream_completes turnData generator first rest st :
  chunks generator = first :: rest →
  failure generator = None →
  ∃ t c st', createTurnFromStream uuidv4 turnData generator st = (inr (Some t, c), st')
             ∧ error st' = error st ∧ sessionState st' = sessionState st.
Proof.
  intros Hchunks Hfailure. unfold createTurnFromStream. rewrite Hchunks, Hfailure.
  rewrite addTurn_unfold.
  set (uuid := uuidv4 (uuidCount st)).
  set (created := with_id uuid (with_isStreaming true (with_content first turnData))).
  change (interpolate (id created)) with uuid.
  match goal with |- context [forAwaitChunks uuid first rest ?s] => set (st1 := s) end.
  destruct (forAwaitChunks_spec uuid first rest st1 created) as (st2 & Hrun & _ & Hsame).
  { unfold st1. cbn [turns]. apply lookup_insert_eq. }
  { done. }
  rewrite Hrun. eexists _, _, _. split; [done|].
  destruct Hsame as (_ & Hstate & Herror & _). unfold updateTurn.
  cbn [error sessionState setTurns]. by rewrite Herror, Hstate.
Qed.

(** The question of an exchange is there once the student model, if it is
    asked, streams a question. *)
Lemma triple_question (P : AppState → Prop) gemini settings captured
    (m : Async (Turn * string)) :
  (∀ c s, ∃ first rest,
     getStudentResponseStream gemini c s = {| chunks := first :: rest; failure := None |}) →
  (∀ turnData generator, triple P (createTurnFromStream uuidv4 turnData generator)
                           (fun _ => P) (fun _ => P)) →
  m = match pendingQuestion
              (if Nat.ltb 0 (length (turnOrder captured))
               then (turnOrder captured !! (length (turnOrder captured) - 1)%nat)
                      ≫= (fun id => turns captured !! id)
               else None) with
      | None =>
          let contextForTeacher := getContextString settings captured in
          let studentGenerator := getStudentResponseStream gemini contextForTeacher settings in
          bind (createTurnFromStream uuidv4
                  (with_modelName (ms_student (modelSettings settings))
                     (with_role student emptyObject))
                  studentGenerator)
               (fun '(turn, _) =>
                  match turn with
                  | None => throw (Error "Student model failed to generate a response.")
                  | Some turn => resolve (turn, contextForTeacher)
                  end)
      | Some lastTurnInState =>
          resolve (lastTurnInState,
                   renderContext (turns captured)
                     (slice (slice (turnOrder captured) 0 (Some (-1)))
                        (- CONTEXT_WINDOW_SIZES (contextWindow settings)) None))
      end →
  triple P m (fun _ => P) (fun _ _ => False).
Proof.
  intros Hstudent Hstable ->. destruct (pendingQuestion _) as [lastTurn|].
  { apply triple_resolve. auto. }
  cbv zeta. intros st HP. unfold bind.
  destruct (Hstudent (getContextString settings captured) settings) as (first & rest & Hgen).
  set (generator := getStudentResponseStream gemini (getContextString settings captured)
                      settings) in *.
  set (turnData := with_modelName (ms_student (modelSettings settings))
                     (with_role student emptyObject)).
  destruct (createTurnFromStream_completes turnData generator first rest st)
    as (t & c & st' & Hrun & _); [by rewrite Hgen..|].
  pose proof (Hstable turnData generator st HP) as Hpost.
  rewrite Hrun in *. done.
Qed.

Lemma triple_placeholder (P : AppState → Prop) settings :
  (∀ turn st, P st → P (addTurn uuidv4 turn st).2) →
  triple P (addTurnIn uuidv4 (placeholder settings))
    (fun t st => P st ∧ ∃ n, t = with_id (uuidv4 n) (placeholder settings)
                             ∧ last (turnOrder st) = Some (uuidv4 n)
                             ∧ turns st !! uuidv4 n = Some t)
    (fun _ _ => False).
Proof.
  intros Hadd st HP. unfold addTurnIn. specialize (Hadd (placeholder settings) st HP).
  rewrite addTurn_unfold in *. cbn [snd] in Hadd. split; [done|].
  exists (uuidCount st). split; [done|]. cbn [turns turnOrder].
  split; [apply last_snoc|apply lookup_insert_eq].
Qed.

(** X13.  When the student model (if it is asked) streams a question and
    the teacher call is rejected, [runAgentTurn] pauses the session with
    the message of the error, and the placeholder it had added for the
    answer stays the last turn of the store: a teacher turn with content
    ["..."] that is still marked as streaming. *)
Theorem runAgentTurn_teacher_failure_leaves_placeholder gemini settings topic st e :
  isAgentRunning st = false →
  teacherCount st < maxTurns settings →
  (∀ c s, ∃ first rest,
     getStudentResponseStream gemini c s = {| chunks := first :: rest; failure := None |}) →
  (∀ c q a s, getTeacherResponse gemini c q a s = inl e) →
  let st' := runAgentTurn uuidv4 gemini settings topic st in
  sessionState st' = paused_user_input
  ∧ error st' = Some (errorMessage e)
  ∧ isAgentRunning st' = false
  ∧ ∃ n, last (turnOrder st') = Some (uuidv4 n)
         ∧ turns st' !! uuidv4 n
           = Some (with_id (uuidv4 n)
                     (with_modelName (ms_teacher (modelSettings settings))
                        (with_isStreaming true
                           (with_content "..." (with_role teacher emptyObject))))).
Proof.
  intros Hflag Hlt Hstudent Hteacher st'. unfold st', runAgentTurn. rewrite Hflag.
  unfold teacherCount in Hlt.
  destruct (Z.leb_spec (maxTurns settings) (countTeacherTurns (turns st) (turnOrder st)));
    [lia|].
  assert (triple (fun _ => True) (agentExchange uuidv4 gemini settings topic st)
            (fun _ _ => False)
            (fun e' s => e' = e
                         ∧ ∃ n, last (turnOrder s) = Some (uuidv4 n)
                                ∧ turns s !! uuidv4 n
                                  = Some (with_id (uuidv4 n) (placeholder settings))))
    as Hex.
  { unfold agentExchange.
    eapply triple_bind with (Q1 := fun _ _ => True).
    { eapply triple_weaken.
      - eapply (triple_question (fun _ => True)); [exact Hstudent| |reflexivity].
        intros turnData generator s _.
        by destruct (createTurnFromStream _ _ _ s) as [[?|?] ?].
      - done.
      - done. }
    intros [questionTurn contextForTeacher].
    eapply triple_bind.
    { eapply triple_weaken; [by apply (triple_placeholder (fun _ => True))|..].
      - intros t s Hpost. exact Hpost.
      - done. }
    intros teacherTurn. cbv beta.
    intros s [_ (n & -> & Hlast & Hlook)]. unfold bind, await. rewrite Hteacher.
    split; [done|]. by exists n. }
  specialize (Hex (setIsAgentRunning true st) I).
  destruct (agentExchange _ _ _ _ _ _) as [[e'|?] st1]; [|done].
  destruct Hex as [-> (n & Hlast & Hlook)]. cbn. repeat split. by exists n.
Qed.

(** X14.  When the teacher answers with a function call, [runAgentTurn]
    pauses the session without touching the error; the answer, no longer
    streaming and carrying the call, is the last turn of the store: no
    validator turn follows it, whatever the validator frequency is. *)
Theorem runAgentTurn_function_call_pauses_without_validation
    gemini settings topic st response fc :
  isAgentRunning st = false →
  teacherCount st < maxTurns settings →
  (∀ c s, ∃ first rest,
     getStudentResponseStream gemini c s = {| chunks := first :: rest; failure := None |}) →
  (∀ c q a s, getTeacherResponse gemini c q a s = inr response) →
  resp_functionCall response = Some fc →
  let st' := runAgentTurn uuidv4 gemini settings topic st in
  sessionState st' = paused_user_input
  ∧ error st' = error st
  ∧ isAgentRunning st' = false
  ∧ ∃ n t, last (turnOrder st') = Some (uuidv4 n)
           ∧ turns st' !! uuidv4 n = Some t
           ∧ role t = Some teacher
           ∧ content t = Some (resp_text response)
           ∧ isStreaming t = Some false
           ∧ functionCall t = Some (Some fc).
Proof.
  intros Hflag Hlt Hstudent Hteacher Hfc st'. unfold st', runAgentTurn. rewrite Hflag.
  unfold teacherCount in Hlt.
  destruct (Z.leb_spec (maxTurns settings) (countTeacherTurns (turns st) (turnOrder st)));
    [lia|].
  set (P := fun s : AppState => error s = error st).
  assert (triple P (agentExchange uuidv4 gemini settings topic st)
            (fun _ s => sessionState s = paused_user_input ∧ error s = error st
                        ∧ ∃ n t, last (turnOrder s) = Some (uuidv4 n)
                                 ∧ turns s !! uuidv4 n = Some t
                                 ∧ role t = Some teacher
                                 ∧ content t = Some (resp_text response)
                                 ∧ isStreaming t = Some false
                                 ∧ functionCall t = Some (Some fc))
            (fun _ _ => False)) as Hex.
  { unfold agentExchange.
    eapply triple_bind with (Q1 := fun _ => P).
    { eapply (triple_question P); [exact Hstudent| |reflexivity].
      intros turnData generator. apply stable_createTurnFromStream; by intros. }
    intros [questionTurn contextForTeacher].
    eapply triple_bind.
    { apply (triple_placeholder P). by intros. }
    intros teacherTurn. cbv beta.
    intros s [HP (n & -> & Hlast & Hlook)]. unfold bind, await, update. rewrite Hteacher.
    rewrite Hfc. cbn [id with_id].
    change (interpolate (Some (uuidv4 n))) with (uuidv4 n).
    unfold updateTurn. cbn [sessionState error turns turnOrder setTurns setSessionState
      setIsAgentRunning].
    rewrite Hlook. split; [done|]. split; [exact HP|].
    exists n. eexists. split; [done|]. split; [apply lookup_insert_eq|]. done. }
  specialize (Hex (setIsAgentRunning true st) eq_refl).
  destruct (agentExchange _ _ _ _ _ _) as [[e'|?] st1]; [done|].
  destruct Hex as (Hstate & Herror & n & t & Hfacts). cbn. repeat split; try done.
  by exists n, t.
Qed.

(** X15.  When the last turn of the store is a question waiting for its
    answer (a user or student turn), [runAgentTurn] does not ask the
    student model: two services that differ in their student stream only
    give the same state. *)
Theorem runAgentTurn_pending_question_skips_student
    gemini1 gemini2 settings topic st lastId question :
  last (turnOrder st) = Some lastId →
  turns st !! lastId = Some question →
  endsAnExchange (role question) = false →
  getTeacherResponse gemini1 = getTeacherResponse gemini2 →
  getValidatorFeedback gemini1 = getValidatorFeedback gemini2 →
  runAgentTurn uuidv4 gemini1 settings topic st
  = runAgentTurn uuidv4 gemini2 settings topic st.
Proof.
  intros Hlast Hlook Hends Hteacher Hvalidator.
  assert ((if Nat.ltb 0 (length (turnOrder st))
           then (turnOrder st !! (length (turnOrder st) - 1)%nat)
                  ≫= (fun id => turns st !! id)
           else None) = Some question) as Hq.
  { rewrite last_lookup in Hlast. destruct (turnOrder st) as [|x l]; [done|].
    cbn [length Nat.ltb Nat.leb Nat.pred] in *.
    rewrite Nat.sub_1_r. cbn [Nat.pred]. rewrite Hlast. cbn. exact Hlook. }
  unfold runAgentTurn, agentExchange. cbv zeta. rewrite Hq. cbn [pendingQuestion].
  rewrite Hends, Hteacher, Hvalidator. reflexivity.
Qed.

End AgentTurnOutcomes.

(** X16.  In direct mode [handleSend] appends the user turn, streams the
    answer into a teacher turn after it and always ends paused.  The
    context given to the model is the one of the store before the message
    was added.  When the stream throws, the error is reported and the
    teacher turn, if a chunk had arrived, stays in the store with what was
    received, still marked as streaming.  The map is the one of before with
    the user turn written under its id and then, if a chunk had arrived,
    the teacher turn under the next id. *)
Theorem handleSend_direct_always_pauses uuidv4 gemini settings message attachments st :
  interactionMode settings = direct →
  let generator := getDirectChatResponseStream gemini (getContextString settings st)
                     message attachments settings in
  let userId := uuidv4 (uuidCount st) in
  let answerId := uuidv4 (S (uuidCount st)) in
  let userTurn := with_id userId
                    (with_attachments attachments
                       (with_content_read message (with_role user emptyObject))) in
  let st' := handleSend uuidv4 gemini settings message attachments st in
  sessionState st' = paused_user_input
  ∧ error st' = match failure generator with
                | Some e => Some (errorMessage e)
                | None => error st
                end
  ∧ match chunks generator with
    | [] => turnOrder st' = turnOrder st ++ [userId]
            ∧ turns st' = <[userId := userTurn]> (turns st)
    | first :: rest =>
        turnOrder st' = turnOrder st ++ [userId; answerId]
        ∧ turns st' !! answerId
          = Some (with_id answerId
                    (with_isStreaming (bool_decide (is_Some (failure generator)))
                       (with_content (String.concat "" (chunks generator))
                          (with_modelName (ms_directChat (modelSettings settings))
                             (with_role teacher emptyObject)))))
        ∧ turns st'
          = <[answerId := with_id answerId
                            (with_isStreaming (bool_decide (is_Some (failure generator)))
                               (with_content (String.concat "" (chunks generator))
                                  (with_modelName (ms_directChat (modelSettings settings))
                                     (with_role teacher emptyObject))))]>
              (<[userId := userTurn]> (turns st))
    end.
Proof.
  intros Hmode generator userId answerId userTurn st'. unfold st', handleSend.
  rewrite addTurn_unfold, Hmode. fold generator. fold userId. fold userTurn.
  unfold createTurnFromStream.
  destruct (chunks generator) as [|first rest] eqn:Hchunks.
  { destruct (failure generator); cbn; by rewrite ?app_nil_r. }
  rewrite addTurn_unfold.
  cbn [uuidCount setSessionState turns turnOrder sessionState error resendPayload
       isAgentRunning]. fold answerId.
  set (turnData := with_modelName (ms_directChat (modelSettings settings))
                     (with_role teacher emptyObject)).
  set (created := with_id answerId (with_isStreaming true (with_content first turnData))).
  change (interpolate (id created)) with answerId.
  match goal with |- context [forAwaitChunks answerId first rest ?s] => set (st1 := s) end.
  destruct (forAwaitChunks_spec answerId first rest st1 created)
    as (st2 & Hrun & Hturns & Hsame).
  { unfold st1. cbn [turns]. apply lookup_insert_eq. }
  { done. }
  rewrite Hrun. destruct Hsame as (Horder & _ & Herror & _).
  destruct (failure generator) as [e|]; cbn [sessionState error turnOrder turns
    setSessionState setError updateTurn setTurns].
  - split; [done|]. split; [done|]. rewrite Horder. unfold st1. cbn [turnOrder].
    rewrite <- app_assoc. split; [done|].
    rewrite Hturns, lookup_insert_eq, concat_empty_cons. split; [done|].
    unfold st1. cbn [turns]. by rewrite insert_insert_eq.
  - split; [done|]. split; [by rewrite Herror|]. unfold updateTurn.
    cbn [turnOrder turns setTurns]. rewrite Horder. unfold st1. cbn [turnOrder].
    rewrite <- app_assoc. split; [done|].
    rewrite Hturns, !lookup_insert_eq. cbn [default].
    change (default emptyObject (Some ?t)) with t.
    rewrite spread_with_isStreaming, concat_empty_cons. split; [done|].
    unfold st1. cbn [turns]. by rewrite !insert_insert_eq.
Qed.

Lemma callbacks_keep_order_listed_witness :
  (∀ topic, listed (runAgentTurn sampleUuid sampleGemini (sampleSettings every_3_turns 10)
                      topic chatState))
  ∧ (∀ message attachments,
       listed (handleSend sampleUuid sampleGemini (sampleSettings every_3_turns 10)
                 message attachments chatState))
  ∧ (∀ turnData generator,
       listed (createTurnFromStream sampleUuid turnData generator chatState).2).
Proof.
  apply (callbacks_keep_order_listed sampleUuid sampleGemini
           (sampleSettings every_3_turns 10) chatState).
  exact chatState_listed.
Defined.

Lemma runAgentTurn_teacher_failure_leaves_placeholder_witness :
  let settings := sampleSettings every_3_turns 10 in
  let st' := runAgentTurn sampleUuid failingTeacher settings "osmosis" startedState in
  sessionState st' = paused_user_input
  ∧ error st' = Some (errorMessage (Error "model overloaded"))
  ∧ isAgentRunning st' = false
  ∧ ∃ n, last (turnOrder st') = Some (sampleUuid n)
         ∧ turns st' !! sampleUuid n
           = Some (with_id (sampleUuid n)
                     (with_modelName (ms_teacher (modelSettings settings))
                        (with_isStreaming true
                           (with_content "..." (with_role teacher emptyObject))))).
Proof.
  apply (runAgentTurn_teacher_failure_leaves_placeholder sampleUuid failingTeacher
           (sampleSettings every_3_turns 10) "osmosis" startedState
           (Error "model overloaded")).
  - reflexivity.
  - vm_compute. reflexivity.
  - intros c s. by exists "Why ", ["is that?"].
  - reflexivity.
Defined.

Lemma runAgentTurn_function_call_pauses_without_validation_witness :
  let settings := sampleSettings every_3_turns 10 in
  let st' := runAgentTurn sampleUuid quizzingTeacher settings "osmosis" startedState in
  sessionState st' = paused_user_input
  ∧ error st' = error startedState
  ∧ isAgentRunning st' = false
  ∧ ∃ n t, last (turnOrder st') = Some (sampleUuid n)
           ∧ turns st' !! sampleUuid n = Some t
           ∧ role t = Some teacher
           ∧ content t = Some (resp_text quizResponse)
           ∧ isStreaming t = Some false
           ∧ functionCall t = Some (Some sampleFunctionCall).
Proof.
  apply (runAgentTurn_function_call_pauses_without_validation sampleUuid quizzingTeacher
           (sampleSettings every_3_turns 10) "osmosis" startedState
           quizResponse sampleFunctionCall).
  - reflexivity.
  - vm_compute. reflexivity.
  - intros c s. by exists "Why ", ["is that?"].
  - reflexivity.
  - reflexivity.
Defined.

Lemma runAgentTurn_pending_question_skips_student_witness :
  runAgentTurn sampleUuid sampleGemini (sampleSettings disabled 10) "osmosis" chatState
  = runAgentTurn sampleUuid silentStudent (sampleSettings disabled 10) "osmosis" chatState.
Proof.
  apply (runAgentTurn_pending_question_skips_student sampleUuid sampleGemini silentStudent
           (sampleSettings disabled 10) "osmosis" chatState "turn-2"
           (with_id "turn-2" (with_content "q2" (with_role user emptyObject)))).
  - reflexivity.
  - reflexivity.
  - reflexivity.
  - reflexivity.
  - reflexivity.
Defined.

Lemma handleSend_direct_always_pauses_witness :
  let settings := directSettings in
  let generator := getDirectChatResponseStream brokenChat (getContextString settings chatState)
                     (Some "q3") [] settings in
  let userId := sampleUuid (uuidCount chatState) in
  let answerId := sampleUuid (S (uuidCount chatState)) in
  let userTurn := with_id userId
                    (with_attachments []
                       (with_content_read (Some "q3") (with_role user emptyObject))) in
  let st' := handleSend sampleUuid brokenChat settings (Some "q3") [] chatState in
  sessionState st' = paused_user_input
  ∧ error st' = match failure generator with
                | Some e => Some (errorMessage e)
                | None => error chatState
                end
  ∧ match chunks generator with
    | [] => turnOrder st' = turnOrder chatState ++ [userId]
            ∧ turns st' = <[userId := userTurn]> (turns chatState)
    | first :: rest =>
        turnOrder st' = turnOrder chatState ++ [userId; answerId]
        ∧ turns st' !! answerId
          = Some (with_id answerId
                    (with_isStreaming (bool_decide (is_Some (failure generator)))
                       (with_content (String.concat "" (chunks generator))
                          (with_modelName (ms_directChat (modelSettings settings))
                             (with_role teacher emptyObject)))))
        ∧ turns st'
          = <[answerId := with_id answerId
                            (with_isStreaming (bool_decide (is_Some (failure generator)))
                               (with_content (String.concat "" (chunks generator))
                                  (with_modelName (ms_directChat (modelSettings settings))
                                     (with_role teacher emptyObject))))]>
              (<[userId := userTurn]> (turns chatState))
    end.
Proof.
  apply (handleSend_direct_always_pauses sampleUuid brokenChat directSettings
           (Some "q3") [] chatState).
  reflexivity.
Defined.

(* ===================================================================== *)
(** * 17. Properties of regenerating, rephrasing and the auto-continue
      toggle                                                              *)
(* ===================================================================== *)

(** X17.  After a toggle the auto-continue setting is flipped, and a
    session that was paused or running runs exactly when auto-continue is
    now on; a session in any other state is left alone.  The turns are
    never touched. *)
Theorem handleAutoContinueToggle_couples_session settings st :
  let after := handleAutoContinueToggle settings st in
  autoContinueAgent after.1 = negb (autoContinueAgent settings)
  ∧ (sessionState st = paused_user_input ∨ sessionState st = running_auto →
     (sessionState after.2 = paused_user_input ∨ sessionState after.2 = running_auto)
     ∧ (sessionState after.2 = running_auto ↔ autoContinueAgent after.1 = true))
  ∧ (sessionState st ≠ paused_user_input → sessionState st ≠ running_auto →
     after.2 = st)
  ∧ turns after.2 = turns st ∧ turnOrder after.2 = turnOrder st.
Proof.
  unfold handleAutoContinueToggle.
  destruct (autoContinueAgent settings), (sessionState st) eqn:Hstate;
    cbn [negb fst snd autoContinueAgent withAutoContinueAgent sessionState
         setSessionState turns turnOrder];
    rewrite ?Hstate; intuition congruence.
Qed.

Lemma mapM_lookup_listed (turns : gmap string Turn) (ids : list string) :
  Forall (fun id => is_Some (turns !! id)) ids →
  mapM (fun id => turns !! id) ids = Some (omap (fun id => turns !! id) ids).
Proof.
  induction 1 as [|id ids [t Ht] _ IH]; [reflexivity|].
  cbn [mapM omap list_omap]. rewrite Ht. cbn [mbind option_bind].
  rewrite IH. reflexivity.
Qed.

(** The [try] block of [handleRegenerate] either throws before it has
    queued anything or resolves after one update of the target. *)
Lemma regenerate_cases typeErrorMessage gemini settings captured turnId turnIndex
    originalTurn prevTurn st :
  (∃ e, regenerate typeErrorMessage gemini settings captured turnId turnIndex
          originalTurn prevTurn st = (inl e, st))
  ∨ (∃ updates, role updates = None ∧ isStreaming updates = Some false
       ∧ regenerate typeErrorMessage gemini settings captured turnId turnIndex
           originalTurn prevTurn st = (inr tt, updateTurn turnId updates st)).
Proof.
  unfold regenerate, bind, await, update, renderAll.
  destruct (mapM _ _); [|left; by eexists].
  destruct (getTeacherResponse _ _ _ _ _); [left; by eexists|].
  right. eexists. split; [|split]; [| |reflexivity]; done.
Qed.

(** X18.  In direct mode, where no agent loop runs beside the handler,
    [handleRegenerate] changes no turn but its target and never the order
    of the turns; it draws no id.  Either it leaves the state as it was, or
    it resolves with the session paused and the target a teacher turn that
    is no longer marked as streaming, whether the model has answered or
    not. *)
Theorem handleRegenerate_touches_only_target typeErrorMessage gemini settings turnId st :
  interactionMode settings = direct →
  let run := handleRegenerate typeErrorMessage gemini settings turnId st in
  turnOrder run.2 = turnOrder st
  ∧ (∀ k, k ≠ turnId → turns run.2 !! k = turns st !! k)
  ∧ uuidCount run.2 = uuidCount st
  ∧ (run.2 = st
     ∨ (run.1 = inr tt
        ∧ sessionState run.2 = paused_user_input
        ∧ ∃ t, turns run.2 !! turnId = Some t
               ∧ role t = Some teacher ∧ isStreaming t = Some false)).
Proof.
  intros _. unfold handleRegenerate.
  destruct (findIndex turnId (turnOrder st) =? -1); [by repeat split; try left|].
  destruct (turns st !! turnId) as [originalTurn|] eqn:Htarget;
    [|by repeat split; try left].
  match goal with |- context [match ?p with Some _ => _ | None => (inr tt, st) end] =>
    destruct p as [prevTurn|] end; [|by repeat split; try left].
  destruct (isTeacher (Some originalTurn)) eqn:Hteacher;
    [|by repeat split; try left].
  destruct (asksAQuestion (role prevTurn)); [|by repeat split; try left].
  cbn [negb orb].
  match goal with |- context [regenerate _ _ _ _ _ ?i _ _ ?s] =>
    set (st1 := s);
    destruct (regenerate_cases typeErrorMessage gemini settings st turnId i
                originalTurn prevTurn st1) as [[e ->]|(updates & Hrole & Hstreaming & ->)]
  end.
  - unfold st1, updateTurn.
    cbn [fst snd turns turnOrder uuidCount sessionState setTurns setSessionState setError].
    split; [done|]. split; [by intros k Hk; rewrite !lookup_insert_ne|].
    split; [done|]. right. split; [done|]. split; [done|].
    rewrite !lookup_insert_eq, Htarget. eexists. split; [done|].
    unfold isTeacher in Hteacher. cbn [mbind option_bind] in Hteacher.
    destruct originalTurn as [? [[]|]]; done.
  - unfold st1, updateTurn.
    cbn [fst snd turns turnOrder uuidCount sessionState setTurns setSessionState setError].
    split; [done|]. split; [by intros k Hk; rewrite !lookup_insert_ne|].
    split; [done|]. right. split; [done|]. split; [done|].
    rewrite !lookup_insert_eq, Htarget. eexists. split; [done|].
    unfold isTeacher in Hteacher. cbn [mbind option_bind] in Hteacher.
    cbn [default spread role isStreaming]. rewrite Hrole, Hstreaming.
    destruct originalTurn as [? [[]|]]; done.
Qed.

Lemma findIndex_second v before x after :
  v ∉ before → v ≠ x →
  findIndex v (before ++ x :: v :: after) = Z.of_nat (length before) + 1.
Proof.
  intros Hbefore Hne.
  rewrite (cons_middle x before), app_assoc, findIndex_first.
  - rewrite length_app. cbn [length]. lia.
  - apply not_elem_of_app. split; [done|]. by intros ->%list_elem_of_singleton.
Qed.

Lemma elementAt_middle {A} (before : list A) x rest :
  elementAt (before ++ x :: rest) (Z.of_nat (length before)) = Some x.
Proof.
  unfold elementAt. destruct (Z.ltb_spec (Z.of_nat (length before)) 0); [lia|].
  rewrite Nat2Z.id. by apply list_lookup_middle.
Qed.

(** X19.  In direct mode, regenerating a teacher turn that follows a user
    or student turn asks the teacher model again, with the question of the turn before it,
    the attachments of the answer itself and, as context, every turn before
    the question (not the context window), under the model of the current
    interaction mode.  When the model answers, the turn takes the new text
    and the name of that model; when the call is rejected, the error is
    reported and the previous text is replaced by a fixed notice.  In both
    cases the turn keeps its place, its id and its role, and the session
    ends paused. *)
Theorem handleRegenerate_replaces_answer typeErrorMessage gemini settings turnId st
    before questionId after question answer :
  interactionMode settings = direct →
  turnOrder st = before ++ questionId :: turnId :: after →
  turnId ∉ before →
  turnId ≠ questionId →
  truthy questionId = true →
  Forall (fun id => is_Some (turns st !! id)) before →
  turns st !! questionId = Some question →
  asksAQuestion (role question) = true →
  turns st !! turnId = Some answer →
  role answer = Some teacher →
  let run := handleRegenerate typeErrorMessage gemini settings turnId st in
  run.1 = inr tt
  ∧ sessionState run.2 = paused_user_input
  ∧ turnOrder run.2 = turnOrder st
  ∧ ∃ t, turns run.2 !! turnId = Some t
         ∧ id t = id answer ∧ role t = Some teacher
         ∧ attachments t = attachments answer
         ∧ isStreaming t = Some false
         ∧ match getTeacherResponse gemini (renderContext (turns st) before)
                   (interpolate (content question)) (attachments answer)
                   (settingsForRegen settings) with
           | inr response =>
               error run.2 = error st
               ∧ content t = Some (resp_text response)
               ∧ functionCall t = Some (resp_functionCall response)
               ∧ modelName t = Some (modelForTeacher settings)
           | inl e =>
               error run.2 = Some (errorMessage e)
               ∧ content t = Some "Error regenerating response."
               ∧ modelName t = modelName answer
           end.
Proof.
  intros _ Horder Hbefore Hne Htruthy Hlisted Hquestion Hasks Hanswer Hrole.
  unfold handleRegenerate.
  rewrite Horder, (findIndex_second _ _ _ _ Hbefore Hne).
  destruct (Z.eqb_spec (Z.of_nat (length before) + 1) (-1)); [lia|].
  replace (Z.of_nat (length before) + 1 - 1) with (Z.of_nat (length before)) by lia.
  rewrite elementAt_middle, Htruthy, Hanswer, Hquestion, Hasks.
  unfold isTeacher. cbn [mbind option_bind]. rewrite Hrole. cbn [negb orb].
  unfold regenerate, bind, await, update, renderAll.
  rewrite <- Horder.
  replace (Z.of_nat (length before) + 1 - 1) with (Z.of_nat (length before)) by lia.
  assert (slice (turnOrder st) 0 (Some (Z.of_nat (length before))) = before) as ->.
  { rewrite Horder. apply slice_prefix. }
  rewrite (mapM_lookup_listed _ _ Hlisted). fold (renderContext (turns st) before).
  destruct (getTeacherResponse gemini _ _ _ _) as [e|response];
    unfold updateTurn;
    cbn [fst snd turns turnOrder sessionState error setTurns setSessionState setError];
    rewrite !lookup_insert_eq, Hanswer;
    (split; [done|]); (split; [done|]); (split; [done|]);
    eexists; (split; [done|]); destruct answer; cbn in *; by subst.
Qed.

(** What [createTurnFromStream] leaves behind once a first chunk has
    arrived, whether the stream then completes or throws. *)
Lemma createTurnFromStream_closed uuidv4 turnData generator first rest st :
  chunks generator = first :: rest →
  let uuid := uuidv4 (uuidCount st) in
  let run := createTurnFromStream uuidv4 turnData generator st in
  (∀ e, failure generator = Some e → run.1 = inl e)
  ∧ (failure generator = None → ∃ r, run.1 = inr r)
  ∧ turns run.2
    = <[uuid := with_id uuid
                  (with_isStreaming (bool_decide (is_Some (failure generator)))
                     (with_content (String.concat "" (first :: rest)) turnData))]>
        (turns st)
  ∧ turnOrder run.2 = turnOrder st ++ [uuid]
  ∧ sessionState run.2 = sessionState st
  ∧ error run.2 = error st
  ∧ isAgentRunning run.2 = isAgentRunning st
  ∧ uuidCount run.2 = S (uuidCount st).
Proof.
  intros Hchunks uuid run. unfold run, createTurnFromStream. rewrite Hchunks.
  rewrite addTurn_unfold. fold uuid.
  set (created := with_id uuid (with_isStreaming true (with_content first turnData))).
  change (interpolate (id created)) with uuid.
  match goal with |- context [forAwaitChunks uuid first rest ?s] => set (st1 := s) end.
  destruct (forAwaitChunks_spec uuid first rest st1 created)
    as (st2 & Hrun & Hturns & Horder & Hstate & Herror & _ & Hflag & Hcount).
  { unfold st1. cbn [turns]. apply lookup_insert_eq. }
  { done. }
  rewrite Hrun, concat_empty_cons.
  destruct (failure generator) as [e|]; unfold updateTurn;
    cbn [fst snd turns turnOrder sessionState error isAgentRunning uuidCount setTurns];
    rewrite Hturns, Horder, Hstate, Herror, Hflag, Hcount; unfold st1;
    cbn [turns turnOrder sessionState error isAgentRunning uuidCount];
    rewrite ?lookup_insert_eq, !insert_insert_eq.
  - split; [by intros ? [= <-]|]. split; [done|]. done.
  - split; [done|]. split; [by eexists|].
    change (default emptyObject (Some ?t)) with t.
    by rewrite spread_with_isStreaming.
Qed.

(** The state [handleRephrase] leaves when its target follows another
    turn of the order. *)
Lemma handleRephrase_closed typeErrorMessage uuidv4 rephraser settings turnId style st
    before questionId after question answer :
  turnOrder st = before ++ questionId :: turnId :: after →
  turnId ∉ before →
  turnId ≠ questionId →
  turns st !! questionId = Some question →
  turns st !! turnId = Some answer →
  handleRephrase typeErrorMessage uuidv4 rephraser settings turnId style st
  = let generator :=
      getRephrasedResponseStream rephraser (interpolate (content question))
        (interpolate (content answer)) style settings in
    let run :=
      createTurnFromStream uuidv4
        (with_modelName (rephraseModel rephraser)
           (with_isRephrased true (with_role teacher emptyObject)))
        generator (setSessionState running_auto st) in
    setSessionState paused_user_input
      match run.1 with
      | inr _ => run.2
      | inl e => setError (Some (errorMessage e)) run.2
      end.
Proof.
  intros Horder Hbefore Hne Hquestion Hanswer. unfold handleRephrase.
  rewrite Horder, (findIndex_second _ _ _ _ Hbefore Hne).
  destruct (Z.ltb_spec (Z.of_nat (length before) + 1) 1); [lia|].
  replace (Z.of_nat (length before) + 1 - 1) with (Z.of_nat (length before)) by lia.
  rewrite elementAt_middle. cbn [mbind option_bind]. rewrite Hquestion, Hanswer.
  unfold bind, await, contentOf. cbn zeta.
  by destruct (createTurnFromStream _ _ _ _) as [[e|r] st'].
Qed.

(** X20.  In direct mode, where no agent loop runs beside the handler,
    rephrasing a turn that follows another turn of the order streams a
    rephrasing of it, made from the content of the turn before it and
    its own, into a new teacher turn marked as rephrased at the end of the
    order; the target may have any role and is not changed.  The session
    always ends paused.  When the stream throws, the error is reported and
    the new turn, if a chunk had arrived, stays with what was received,
    still marked as streaming. *)
Theorem handleRephrase_appends_rephrased_turn typeErrorMessage uuidv4 rephraser settings
    turnId style st before questionId after question answer :
  interactionMode settings = direct →
  turnOrder st = before ++ questionId :: turnId :: after →
  turnId ∉ before →
  turnId ≠ questionId →
  turns st !! questionId = Some question →
  turns st !! turnId = Some answer →
  let generator :=
    getRephrasedResponseStream rephraser (interpolate (content question))
      (interpolate (content answer)) style settings in
  let uuid := uuidv4 (uuidCount st) in
  let st' := handleRephrase typeErrorMessage uuidv4 rephraser settings turnId style st in
  sessionState st' = paused_user_input
  ∧ error st' = match failure generator with
                | Some e => Some (errorMessage e)
                | None => error st
                end
  ∧ match chunks generator with
    | [] => turns st' = turns st ∧ turnOrder st' = turnOrder st
    | first :: rest =>
        turnOrder st' = turnOrder st ++ [uuid]
        ∧ turns st'
          = <[uuid := with_id uuid
                        (with_isStreaming (bool_decide (is_Some (failure generator)))
                           (with_content (String.concat "" (chunks generator))
                              (with_modelName (rephraseModel rephraser)
                                 (with_isRephrased true
                                    (with_role teacher emptyObject)))))]> (turns st)
    end.
Proof.
  intros _ Horder Hbefore Hne Hquestion Hanswer generator uuid st'. unfold st'.
  rewrite (handleRephrase_closed _ _ _ _ _ _ _ _ _ _ _ _
             Horder Hbefore Hne Hquestion Hanswer).
  cbn zeta. fold generator.
  destruct (chunks generator) as [|first rest] eqn:Hchunks.
  - unfold createTurnFromStream. rewrite Hchunks. by destruct (failure generator).
  - match goal with |- context [createTurnFromStream _ ?d _ ?s] =>
      destruct (createTurnFromStream_closed uuidv4 d generator first rest s Hchunks)
        as (Hthrown & Hdone & Hturns & Horder' & Hstate & Herror & _)
    end.
    cbn zeta in *.
    destruct (failure generator) as [e|].
    + rewrite (Hthrown e eq_refl).
      cbn [sessionState error turns turnOrder setSessionState setError].
      by rewrite Hturns, Horder'.
    + destruct (Hdone eq_refl) as [r ->].
      cbn [sessionState error turns turnOrder setSessionState setError].
      by rewrite Hturns, Horder', Herror.
Qed.

(* ===================================================================== *)
(** * 18. Properties of the session lifecycle                             *)
(* ===================================================================== *)

Lemma keysToTry_some (apiKeys : list string) :
  existsb (fun k => truthy (trim k)) apiKeys = false ↔ keysToTry apiKeys = [].
Proof.
  rewrite keysToTry_candidatesFrom. generalize 0%nat.
  induction apiKeys as [|k apiKeys IH]; intros offset; [done|].
  rewrite candidatesFrom_cons. cbn [existsb].
  destruct (truthy (trim k)) eqn:Htrim; cbn [orb].
  - assert (truthy k = true) as -> by (by destruct k).
    cbn [andb]. split; [done|]. intros H. by apply app_eq_nil in H as [? _].
  - rewrite andb_false_r. cbn [app]. apply IH.
Qed.

Lemma createTurnFromStream_uuidCount uuidv4 turnData generator st :
  (uuidCount st ≤ uuidCount (createTurnFromStream uuidv4 turnData generator st).2)%nat.
Proof.
  destruct (chunks generator) as [|first rest] eqn:Hchunks.
  - unfold createTurnFromStream. rewrite Hchunks. by destruct (failure generator).
  - destruct (createTurnFromStream_closed uuidv4 turnData generator first rest st Hchunks)
      as (_ & _ & _ & _ & _ & _ & _ & ->). lia.
Qed.

(** A start that is not refused draws the id of the new session. *)
Lemma handleStartSession_draws uuidv4 gemini refiner storage settings startTopic st :
  existsb (fun k => truthy (trim k)) (apiKeys refiner) = true →
  (uuidCount st
   < uuidCount (handleStartSession uuidv4 gemini refiner storage settings startTopic st))%nat.
Proof.
  intros Hkeys. unfold handleStartSession. rewrite Hkeys. cbn [negb].
  unfold bind, createNewSession, drawUuid.
  destruct (saveSession storage); [cbn; lia|].
  destruct (saveSettings storage); [cbn; lia|].
  destruct (interactionMode settings).
  - unfold update, addTurnIn, await. rewrite addTurn_unfold.
    destruct (getStarterQuestion refiner startTopic settings); cbn; lia.
  - unfold update, finallyPaused, resolve.
    match goal with |- context [createTurnFromStream ?u ?d ?g ?s] =>
      pose proof (createTurnFromStream_uuidCount u d g s) as Hle;
      destruct (createTurnFromStream u d g s) as [[e|r] s']
    end; cbn [snd uuidCount setSessionState setError setTurns setTurnOrder] in *; lia.
Qed.

(** X22.  [handleStartSession] refuses to start, with the message that
    asks for a key and nothing else changed, exactly when the key rotation
    of the service would find no key to try: neither the status of a key
    nor its shape is looked at. *)
Theorem handleStartSession_refuses_iff_no_key_to_try
    uuidv4 gemini refiner storage settings startTopic st :
  keysToTry (apiKeys refiner) = []
  ↔ handleStartSession uuidv4 gemini refiner storage settings startTopic st
    = setError
        (Some "Cannot start session. Please configure a Gemini API key in Settings.") st.
Proof.
  rewrite <- keysToTry_some.
  destruct (existsb _ (apiKeys refiner)) eqn:Hkeys.
  - split; [done|]. intros Heq. exfalso.
    pose proof (handleStartSession_draws uuidv4 gemini refiner storage settings
                  startTopic st Hkeys) as Hlt.
    rewrite Heq in Hlt. cbn [uuidCount setError] in Hlt. lia.
  - split; [|done]. intros _. unfold handleStartSession. by rewrite Hkeys.
Qed.

(** X23.  When a key is configured and the storage service fails to save
    the new session or the settings, the start is given up: the error is
    reported, the session goes to [idle], and the turns on display are
    those of the session before, untouched. *)
Theorem handleStartSession_storage_failure_keeps_turns
    uuidv4 gemini refiner storage settings startTopic st e :
  keysToTry (apiKeys refiner) ≠ [] →
  saveSession storage = Some e
  ∨ (saveSession storage = None ∧ saveSettings storage = Some e) →
  let st' := handleStartSession uuidv4 gemini refiner storage settings startTopic st in
  sessionState st' = idle
  ∧ error st' = Some (errorMessage e)
  ∧ turns st' = turns st
  ∧ turnOrder st' = turnOrder st.
Proof.
  intros Hkeys Hstorage. unfold handleStartSession.
  destruct (existsb _ (apiKeys refiner)) eqn:Hsome;
    [|by apply keysToTry_some in Hsome].
  cbn [negb]. unfold bind, createNewSession, drawUuid.
  by destruct Hstorage as [->|[-> ->]].
Qed.

(** X24.  In agent mode, with a key configured and the storage working, a
    start discards the turns on display and leaves exactly one turn, the
    starter turn.  When the topic is refined into a question, the turn
    holds that question and the session runs; when the call is rejected,
    the error is reported, the session goes to [idle], and the starter
    turn stays with its placeholder text. *)
Theorem handleStartSession_agent_outcomes
    uuidv4 gemini refiner storage settings startTopic st :
  interactionMode settings = agent →
  keysToTry (apiKeys refiner) ≠ [] →
  saveSession storage = None →
  saveSettings storage = None →
  let starterId := uuidv4 (S (uuidCount st)) in
  let st' := handleStartSession uuidv4 gemini refiner storage settings startTopic st in
  turnOrder st' = [starterId]
  ∧ match getStarterQuestion refiner startTopic settings with
    | inr question =>
        sessionState st' = running_auto
        ∧ error st' = error st
        ∧ turns st'
          = {[starterId := with_id starterId
                             (with_modelName (starterModel refiner)
                                (with_content question (with_role starter emptyObject)))]}
    | inl e =>
        sessionState st' = idle
        ∧ error st' = Some (errorMessage e)
        ∧ turns st'
          = {[starterId := with_id starterId
                             (with_content
                                ("Refining topic: " +:+ DQUOTE +:+ startTopic
                                 +:+ DQUOTE +:+ "...")
                                (with_role starter emptyObject))]}
    end.
Proof.
  intros Hmode Hkeys Hsession Hsettings starterId. unfold handleStartSession.
  destruct (existsb _ (apiKeys refiner)) eqn:Hsome;
    [|by apply keysToTry_some in Hsome].
  cbn [negb]. unfold bind, createNewSession, drawUuid.
  rewrite Hsession, Hsettings, Hmode.
  unfold update, addTurnIn, await. rewrite addTurn_unfold.
  cbn [uuidCount setSessionState setTurns setTurnOrder turns turnOrder]. fold starterId.
  destruct (getStarterQuestion refiner startTopic settings) as [e|question];
    unfold updateTurn;
    cbn [sessionState error turns turnOrder setSessionState setError setTurns app];
    (split; [done|]); (split; [done|]); (split; [done|]).
  - by rewrite insert_empty.
  - match goal with |- context [interpolate (id ?t)] =>
      change (interpolate (id t)) with starterId end.
    rewrite lookup_insert_eq, insert_insert_eq, insert_empty. done.
Qed.

(** X25.  In direct mode, with a key configured and the storage working, a
    start discards the turns on display and makes the topic the first user
    turn; the answer is streamed, with an empty context, into a teacher
    turn after it.  When the stream completes the session ends paused;
    when it throws, the error is reported and the session ends [idle],
    the turns created so far staying in the store. *)
Theorem handleStartSession_direct_outcomes
    uuidv4 gemini refiner storage settings startTopic st :
  interactionMode settings = direct →
  keysToTry (apiKeys refiner) ≠ [] →
  saveSession storage = None →
  saveSettings storage = None →
  let generator := getDirectChatResponseStream gemini "" (Some startTopic) [] settings in
  let userId := uuidv4 (S (uuidCount st)) in
  let answerId := uuidv4 (S (S (uuidCount st))) in
  let firstTurn :=
    with_id userId
      (with_attachments [] (with_content startTopic (with_role user emptyObject))) in
  let st' := handleStartSession uuidv4 gemini refiner storage settings startTopic st in
  sessionState st' = match failure generator with
                     | Some _ => idle
                     | None => paused_user_input
                     end
  ∧ error st' = match failure generator with
                | Some e => Some (errorMessage e)
                | None => error st
                end
  ∧ match chunks generator with
    | [] => turnOrder st' = [userId] ∧ turns st' = {[userId := firstTurn]}
    | first :: rest =>
        turnOrder st' = [userId; answerId]
        ∧ turns st'
          = <[answerId := with_id answerId
                            (with_isStreaming (bool_decide (is_Some (failure generator)))
                               (with_content (String.concat "" (chunks generator))
                                  (with_modelName (ms_directChat (modelSettings settings))
                                     (with_role teacher emptyObject))))]>
              {[userId := firstTurn]}
    end.
Proof.
  intros Hmode Hkeys Hsession Hsettings generator userId answerId firstTurn.
  unfold handleStartSession.
  destruct (existsb _ (apiKeys refiner)) eqn:Hsome;
    [|by apply keysToTry_some in Hsome].
  cbn [negb]. unfold bind, createNewSession, drawUuid.
  rewrite Hsession, Hsettings, Hmode.
  unfold update, finallyPaused, resolve.
  cbn [uuidCount setSessionState setTurns setTurnOrder turns turnOrder].
  fold userId. fold firstTurn. change (interpolate (id firstTurn)) with userId.
  fold generator.
  destruct (chunks generator) as [|first rest] eqn:Hchunks.
  - unfold createTurnFromStream. rewrite Hchunks.
    by destruct (failure generator).
  - match goal with |- context [createTurnFromStream _ ?d _ ?s] =>
      destruct (createTurnFromStream_closed uuidv4 d generator first rest s Hchunks)
        as (Hthrown & Hdone & Hturns & Horder & Hstate & Herror & _);
      destruct (createTurnFromStream uuidv4 d generator s) as [r s'] eqn:Hrun
    end.
    cbn [fst snd turns turnOrder sessionState error uuidCount] in *.
    fold answerId in Hturns, Horder.
    destruct (failure generator) as [e|].
    + rewrite (Hthrown e eq_refl).
      cbn [sessionState error turns turnOrder setSessionState setError].
      by rewrite Hturns, Horder.
    + destruct (Hdone eq_refl) as [r' ->].
      cbn [sessionState error turns turnOrder setSessionState setError].
      by rewrite Hturns, Horder, Herror.
Qed.

(** The id under which the migration files a turn. *)
Lemma hasId_Some turn i t :
  hasId turn = Some (i, t) ↔ turn = Some t ∧ id t = Some i ∧ truthy i = true.
Proof.
  unfold hasId. destruct turn as [t'|]; [|by split; [|intros [? _]]].
  destruct (id t') as [i'|] eqn:Hid; [|split; [done|by intros ([= ->] & ? & _); congruence]].
  destruct (truthy i') eqn:Htruthy.
  - split; [by intros [= <- <-]|]. intros ([= ->] & Hi & _). congruence.
  - split; [done|]. intros ([= ->] & Hi & Ht). congruence.
Qed.

Lemma migrate_lookup_Some (oldTurns : list (option Turn)) (acc : gmap string Turn) k t :
  foldl (fun (acc : gmap string Turn) turn => match hasId turn with
                         | Some (i, turn) => <[i := turn]> acc
                         | None => acc
                         end) acc oldTurns !! k = Some t →
  acc !! k = Some t ∨ (Some t ∈ oldTurns ∧ id t = Some k).
Proof.
  revert acc. induction oldTurns as [|turn oldTurns IH]; intros acc; [by left|].
  cbn [foldl]. intros [Hacc|[Hin Hid]]%IH.
  - destruct (hasId turn) as [[i t']|] eqn:Hturn; [|by left].
    apply hasId_Some in Hturn as (-> & Hid & _).
    destruct (decide (i = k)) as [->|Hne].
    + rewrite lookup_insert_eq in Hacc. injection Hacc as ->.
      right. split; [apply list_elem_of_here|done].
    + rewrite lookup_insert_ne in Hacc by done. by left.
  - right. split; [by right|done].
Qed.

Lemma migrate_lookup_is_Some (oldTurns : list (option Turn)) (acc : gmap string Turn) k :
  is_Some (acc !! k)
  ∨ (∃ t, Some t ∈ oldTurns ∧ id t = Some k ∧ truthy k = true) →
  is_Some (foldl (fun (acc : gmap string Turn) turn => match hasId turn with
                                  | Some (i, turn) => <[i := turn]> acc
                                  | None => acc
                                  end) acc oldTurns !! k).
Proof.
  revert acc. induction oldTurns as [|turn oldTurns IH]; intros acc.
  - intros [H|(t & Hin & _)]; [done|]. by apply elem_of_nil in Hin.
  - cbn [foldl]. intros [Hacc|(t & Hin & Hid & Htruthy)]; apply IH.
    + left. destruct (hasId turn) as [[i t']|]; [|done].
      destruct (decide (i = k)) as [->|Hne];
        [rewrite lookup_insert_eq|rewrite lookup_insert_ne]; done.
    + apply elem_of_cons in Hin as [<-|Hin].
      * left. assert (hasId (Some t) = Some (k, t)) as -> by (by apply hasId_Some).
        rewrite lookup_insert_eq. done.
      * right. by exists t.
Qed.

Lemma mapM_present (present : list Turn) :
  mapM (fun turn : option Turn => turn) (Some <$> present) = Some present.
Proof.
  induction present as [|t present IH]; [reflexivity|].
  cbn [fmap list_fmap mapM]. cbn [mbind option_bind].
  change (list_fmap Turn (option Turn) Some present) with (Some <$> present).
  rewrite IH. reflexivity.
Qed.

Lemma mapM_absent (oldTurns : list (option Turn)) :
  None ∈ oldTurns → mapM (fun turn : option Turn => turn) oldTurns = None.
Proof.
  induction oldTurns as [|turn oldTurns IH]; [by intros ?%elem_of_nil|].
  intros [<-|Hin]%elem_of_cons; [reflexivity|].
  cbn [mapM]. destruct turn; [|reflexivity]. cbn [mbind option_bind].
  by rewrite (IH Hin).
Qed.

Lemma hasNullElement_true (oldTurns : list (option Turn)) :
  hasNullElement oldTurns = true → None ∈ oldTurns.
Proof.
  unfold hasNullElement. intros (turn & Hin & Hnull)%existsb_exists.
  destruct turn; [done|]. by apply list_elem_of_In.
Qed.

Lemma hasNullElement_false (oldTurns : list (option Turn)) :
  hasNullElement oldTurns = false →
  oldTurns = Some <$> omap (fun turn : option Turn => turn) oldTurns.
Proof.
  unfold hasNullElement. induction oldTurns as [|turn oldTurns IH]; [done|].
  cbn [existsb]. destruct turn as [t|]; [|done]. cbn [orb]. intros Hrest.
  cbn [omap list_omap fmap list_fmap]. f_equal. by apply IH.
Qed.

(** X26.  Loading a session stored in the old format, where the turns are
    an array: when the array has a [null] element, [loadSession] throws
    before it has set anything.  Otherwise the turns that have an id are
    filed under it, the order lists these ids as the array has them, every
    id of the order has its turn, and the session is paused unless no turn
    has an id, in which case it is [idle]. *)
Theorem loadSession_migrates_array typeErrorMessage sessionData oldTurns st :
  sd_turns sessionData = TurnsArray oldTurns →
  let present := omap (fun turn : option Turn => turn) oldTurns in
  if hasNullElement oldTurns then
    loadSession typeErrorMessage sessionData st = inl (TypeError (typeErrorMessage "id"))
  else
    ∃ st', loadSession typeErrorMessage sessionData st = inr st'
           ∧ listed st'
           ∧ (∀ k, k ∈ turnOrder st'
                   ↔ ∃ t, t ∈ present ∧ id t = Some k ∧ truthy k = true)
           ∧ (∀ k t, turns st' !! k = Some t → t ∈ present ∧ id t = Some k)
           ∧ turnOrder st' `sublist_of` omap id present
           ∧ (sessionState st' = idle ∧ turnOrder st' = []
              ∨ sessionState st' = paused_user_input ∧ turnOrder st' ≠ [])
           ∧ error st' = error st.
Proof.
  intros Hturns present. unfold loadSession, migrateOrder. rewrite Hturns.
  destruct (hasNullElement oldTurns) eqn:Hnull.
  { by rewrite (mapM_absent _ (hasNullElement_true _ Hnull)). }
  rewrite (hasNullElement_false _ Hnull). fold present. clearbody present.
  clear Hturns Hnull. rewrite mapM_present.
  set (order := omap _ present).
  assert (∀ k, k ∈ order ↔ ∃ t, t ∈ present ∧ id t = Some k ∧ truthy k = true) as Horder.
  { intros k. unfold order. rewrite list_elem_of_omap. split.
    - intros (t & Hin & Hid). exists t. split; [done|].
      destruct (id t) as [i|]; [|done]. destruct (truthy i) eqn:Htruthy; [|done].
      by injection Hid as ->.
    - intros (t & Hin & Hid & Htruthy). exists t. split; [done|].
      by rewrite Hid, Htruthy. }
  eexists. split; [reflexivity|].
  cbn [turns turnOrder sessionState error setTurns setTurnOrder setSessionState default].
  unfold Datatypes.id.
  split; [|split; [exact Horder|]; split; [|split; [|split; [|reflexivity]]]].
  - intros k Hin. cbn [turns turnOrder setTurns setTurnOrder setSessionState] in *.
    apply Horder in Hin as (t & Hin & Hid & Htruthy).
    apply migrate_lookup_is_Some. right. exists t. split; [|done].
    by apply list_elem_of_fmap_2.
  - intros k t [Hempty|[Hin Hid]]%migrate_lookup_Some; [by rewrite lookup_empty in Hempty|].
    split; [|done]. apply list_elem_of_fmap in Hin as (t' & [= <-] & Hin). done.
  - unfold order. clear Horder order.
    induction present as [|t present IH]; [done|].
    cbn [omap list_omap]. destruct (id t) as [i|]; [|exact IH].
    destruct (truthy i); [by apply sublist_skip|by apply sublist_cons].
  - destruct order; [by left|by right].
Qed.

(* ===================================================================== *)
(** * 19. Properties of the discussion of a turn                          *)
(* ===================================================================== *)

Lemma hasTheId_other aiId (base : list Turn) (f : Turn → Turn) :
  Forall (fun t => id t ≠ Some aiId) base →
  (fun t => if hasTheId aiId t then f t else t) <$> base = base.
Proof.
  induction 1 as [|t base Hne _ IH]; [done|].
  cbn [fmap list_fmap]. change (list_fmap Turn Turn ?g base) with (g <$> base).
  rewrite IH. unfold hasTheId. destruct (id t) as [i|]; [|done].
  destruct (String.eqb_spec i aiId) as [->|]; [done|done].
Qed.

Lemma hasTheId_same aiId t : id t = Some aiId → hasTheId aiId t = true.
Proof. unfold hasTheId. intros ->. apply String.eqb_refl. Qed.

(** After its first chunk the loop rewrites the content of the turn it has
    added and nothing else. *)
Lemma discussionChunks_rest uuidv4 settings rest aiId fullContent st contextTurn base ai :
  truthy aiId = true →
  Forall (fun t => id t ≠ Some aiId) base →
  id ai = Some aiId →
  content ai = Some fullContent →
  discussionChunks uuidv4 settings rest (Some aiId) fullContent st
    {| Discussion.contextTurn := contextTurn; Discussion.turns := base ++ [ai] |}
  = (Some aiId, st,
     {| Discussion.contextTurn := contextTurn;
        Discussion.turns :=
          base ++ [with_content (fullContent +:+ String.concat "" rest) ai] |}).
Proof.
  intros Htruthy Hbase. revert fullContent ai.
  induction rest as [|chunk rest IH]; intros fullContent ai Hid Hcontent.
  - cbn [discussionChunks String.concat]. rewrite append_empty_r.
    by rewrite with_content_same.
  - cbn [discussionChunks noTurnYet]. rewrite Htruthy. cbn [negb].
    unfold setDiscussionTurns. cbn [Discussion.contextTurn Discussion.turns].
    change (interpolate (Some aiId)) with aiId.
    rewrite fmap_app, (hasTheId_other _ _ _ Hbase). cbn [fmap list_fmap].
    rewrite (hasTheId_same _ _ Hid), spread_with_content.
    rewrite (IH (fullContent +:+ chunk) (with_content (fullContent +:+ chunk) ai));
      [|by destruct ai|done].
    by rewrite with_content_idem, concat_empty_cons, append_assoc.
Qed.

(** X27.  A message sent in the discussion of a turn is appended to the
    discussion as a user turn, and the answer is streamed into a teacher
    turn after it, under an id that no turn of the discussion has.  When
    the stream completes, the answer holds all the chunks and is no
    longer marked as streaming.  When the stream throws, the error is
    reported and every turn still marked as streaming is taken out of the
    discussion, the partial answer included: the user's message stays. *)
Theorem discussion_reply_outcomes uuidv4 gemini settings prompt st captured generator :
  let userId := uuidv4 (uuidCount st) in
  let aiId := uuidv4 (S (uuidCount st)) in
  truthy aiId = true →
  aiId ≠ userId →
  Forall (fun t => id t ≠ Some aiId) (Discussion.turns captured) →
  (∀ context, getDirectChatResponseStream gemini context (Some prompt) [] settings
              = generator) →
  let userTurn := with_content prompt (with_role user (with_id userId emptyObject)) in
  let answer streaming :=
    with_modelName (ms_directChat (modelSettings settings))
      (with_isStreaming streaming
         (with_content (String.concat "" (chunks generator))
            (with_role teacher (with_id aiId emptyObject)))) in
  let ds' := handleSendDiscussionMessage uuidv4 gemini settings prompt
               {| appState := st; discussionContext := Some captured |} in
  ∃ context',
    discussionContext ds' = Some context'
    ∧ Discussion.contextTurn context' = Discussion.contextTurn captured
    ∧ match failure generator with
      | None =>
          error (appState ds') = error st
          ∧ Discussion.turns context'
            = Discussion.turns captured
              ++ userTurn :: match chunks generator with
                             | [] => []
                             | _ :: _ => [answer false]
                             end
      | Some e =>
          error (appState ds') = Some (errorMessage e)
          ∧ Discussion.turns context'
            = List.filter notStreaming (Discussion.turns captured) ++ [userTurn]
      end.
Proof.
  intros userId aiId Htruthy Hne Hfresh Hstream userTurn answer ds'.
  unfold ds', handleSendDiscussionMessage, drawUuid.
  cbn [discussionContext appState]. rewrite Hstream. fold userId. fold userTurn.
  destruct (chunks generator) as [|first rest] eqn:Hchunks.
  - cbn [discussionChunks noTurnYet].
    destruct (failure generator) as [e|]; eexists; (split; [reflexivity|]);
      (split; [reflexivity|]); (split; [reflexivity|]);
      unfold setDiscussionTurns; cbn [Discussion.turns]; [|done].
    by rewrite List.filter_app.
  - cbn [discussionChunks noTurnYet]. unfold drawUuid. cbn [uuidCount]. fold aiId.
    unfold setDiscussionTurns. cbn [Discussion.contextTurn Discussion.turns].
    set (created := with_modelName _ (with_isStreaming true
                      (with_content ("" +:+ first) _))).
    change (id created) with (Some aiId).
    rewrite (discussionChunks_rest uuidv4 settings rest aiId ("" +:+ first) _ _
               (Discussion.turns captured ++ [userTurn]) created Htruthy);
      [|apply Forall_app; split; [done|];
        constructor; [by intros [= ?]|constructor]|done|done].
    cbn [noTurnYet]. rewrite Htruthy. cbn [negb].
    assert (with_content (("" +:+ first) +:+ String.concat "" rest) created = answer true)
      as ->.
    { unfold answer, created. rewrite concat_empty_cons. reflexivity. }
    destruct (failure generator) as [e|]; eexists; (split; [reflexivity|]);
      (split; [reflexivity|]); (split; [reflexivity|]);
      unfold setDiscussionTurns; cbn [Discussion.turns].
    + rewrite !List.filter_app. cbn [List.filter notStreaming isStreaming userTurn
        answer with_content with_role with_id with_modelName with_isStreaming emptyObject].
      by rewrite app_nil_r.
    + change (interpolate (Some aiId)) with aiId.
      rewrite fmap_app. cbn [fmap list_fmap].
      rewrite (hasTheId_same aiId (answer true)) by done.
      rewrite spread_with_isStreaming.
      rewrite (hasTheId_other aiId _ _);
        [|apply Forall_app; split; [done|]; constructor; [by intros [= ?]|constructor]].
      by rewrite <- app_assoc.
Qed.

(* ===================================================================== *)
(** * 20. Properties of the requests of the service and of the dynamic
      topics                                                              *)
(* ===================================================================== *)

Lemma foldl_addAttachment (attachments : list Attachment) currentText inlined :
  foldl Service.addAttachment (Service.TextPart currentText :: inlined) attachments
  = Service.TextPart
      (currentText
       +:+ String.concat ""
             ((fun att => LF +:+ LF +:+ "--- Attached File: " +:+ att_name att
                          +:+ " ---" +:+ LF +:+ data att)
              <$> List.filter (fun att => match att_type att with
                                          | text => true
                                          | image => false
                                          end) attachments))
    :: inlined
       ++ ((fun att => Service.InlineData (mimeType att) (data att))
           <$> List.filter (fun att => match att_type att with
                                       | image => true
                                       | text => false
                                       end) attachments).
Proof.
  revert currentText inlined.
  induction attachments as [|att attachments IH]; intros currentText inlined.
  - cbn [foldl List.filter fmap list_fmap String.concat].
    by rewrite append_empty_r, app_nil_r.
  - cbn [foldl List.filter]. unfold Service.addAttachment at 2.
    destruct (att_type att).
    + change ((Service.TextPart currentText :: inlined)
              ++ [Service.InlineData (mimeType att) (data att)])
        with (Service.TextPart currentText
              :: (inlined ++ [Service.InlineData (mimeType att) (data att)])).
      rewrite IH. cbn [fmap list_fmap]. by rewrite <- app_assoc.
    + cbn [Service.firstText interpolate default insert list_insert].
      change (interpolate (Some currentText)) with currentText.
      rewrite IH. cbn [fmap list_fmap]. rewrite concat_empty_cons.
      by rewrite !append_assoc.
Qed.

(** X28.  With at least one attachment, [buildMultimodalContent] gives
    exactly one text part, the first, followed by one inline part for each
    image in the order of the attachments.  The text part is the prompt
    followed by one delimited block for each text attachment, in their
    order; the images do not change it. *)
Theorem buildMultimodalContent_parts prompt att attachments :
  Service.buildMultimodalContent prompt (Some (att :: attachments))
  = Service.Multimodal
      (Service.TextPart
         (prompt
          +:+ String.concat ""
                ((fun att => LF +:+ LF +:+ "--- Attached File: " +:+ att_name att
                             +:+ " ---" +:+ LF +:+ data att)
                 <$> List.filter (fun att => match att_type att with
                                             | text => true
                                             | image => false
                                             end) (att :: attachments)))
       :: ((fun att => Service.InlineData (mimeType att) (data att))
           <$> List.filter (fun att => match att_type att with
                                       | image => true
                                       | text => false
                                       end) (att :: attachments))).
Proof.
  unfold Service.buildMultimodalContent. by rewrite foldl_addAttachment.
Qed.

(** X29.  With a Gemma model no request carries a system instruction in
    its configuration.  The direct chat request then always opens its
    contents with the instruction, as a prefix of the text or as a first
    part before the attachments; the teacher request does so only when
    there is no attachment: with one or more, the instruction is in no part
    of the request, which is the same whatever the instruction is. *)
Theorem gemma_teacher_request_with_attachments_drops_instruction
    instruction context question att attachments settings :
  Service.isGemmaModel (Service.teacherModel settings) = true →
  Service.isGemmaModel (Service.directChatModel settings) = true →
  let teacher attached instruction :=
    Service.getTeacherResponse_request instruction context question attached settings in
  let chat attached :=
    Service.getDirectChatResponseStream_request instruction context question attached
      settings in
  (∀ attached,
     Service.systemInstruction (Service.config (teacher attached instruction)) = None
     ∧ Service.systemInstruction (Service.config (chat attached)) = None)
  ∧ (∃ prompt, Service.contents (teacher None instruction)
               = Service.Plain (Service.gemmaFormatting instruction prompt))
  ∧ (∃ prompt, Service.contents (chat None)
               = Service.Plain (Service.gemmaFormatting instruction prompt))
  ∧ (∃ parts, Service.contents (chat (Some (att :: attachments)))
              = Service.Multimodal
                  (Service.TextPart (Service.gemmaFormatting instruction "") :: parts))
  ∧ (∀ instruction',
       teacher (Some (att :: attachments)) instruction'
       = teacher (Some (att :: attachments)) instruction).
Proof.
  intros Hteacher Hchat teacher chat.
  unfold teacher, chat, Service.getTeacherResponse_request,
    Service.getDirectChatResponseStream_request, Service.generateStream_request.
  rewrite Hteacher, Hchat. cbn [Service.config Service.systemInstruction Service.contents].
  split; [|split; [|split; [|split]]].
  - done.
  - by eexists.
  - by eexists.
  - unfold Service.buildMultimodalContent. by eexists.
  - intros instruction'. by unfold Service.buildMultimodalContent.
Qed.

Section RotationOutcome.
Context {W T : Type}.
Variable apiCall : string → W → (Thrown + T) * W.

(** Once an error has been caught the loop does not forget it. *)
Lemma rotationLoop_keeps_error cs locals w trace locals' w' trace' :
  rotationLoop apiCall cs locals w trace = (RanOut locals', w', trace') →
  is_Some (lastError locals) → is_Some (lastError locals').
Proof.
  revert locals w trace. induction cs as [|[k i] cs IH]; intros locals w trace Hrun Hsome.
  - by injection Hrun as <- _ _.
  - cbn [rotationLoop] in Hrun. destruct (appearsInvalid k).
    + by apply IH in Hrun.
    + destruct (apiCall k w) as [[e|r] w1]; [|done]. by apply IH in Hrun.
Qed.

(** A candidate that passes the local check is tried: the loop returns,
    or it ends with an error caught. *)
Lemma rotationLoop_attempts cs locals w trace :
  Exists (fun c => appearsInvalid c.1 = false) cs →
  match rotationLoop apiCall cs locals w trace with
  | (Returned _, _, _) => True
  | (RanOut locals', _, _) => is_Some (lastError locals')
  end.
Proof.
  revert locals w trace. induction cs as [|[k i] cs IH]; intros locals w trace Hsome.
  - by apply Exists_nil in Hsome.
  - cbn [rotationLoop]. destruct (appearsInvalid k) eqn:Hk.
    + apply IH. apply Exists_cons in Hsome as [Hhead|Htail]; [|done].
      cbn in Hhead. congruence.
    + destruct (apiCall k w) as [[e|r] w1]; [|done].
      match goal with |- context [rotationLoop apiCall cs ?l ?w ?t] =>
        destruct (rotationLoop apiCall cs l w t) as [[[r|locals'] w'] trace'] eqn:Hrun
      end; [done|].
      by apply rotationLoop_keeps_error in Hrun.
Qed.

(** The rotation rejects with an [ApiKeyError] only when no candidate
    passes the local check, and then without a request. *)
Lemma rotation_ApiKeyError_cases apiKeys statuses w cls message w' trace :
  withApiKeyRotation apiKeys statuses apiCall w
  = (inl (ErrorObject cls message), w', trace) →
  cls = ApiKeyErrorClass →
  Forall (fun c => appearsInvalid c.1 = true) (keysToTry apiKeys)
  ∧ w' = w ∧ apiCallsOf trace = []
  ∧ (keysToTry apiKeys ≠ [] →
     message = "All configured API keys failed client-side validation and were skipped. Please check your keys in Settings.").
Proof.
  intros Hrun ->. unfold withApiKeyRotation in Hrun.
  destruct (keysToTry apiKeys) as [|c cs] eqn:Hkeys.
  { cbn in Hrun. injection Hrun as _ <- <-. by repeat split. }
  rewrite <- Hkeys in *.
  assert (Nat.eqb (length (keysToTry apiKeys)) 0 = false) as Hlen
    by (by rewrite Hkeys).
  rewrite Hlen in Hrun.
  destruct (decide (Forall (fun c => appearsInvalid c.1 = true) (keysToTry apiKeys)))
    as [Hall|Hsome].
  - rewrite rotationLoop_skips_all in Hrun by done.
    cbn [skipped lastError validationErrors whenTruthy] in Hrun.
    rewrite app_nil_l, length_fmap, Nat.eqb_refl in Hrun.
    rewrite Hkeys in Hrun at 1. cbn [length Nat.ltb Nat.leb andb] in Hrun.
    injection Hrun as <- <- <-. split; [done|]. split; [done|].
    split; [|done]. by rewrite !apiCallsOf_app, apiCallsOf_warnings.
  - exfalso. apply not_Forall_Exists in Hsome; [|intros x; apply _].
    assert (Exists (fun c => appearsInvalid c.1 = false) (keysToTry apiKeys)) as Htry.
    { eapply Exists_impl; [exact Hsome|]. intros x Hx. cbn in Hx.
      by destruct (appearsInvalid x.1). }
    pose proof (rotationLoop_attempts (keysToTry apiKeys)
                  {| lastError := None;
                     lastErrorKeyInfo := {| key := ""; index := -1 |};
                     validationErrors := [] |} w [] Htry) as Hout.
    destruct (rotationLoop apiCall _ _ w []) as [[[r|locals] w1] trace1] eqn:Hloop;
      [done|].
    destruct Hout as [e He].
    apply rotationLoop_ran_out in Hloop as [(Hnone & _)|(_ & _ & Hl)].
    { rewrite He in Hnone. done. }
    rewrite He in Hrun. cbn [whenTruthy validationErrors length Nat.add] in *.
    destruct (isTruthy e); [done|].
    destruct (Nat.eqb_spec (length (validationErrors locals))
                (length (keysToTry apiKeys))) as [Heq|_]; [lia|].
    rewrite andb_false_r in Hrun. done.
Qed.

End RotationOutcome.

(** With candidates that all fail the local check the rotation rejects
    with the all-keys-invalid error, without a request. *)
Lemma rotation_all_invalid {W T : Type} (apiCall : string → W → (Thrown + T) * W)
    apiKeys statuses w :
  keysToTry apiKeys ≠ [] →
  Forall (fun c => appearsInvalid c.1 = true) (keysToTry apiKeys) →
  ∃ trace,
    withApiKeyRotation apiKeys statuses apiCall w
    = (inl (ApiKeyError "All configured API keys failed client-side validation and were skipped. Please check your keys in Settings."), w, trace)
    ∧ apiCallsOf trace = [].
Proof.
  intros Hne Hall. unfold withApiKeyRotation.
  rewrite rotationLoop_skips_all by done.
  cbn [skipped lastError validationErrors whenTruthy]. rewrite app_nil_l, length_fmap.
  destruct (keysToTry apiKeys) as [|c cs]; [done|].
  cbn [length Nat.eqb Nat.ltb Nat.leb andb]. rewrite Nat.eqb_refl.
  eexists. split; [reflexivity|].
  by rewrite !apiCallsOf_app, apiCallsOf_warnings.
Qed.

Lemma hasValidKey_keysToTry settings :
  Service.hasValidKey settings = true → keysToTry (Service.apiKeys settings) ≠ [].
Proof.
  unfold Service.hasValidKey, keysToTry.
  intros (c & Hin & Hc)%existsb_exists Hnil.
  apply andb_true_iff in Hc as [Hc _].
  assert (c ∈ List.filter (fun k : string * nat => (truthy k.1 && truthy (trim k.1))%bool)
                (imap (fun index key => (key, index)) (Service.apiKeys settings))) as Hin'.
  { apply list_elem_of_In, filter_In. split; [done|exact Hc]. }
  rewrite Hnil in Hin'. by apply elem_of_nil in Hin'.
Qed.

Lemma hasValidKey_false settings :
  (∀ i k, Service.apiKeys settings !! i = Some k → truthy (trim k) = true →
          Service.apiKeyStatuses settings !! i = Some exhausted) →
  Service.hasValidKey settings = false.
Proof.
  intros Hall. unfold Service.hasValidKey.
  destruct (existsb _ _) eqn:Hsome; [|done]. exfalso.
  apply existsb_exists in Hsome as ([k i] & Hin & Hc).
  apply list_elem_of_In, list_elem_of_lookup in Hin as [j Hj].
  rewrite list_lookup_imap in Hj.
  destruct (Service.apiKeys settings !! j) as [k'|] eqn:Hk; [|done].
  injection Hj as <- <-. cbn [fst snd] in Hc.
  apply andb_true_iff in Hc as [[_ Htrim]%andb_true_iff Hstatus].
  rewrite (Hall j k' Hk Htrim) in Hstatus. done.
Qed.

(** X30.  [getDynamicTopics] consults the statuses of the keys, which the
    rotation does not: when every key that is not blank is marked as
    exhausted, it resolves with its fallback topics without a request.
    Otherwise it rejects exactly when every key the rotation takes up fails
    the local format check; the error is then the all-keys-invalid
    [ApiKeyError] and no request has been made.  Every other failure, of
    the requests or of the parsing of the answer, resolves with the
    fallback topics. *)
Theorem getDynamicTopics_rejects_only_on_malformed_keys {W J : Type}
    (generateContent : Service.Request → string → W → (Thrown + option string) * W)
    (JSON_parse : string → option J) settings w :
  let run := Service.getDynamicTopics generateContent JSON_parse settings w in
  let fallback :=
    Service.Fallback
      (Service.fallbackTopics
         (includes (toLowerCase (Service.learningLevel settings)) "neet")) in
  ((∀ i k, Service.apiKeys settings !! i = Some k → truthy (trim k) = true →
           Service.apiKeyStatuses settings !! i = Some exhausted) →
   run = (inr fallback, w, []))
  ∧ ((∃ e, run.1.1 = inl e)
     ↔ Service.hasValidKey settings = true
       ∧ Forall (fun c => appearsInvalid c.1 = true) (keysToTry (Service.apiKeys settings)))
  ∧ (∀ e, run.1.1 = inl e →
          e = ApiKeyError "All configured API keys failed client-side validation and were skipped. Please check your keys in Settings."
          ∧ run.1.2 = w ∧ apiCallsOf run.2 = [])
  ∧ (∀ topics, run.1.1 = inr topics →
               topics = fallback ∨ ∃ value, topics = Service.Parsed value).
Proof.
  intros run fallback. unfold run, Service.getDynamicTopics. fold fallback.
  split.
  { intros Hexhausted. by rewrite (hasValidKey_false _ Hexhausted). }
  destruct (Service.hasValidKey settings) eqn:Hvalid; cbn [negb].
  2: { split; [|split].
       - split; [by intros [e He]|by intros [? _]].
       - by intros e He.
       - intros topics [= <-]. by left. }
  pose proof (hasValidKey_keysToTry _ Hvalid) as Hne.
  match goal with |- context [withApiKeyRotation ?keys ?statuses ?call w] =>
    set (apiCall := call);
    destruct (withApiKeyRotation keys statuses apiCall w) as [[[e|response] w'] trace]
      eqn:Hrun
  end.
  - destruct e as [[|] message|value|value].
    + (* a plain error: fallback *)
      cbn [fst snd]. split; [|split].
      * split; [by intros [e He]|]. intros [_ Hall].
        destruct (rotation_all_invalid apiCall _
                    (Some (Service.apiKeyStatuses settings)) w Hne Hall)
          as (trace0 & Hrun0 & _).
        rewrite Hrun0 in Hrun. done.
      * by intros e He.
      * intros topics [= <-]. by left.
    + (* an ApiKeyError: rethrown *)
      cbn [fst snd].
      destruct (rotation_ApiKeyError_cases apiCall _ _ _ _ _ _ _ Hrun eq_refl)
        as (Hall & -> & Hcalls & Hmessage).
      split; [|split].
      * split; [done|]. intros _. by eexists.
      * intros e [= <-]. by rewrite (Hmessage Hne).
      * by intros topics H.
    + cbn [fst snd]. split; [|split].
      * split; [by intros [e He]|]. intros [_ Hall].
        destruct (rotation_all_invalid apiCall _
                    (Some (Service.apiKeyStatuses settings)) w Hne Hall)
          as (trace0 & Hrun0 & _).
        rewrite Hrun0 in Hrun. done.
      * by intros e He.
      * intros topics [= <-]. by left.
    + cbn [fst snd]. split; [|split].
      * split; [by intros [e He]|]. intros [_ Hall].
        destruct (rotation_all_invalid apiCall _
                    (Some (Service.apiKeyStatuses settings)) w Hne Hall)
          as (trace0 & Hrun0 & _).
        rewrite Hrun0 in Hrun. done.
      * by intros e He.
      * intros topics [= <-]. by left.
  - assert (¬ Forall (fun c => appearsInvalid c.1 = true)
                (keysToTry (Service.apiKeys settings))) as Hsome.
    { intros Hall.
      destruct (rotation_all_invalid apiCall _
                  (Some (Service.apiKeyStatuses settings)) w Hne Hall)
        as (trace0 & Hrun0 & _).
      rewrite Hrun0 in Hrun. done. }
    destruct response as [responseText|]; [destruct (truthy responseText)|];
      try destruct (JSON_parse _) as [value|]; cbn [fst snd];
      (split; [|split]);
      try (split; [by intros [e He]|by intros [_ Hall]]);
      try (by intros e He);
      intros topics [= <-]; (by left) || (right; by eexists).
Qed.

(* ===================================================================== *)
(** * 21. The further statements on the sample inputs                     *)
(* ===================================================================== *)

Lemma handleRegenerate_touches_only_target_witness :
  let run := handleRegenerate sampleTypeErrorMessage sampleGemini directSettings "turn-1"
               chatState in
  turnOrder run.2 = turnOrder chatState
  ∧ (∀ k, k ≠ "turn-1" → turns run.2 !! k = turns chatState !! k)
  ∧ uuidCount run.2 = uuidCount chatState
  ∧ (run.2 = chatState
     ∨ (run.1 = inr tt
        ∧ sessionState run.2 = paused_user_input
        ∧ ∃ t, turns run.2 !! "turn-1" = Some t
               ∧ role t = Some teacher ∧ isStreaming t = Some false)).
Proof.
  apply (handleRegenerate_touches_only_target sampleTypeErrorMessage sampleGemini
           directSettings "turn-1" chatState).
  reflexivity.
Defined.

Lemma handleRegenerate_replaces_answer_witness :
  let question := with_id "turn-0" (with_content "q1" (with_role user emptyObject)) in
  let answer := with_id "turn-1" (with_content "a1" (with_role teacher emptyObject)) in
  let settings := directSettings in
  let run := handleRegenerate sampleTypeErrorMessage failingTeacher settings "turn-1"
               chatState in
  run.1 = inr tt
  ∧ sessionState run.2 = paused_user_input
  ∧ turnOrder run.2 = turnOrder chatState
  ∧ ∃ t, turns run.2 !! "turn-1" = Some t
         ∧ id t = id answer ∧ role t = Some teacher
         ∧ attachments t = attachments answer
         ∧ isStreaming t = Some false
         ∧ match getTeacherResponse failingTeacher (renderContext (turns chatState) [])
                   (interpolate (content question)) (attachments answer)
                   (settingsForRegen settings) with
           | inr response =>
               error run.2 = error chatState
               ∧ content t = Some (resp_text response)
               ∧ functionCall t = Some (resp_functionCall response)
               ∧ modelName t = Some (modelForTeacher settings)
           | inl e =>
               error run.2 = Some (errorMessage e)
               ∧ content t = Some "Error regenerating response."
               ∧ modelName t = modelName answer
           end.
Proof.
  apply (handleRegenerate_replaces_answer sampleTypeErrorMessage failingTeacher
           directSettings "turn-1" chatState [] "turn-0" ["turn-2"]
           (with_id "turn-0" (with_content "q1" (with_role user emptyObject)))
           (with_id "turn-1" (with_content "a1" (with_role teacher emptyObject)))).
  - reflexivity.
  - reflexivity.
  - apply not_elem_of_nil.
  - discriminate.
  - reflexivity.
  - constructor.
  - reflexivity.
  - reflexivity.
  - reflexivity.
  - reflexivity.
Defined.

Lemma handleRephrase_appends_rephrased_turn_witness :
  let question := with_id "turn-0" (with_content "q1" (with_role user emptyObject)) in
  let answer := with_id "turn-1" (with_content "a1" (with_role teacher emptyObject)) in
  let settings := directSettings in
  let generator :=
    getRephrasedResponseStream sampleRephraser (interpolate (content question))
      (interpolate (content answer)) Analogy settings in
  let uuid := sampleUuid (uuidCount chatState) in
  let st' := handleRephrase sampleTypeErrorMessage sampleUuid sampleRephraser settings
               "turn-1" Analogy chatState in
  sessionState st' = paused_user_input
  ∧ error st' = match failure generator with
                | Some e => Some (errorMessage e)
                | None => error chatState
                end
  ∧ match chunks generator with
    | [] => turns st' = turns chatState ∧ turnOrder st' = turnOrder chatState
    | first :: rest =>
        turnOrder st' = turnOrder chatState ++ [uuid]
        ∧ turns st'
          = <[uuid := with_id uuid
                        (with_isStreaming (bool_decide (is_Some (failure generator)))
                           (with_content (String.concat "" (chunks generator))
                              (with_modelName (rephraseModel sampleRephraser)
                                 (with_isRephrased true
                                    (with_role teacher emptyObject)))))]>
              (turns chatState)
    end.
Proof.
  apply (handleRephrase_appends_rephrased_turn sampleTypeErrorMessage sampleUuid
           sampleRephraser directSettings "turn-1" Analogy chatState
           [] "turn-0" ["turn-2"]
           (with_id "turn-0" (with_content "q1" (with_role user emptyObject)))
           (with_id "turn-1" (with_content "a1" (with_role teacher emptyObject)))).
  - reflexivity.
  - reflexivity.
  - apply not_elem_of_nil.
  - discriminate.
  - reflexivity.
  - reflexivity.
Defined.

Lemma handleStartSession_storage_failure_keeps_turns_witness :
  let st' := handleStartSession sampleUuid sampleGemini sampleStarter fullStorage
               (sampleSettings every_3_turns 10) "osmosis" chatState in
  sessionState st' = idle
  ∧ error st' = Some "Failed to save session. Error: QuotaExceededError"
  ∧ turns st' = turns chatState
  ∧ turnOrder st' = turnOrder chatState.
Proof.
  apply (handleStartSession_storage_failure_keeps_turns sampleUuid sampleGemini
           sampleStarter fullStorage (sampleSettings every_3_turns 10) "osmosis" chatState
           (Error "Failed to save session. Error: QuotaExceededError")).
  - vm_compute. discriminate.
  - left. reflexivity.
Defined.

Lemma handleStartSession_agent_outcomes_witness :
  let settings := sampleSettings every_3_turns 10 in
  let starterId := sampleUuid (S (uuidCount chatState)) in
  let st' := handleStartSession sampleUuid sampleGemini sampleStarter workingStorage
               settings "osmosis" chatState in
  turnOrder st' = [starterId]
  ∧ match getStarterQuestion sampleStarter "osmosis" settings with
    | inr question =>
        sessionState st' = running_auto
        ∧ error st' = error chatState
        ∧ turns st'
          = {[starterId := with_id starterId
                             (with_modelName (starterModel sampleStarter)
                                (with_content question (with_role starter emptyObject)))]}
    | inl e =>
        sessionState st' = idle
        ∧ error st' = Some (errorMessage e)
        ∧ turns st'
          = {[starterId := with_id starterId
                             (with_content
                                ("Refining topic: " +:+ DQUOTE +:+ "osmosis"
                                 +:+ DQUOTE +:+ "...")
                                (with_role starter emptyObject))]}
    end.
Proof.
  apply (handleStartSession_agent_outcomes sampleUuid sampleGemini sampleStarter
           workingStorage (sampleSettings every_3_turns 10) "osmosis" chatState).
  - reflexivity.
  - vm_compute. discriminate.
  - reflexivity.
  - reflexivity.
Defined.

Lemma handleStartSession_direct_outcomes_witness :
  let settings := directSettings in
  let generator := getDirectChatResponseStream brokenChat "" (Some "osmosis") [] settings in
  let userId := sampleUuid (S (uuidCount chatState)) in
  let answerId := sampleUuid (S (S (uuidCount chatState))) in
  let firstTurn :=
    with_id userId
      (with_attachments [] (with_content "osmosis" (with_role user emptyObject))) in
  let st' := handleStartSession sampleUuid brokenChat sampleStarter workingStorage
               settings "osmosis" chatState in
  sessionState st' = match failure generator with
                     | Some _ => idle
                     | None => paused_user_input
                     end
  ∧ error st' = match failure generator with
                | Some e => Some (errorMessage e)
                | None => error chatState
                end
  ∧ match chunks generator with
    | [] => turnOrder st' = [userId] ∧ turns st' = {[userId := firstTurn]}
    | first :: rest =>
        turnOrder st' = [userId; answerId]
        ∧ turns st'
          = <[answerId := with_id answerId
                            (with_isStreaming (bool_decide (is_Some (failure generator)))
                               (with_content (String.concat "" (chunks generator))
                                  (with_modelName (ms_directChat (modelSettings settings))
                                     (with_role teacher emptyObject))))]>
              {[userId := firstTurn]}
    end.
Proof.
  apply (handleStartSession_direct_outcomes sampleUuid brokenChat sampleStarter
           workingStorage directSettings "osmosis" chatState).
  - reflexivity.
  - vm_compute. discriminate.
  - reflexivity.
  - reflexivity.
Defined.

Lemma loadSession_migrates_array_witness :
  ∃ st', loadSession sampleTypeErrorMessage oldFormatSession initialState = inr st'
         ∧ listed st'
         ∧ (∀ k, k ∈ turnOrder st'
                 ↔ ∃ t, t ∈ oldFormatTurns ∧ id t = Some k ∧ truthy k = true)
         ∧ (∀ k t, turns st' !! k = Some t → t ∈ oldFormatTurns ∧ id t = Some k)
         ∧ turnOrder st' `sublist_of` omap id oldFormatTurns
         ∧ (sessionState st' = idle ∧ turnOrder st' = []
            ∨ sessionState st' = paused_user_input ∧ turnOrder st' ≠ [])
         ∧ error st' = error initialState.
Proof.
  exact (loadSession_migrates_array sampleTypeErrorMessage oldFormatSession
           (Some <$> oldFormatTurns) initialState eq_refl).
Defined.

Lemma discussion_reply_outcomes_witness :
  let settings := directSettings in
  let generator := {| chunks := ["a"; "b"]; failure := Some (Error "connection lost") |} in
  let userId := sampleUuid (uuidCount chatState) in
  let aiId := sampleUuid (S (uuidCount chatState)) in
  let userTurn := with_content "How so?" (with_role user (with_id userId emptyObject)) in
  let answer streaming :=
    with_modelName (ms_directChat (modelSettings settings))
      (with_isStreaming streaming
         (with_content (String.concat "" (chunks generator))
            (with_role teacher (with_id aiId emptyObject)))) in
  let ds' := handleSendDiscussionMessage sampleUuid brokenChat settings "How so?"
               {| appState := chatState; discussionContext := Some sampleDiscussion |} in
  ∃ context',
    discussionContext ds' = Some context'
    ∧ Discussion.contextTurn context' = Discussion.contextTurn sampleDiscussion
    ∧ match failure generator with
      | None =>
          error (appState ds') = error chatState
          ∧ Discussion.turns context'
            = Discussion.turns sampleDiscussion
              ++ userTurn :: match chunks generator with
                             | [] => []
                             | _ :: _ => [answer false]
                             end
      | Some e =>
          error (appState ds') = Some (errorMessage e)
          ∧ Discussion.turns context'
            = List.filter notStreaming (Discussion.turns sampleDiscussion) ++ [userTurn]
      end.
Proof.
  apply (discussion_reply_outcomes sampleUuid brokenChat directSettings "How so?"
           chatState sampleDiscussion
           {| chunks := ["a"; "b"]; failure := Some (Error "connection lost") |}).
  - reflexivity.
  - vm_compute. discriminate.
  - repeat (constructor; [vm_compute; discriminate|]). constructor.
  - reflexivity.
Defined.

Lemma gemma_teacher_request_with_attachments_drops_instruction_witness :
  let teacher attached instruction :=
    Service.getTeacherResponse_request instruction "" "What is osmosis?" attached
      gemmaSettings in
  let chat attached :=
    Service.getDirectChatResponseStream_request "Be brief." "" "What is osmosis?" attached
      gemmaSettings in
  (∀ attached,
     Service.systemInstruction (Service.config (teacher attached "Be brief.")) = None
     ∧ Service.systemInstruction (Service.config (chat attached)) = None)
  ∧ (∃ prompt, Service.contents (teacher None "Be brief.")
               = Service.Plain (Service.gemmaFormatting "Be brief." prompt))
  ∧ (∃ prompt, Service.contents (chat None)
               = Service.Plain (Service.gemmaFormatting "Be brief." prompt))
  ∧ (∃ parts, Service.contents (chat (Some [samplePicture]))
              = Service.Multimodal
                  (Service.TextPart (Service.gemmaFormatting "Be brief." "") :: parts))
  ∧ (∀ instruction',
       teacher (Some [samplePicture]) instruction'
       = teacher (Some [samplePicture]) "Be brief.").
Proof.
  apply (gemma_teacher_request_with_attachments_drops_instruction "Be brief." ""
           "What is osmosis?" samplePicture [] gemmaSettings).
  - reflexivity.
  - reflexivity.
Defined.

Lemma getDynamicTopics_rejects_only_on_malformed_keys_witness :
  Service.getDynamicTopics answeringService (fun s : string => Some s) exhaustedSettings
    0%nat
  = (inr (Service.Fallback (Service.fallbackTopics false)), 0%nat, []).
Proof.
  apply (proj1 (getDynamicTopics_rejects_only_on_malformed_keys answeringService
                  (fun s : string => Some s) exhaustedSettings 0%nat)).
  intros i k Hk Htrim. destruct i as [|i]; [reflexivity|]. by destruct i.
Defined.

(* ===================================================================== *)
(** * 22. Properties of the agent loop                                    *)
(* ===================================================================== *)

(** C8, what the code does with auto-continue switched off.  When the
    store holds [maxTurns] teacher turns or more, the agent turn the loop
    awaits moves the session to [finished] and adds nothing; the loop then
    reads [sessionStateRef], which no render has refreshed and which still
    says [running_auto], and moves the session to [paused_user_input]: the
    effect ends with the session paused, not finished, and the turns as
    they were. *)
Theorem agentLoop_pauses_a_finished_session uuidv4 gemini settings topic st :
  interactionMode settings = agent →
  autoContinueAgent settings = false →
  sessionState st = running_auto →
  isAgentRunning st = false →
  maxTurns settings ≤ teacherCount st →
  runAgentTurn uuidv4 (gemini 0%nat) settings topic st = setSessionState finished st
  ∧ ∀ fuel, agentLoopEffect (S fuel) uuidv4 gemini settings topic st
            = Some (setSessionState paused_user_input st).
Proof.
  intros Hmode Hauto Hstate Hflag Hmax.
  assert (runAgentTurn uuidv4 (gemini 0%nat) settings topic st = setSessionState finished st)
    as Hturn by (by apply runAgentTurn_at_max).
  split; [done|]. intros fuel. unfold agentLoopEffect.
  rewrite Hmode, Hstate. cbn [isRunningAuto agentLoop isCancelled sessionStateRef].
  by rewrite Hauto, Hturn.
Qed.

Section AgentLoop.
Variable uuidv4 : nat → string.
Hypothesis uuidv4_inj : Inj (=) (=) uuidv4.





End AgentLoop.

(** The session of the sample with [maxTurns = 1] and auto-continue off,
    resumed after its only exchange: the agent turn finishes it, the
    effect leaves it paused. *)
Lemma agentLoop_pauses_a_finished_session_witness :
  runAgentTurn sampleUuid sampleGemini (manualSettings disabled 1) "osmosis" answeredState
  = setSessionState finished answeredState
  ∧ ∀ fuel, agentLoopEffect (S fuel) sampleUuid (fun _ => sampleGemini)
              (manualSettings disabled 1) "osmosis" answeredState
            = Some (setSessionState paused_user_input answeredState).
Proof.
  apply (agentLoop_pauses_a_finished_session sampleUuid (fun _ => sampleGemini)
           (manualSettings disabled 1) "osmosis" answeredState).
  - reflexivity.
  - reflexivity.
  - reflexivity.
  - reflexivity.
  - vm_compute. discriminate.
Defined.



(** With [maxTurns = 1] and auto-continue on, the loop started on the
    started session produces one teacher turn and finishes in three
    rounds. *)
Example agentLoop_maxTurns_one :
  let final := agentLoopEffect 3 sampleUuid (fun _ => sampleGemini)
                 (sampleSettings disabled 1) "osmosis" startedState in
  sessionState <$> final = Some finished
  ∧ rolesInOrder <$> final = Some [Some starter; Some student; Some teacher]
  ∧ agentLoopEffect 2 sampleUuid (fun _ => sampleGemini) (sampleSettings disabled 1)
      "osmosis" startedState = None.
Proof. by vm_compute. Qed.
